(** * The Markdown lexer of scintilla/lexers/LexMarkdown.cxx

    A shallow embedding of [ColorizeMarkdownDoc] and of the lookahead
    predicates it calls, over explicit models of the document buffer and of
    the scan cursor, followed by the properties of the scanner.

    Conventions.  Characters are the [int] values the C++ code compares
    (bytes 0..255 of a single-byte document, so that every character is one
    position wide).  Positions ([Sci_Position], [Sci_PositionU]) are
    integers of [Z]: documents are far shorter than the machine word, so the
    only wrap-around that can occur is a position below zero, which the
    bounds-checked accessor answers with its default exactly as it answers
    the wrapped unsigned value. *)

From Stdlib Require Import ZArith List Bool Lia String Ascii Sorted.
Import ListNotations.
Local Open Scope Z_scope.

(** ** Characters *)

Definition chr (a : ascii) : Z := Z.of_N (N_of_ascii a).

Definition bytes (s : string) : list Z := map chr (list_ascii_of_string s).

Definition LF : Z := 10.
Definition CR : Z := 13.
Definition TAB : Z := 9.
Definition SPACE : Z := 32.
Definition BACKSLASH : Z := 92.

(** [IsNewline], LexMarkdown.cxx line 56. *)
Definition IsNewline (ch : Z) : bool := (ch =? LF) || (ch =? CR).

(** Modelled from the spec: [IsASpaceOrTab] of CharacterSet.h, which is not
    among the sources: a space or a tab. *)
Definition IsASpaceOrTab (ch : Z) : bool := (ch =? SPACE) || (ch =? TAB).

(** Modelled from the spec: [isspacechar] of CharacterSet.h, which is not
    among the sources: the whitespace a term may start after, a space or one
    of the characters 9..13. *)
Definition isspacechar (ch : Z) : bool :=
  (ch =? SPACE) || ((9 <=? ch) && (ch <=? 13)).

(** ** Classifications

    The SCE_MARKDOWN_ constants come from SciLexer.h, which is not among the
    sources.  Section 3 of the specification fixes their ordinal order, the
    one thing the scanner relies on (line 204); they are numbered here in
    that order. *)

(** Modelled from the spec: SCE_MARKDOWN_DEFAULT of SciLexer.h, number 0
    in the order of section 3. *)
Definition SCE_MARKDOWN_DEFAULT : Z := 0.

(** Modelled from the spec: SCE_MARKDOWN_LINE_BEGIN of SciLexer.h, number 1
    in the order of section 3. *)
Definition SCE_MARKDOWN_LINE_BEGIN : Z := 1.

(** Modelled from the spec: SCE_MARKDOWN_STRONG1 of SciLexer.h, number 2
    in the order of section 3. *)
Definition SCE_MARKDOWN_STRONG1 : Z := 2.

(** Modelled from the spec: SCE_MARKDOWN_STRONG2 of SciLexer.h, number 3
    in the order of section 3. *)
Definition SCE_MARKDOWN_STRONG2 : Z := 3.

(** Modelled from the spec: SCE_MARKDOWN_STRIKEOUT of SciLexer.h, number 4
    in the order of section 3. *)
Definition SCE_MARKDOWN_STRIKEOUT : Z := 4.

(** Modelled from the spec: SCE_MARKDOWN_CODE of SciLexer.h, number 5
    in the order of section 3. *)
Definition SCE_MARKDOWN_CODE : Z := 5.

(** Modelled from the spec: SCE_MARKDOWN_CODE2 of SciLexer.h, number 6
    in the order of section 3. *)
Definition SCE_MARKDOWN_CODE2 : Z := 6.

(** Modelled from the spec: SCE_MARKDOWN_CODEBK of SciLexer.h, number 7
    in the order of section 3. *)
Definition SCE_MARKDOWN_CODEBK : Z := 7.

(** Modelled from the spec: SCE_MARKDOWN_HEADER1 of SciLexer.h, number 8
    in the order of section 3. *)
Definition SCE_MARKDOWN_HEADER1 : Z := 8.

(** Modelled from the spec: SCE_MARKDOWN_HEADER2 of SciLexer.h, number 9
    in the order of section 3. *)
Definition SCE_MARKDOWN_HEADER2 : Z := 9.

(** Modelled from the spec: SCE_MARKDOWN_HEADER3 of SciLexer.h, number 10
    in the order of section 3. *)
Definition SCE_MARKDOWN_HEADER3 : Z := 10.

(** Modelled from the spec: SCE_MARKDOWN_HEADER4 of SciLexer.h, number 11
    in the order of section 3. *)
Definition SCE_MARKDOWN_HEADER4 : Z := 11.

(** Modelled from the spec: SCE_MARKDOWN_HEADER5 of SciLexer.h, number 12
    in the order of section 3. *)
Definition SCE_MARKDOWN_HEADER5 : Z := 12.

(** Modelled from the spec: SCE_MARKDOWN_HEADER6 of SciLexer.h, number 13
    in the order of section 3. *)
Definition SCE_MARKDOWN_HEADER6 : Z := 13.

(** Modelled from the spec: SCE_MARKDOWN_HRULE of SciLexer.h, number 14
    in the order of section 3. *)
Definition SCE_MARKDOWN_HRULE : Z := 14.

(** Modelled from the spec: SCE_MARKDOWN_BLOCKQUOTE of SciLexer.h, number 15
    in the order of section 3. *)
Definition SCE_MARKDOWN_BLOCKQUOTE : Z := 15.

(** Modelled from the spec: SCE_MARKDOWN_PRECHAR of SciLexer.h, number 16
    in the order of section 3. *)
Definition SCE_MARKDOWN_PRECHAR : Z := 16.

(** Modelled from the spec: SCE_MARKDOWN_LINK of SciLexer.h, number 17
    in the order of section 3. *)
Definition SCE_MARKDOWN_LINK : Z := 17.

(** The enumerated set of classifications. *)
Definition classifications : list Z :=
  [ SCE_MARKDOWN_DEFAULT; SCE_MARKDOWN_LINE_BEGIN; SCE_MARKDOWN_STRONG1;
    SCE_MARKDOWN_STRONG2; SCE_MARKDOWN_STRIKEOUT; SCE_MARKDOWN_CODE;
    SCE_MARKDOWN_CODE2; SCE_MARKDOWN_CODEBK; SCE_MARKDOWN_HEADER1;
    SCE_MARKDOWN_HEADER2; SCE_MARKDOWN_HEADER3; SCE_MARKDOWN_HEADER4;
    SCE_MARKDOWN_HEADER5; SCE_MARKDOWN_HEADER6; SCE_MARKDOWN_HRULE;
    SCE_MARKDOWN_BLOCKQUOTE; SCE_MARKDOWN_PRECHAR; SCE_MARKDOWN_LINK ].

(** ** The document buffer

    Accessor.h and LexAccessor.h are not among the sources; the buffer is
    modelled from section 6 of the specification: random-access character
    reads, line-start and line-number queries, per-position stored
    classifications and the span-closing write. *)

(** Modelled from the spec: the document of the buffer abstraction, an
    indexable sequence of characters. *)
Definition Document := list Z.

(** Modelled from the spec: [Length] of the accessor, the number of
    characters of the document. *)
Definition Length (doc : Document) : Z := Z.of_nat (List.length doc).

(** Modelled from the spec: [SafeGetCharAt] of the accessor, the character
    read by absolute offset, a default outside the document. *)
Definition SafeGetCharAt (doc : Document) (position chDefault : Z) : Z :=
  if (position <? 0) || (Length doc <=? position) then chDefault
  else nth (Z.to_nat position) doc chDefault.

(** Modelled from the spec: the line table of the buffer, here the offsets
    at which the lines after the first begin, a line ending at LF, at CR LF
    or at a lone CR. *)
Fixpoint lineStartsFrom (pos : Z) (l : list Z) : list Z :=
  match l with
  | [] => []
  | c :: t =>
      if c =? LF then (pos + 1) :: lineStartsFrom (pos + 1) t
      else if c =? CR then
        match t with
        | c' :: _ => if c' =? LF then lineStartsFrom (pos + 1) t
                     else (pos + 1) :: lineStartsFrom (pos + 1) t
        | [] => (pos + 1) :: lineStartsFrom (pos + 1) t
        end
      else lineStartsFrom (pos + 1) t
  end.

(** Modelled from the spec: the line table, the first line starting at
    offset 0. *)
Definition lineStarts (doc : Document) : list Z := 0 :: lineStartsFrom 0 doc.

(** Modelled from the spec: the number of lines of the buffer. *)
Definition Lines (doc : Document) : Z :=
  Z.of_nat (List.length (lineStarts doc)).

(** Modelled from the spec: [LineStart] of the accessor, the line-start
    offset of a line: 0 before the first line, the length of the document
    after the last. *)
Definition LineStart (doc : Document) (line : Z) : Z :=
  if line <? 0 then 0
  else if Lines doc <=? line then Length doc
  else nth (Z.to_nat line) (lineStarts doc) 0.

(** Modelled from the spec: [GetLine] of the accessor, the line-number
    lookup: the last line that starts at or before [pos]. *)
Definition GetLine (doc : Document) (pos : Z) : Z :=
  Z.max 0
    (Z.of_nat (List.length (filter (fun s => s <=? pos) (lineStarts doc)))
     - 1).

(** Modelled from the spec: the per-position classification storage of the
    buffer. *)
Definition Styles := list Z.

(** Modelled from the spec: [StyleAt] of the accessor, the stored
    classification lookup, 0 outside the storage. *)
Definition StyleAt (styles : Styles) (pos : Z) : Z :=
  if pos <? 0 then 0 else nth (Z.to_nat pos) styles 0.

(** Modelled from the spec: a pair of the style span stream of section 3:
    every position since the previous boundary, up to and including the
    first component, carries the second. *)
Definition Span := (Z * Z)%type.

(** Modelled from the spec: the writing side of the accessor: where the
    open segment starts and the spans closed so far, oldest first. *)
Record Styler := mkStyler {
  startSeg : Z;
  spans : list Span
}.

(** Modelled from the spec: [ColourTo] of the accessor, the span-closing
    write: an empty range only moves the boundary; a range that would end
    before the open segment is refused (the assertion of the accessor); any
    other range is closed as a span. *)
Definition ColourTo (pos chAttr : Z) (st : Styler) : Styler :=
  if pos =? startSeg st - 1 then mkStyler (pos + 1) (spans st)
  else if pos <? startSeg st then st
  else mkStyler (pos + 1) (spans st ++ [(pos, chAttr)]).

(** ** The scan cursor

    StyleContext.h is not among the sources; the cursor is modelled from
    section 2 of the specification: a forward-only position with the
    current, next and previous character, line-start detection, relative
    reads in both directions, and the closing of a span when the
    classification changes. *)

(** Modelled from the spec: the scan cursor, StyleContext: the end of the
    range, the length and the last line of the document, the position, its
    line and the start of the next one, the line-start and line-end flags,
    the classification, the previous, current and next character, and the
    writing side of the accessor. *)
Record StyleContext := mkSC {
  sc_endPos : Z;
  lengthDocument : Z;
  lineDocEnd : Z;
  currentPos : Z;
  currentLine : Z;
  lineStartNext : Z;
  atLineStart : bool;
  atLineEnd : bool;
  state : Z;
  chPrev : Z;
  ch : Z;
  chNext : Z;
  styler : Styler
}.

(** Assignment of the classification of the cursor. *)
Definition set_state (s : Z) (sc : StyleContext) : StyleContext :=
  mkSC (sc_endPos sc) (lengthDocument sc) (lineDocEnd sc) (currentPos sc)
       (currentLine sc) (lineStartNext sc) (atLineStart sc) (atLineEnd sc)
       s (chPrev sc) (ch sc) (chNext sc) (styler sc).

(** Assignment of the writing side of the cursor. *)
Definition set_styler (st : Styler) (sc : StyleContext) : StyleContext :=
  mkSC (sc_endPos sc) (lengthDocument sc) (lineDocEnd sc) (currentPos sc)
       (currentLine sc) (lineStartNext sc) (atLineStart sc) (atLineEnd sc)
       (state sc) (chPrev sc) (ch sc) (chNext sc) st.

Section Cursor.

Variable doc : Document.

(** Modelled from the spec: the line-end detection of the cursor, from the
    line table: the last position of a line, and on the last line the end of
    the document. *)
Definition lineEndAt (line next pos docEnd : Z) : bool :=
  if line <? docEnd then next - 1 <=? pos else next <=? pos.

(** Modelled from the spec: the constructor of the cursor: the cursor on
    [startPos], the range end moved one past the document when the range
    reaches the end of the document. *)
Definition newStyleContext (startPos length initStyle : Z) : StyleContext :=
  let endPos := startPos + length in
  let lenDoc := Length doc in
  let line := GetLine doc startPos in
  let next := LineStart doc (line + 1) in
  let docEnd := GetLine doc lenDoc in
  mkSC (if endPos =? lenDoc then endPos + 1 else endPos)
       lenDoc docEnd startPos line next
       (LineStart doc line =? startPos)
       (lineEndAt line next startPos docEnd)
       initStyle 0
       (SafeGetCharAt doc startPos 0)
       (SafeGetCharAt doc (startPos + 1) 0)
       (mkStyler startPos []).

(** Modelled from the spec: [More] of the cursor: the end of the range is
    not reached. *)
Definition More (sc : StyleContext) : bool := currentPos sc <? sc_endPos sc.

(** Modelled from the spec: [Forward()] of the cursor: one character on
    while inside the range; at the range end the cursor stays and the
    characters read as spaces. *)
Definition Forward (sc : StyleContext) : StyleContext :=
  if currentPos sc <? sc_endPos sc then
    let line := if atLineEnd sc then currentLine sc + 1 else currentLine sc in
    let next := if atLineEnd sc then LineStart doc (line + 1)
                else lineStartNext sc in
    let pos := currentPos sc + 1 in
    mkSC (sc_endPos sc) (lengthDocument sc) (lineDocEnd sc) pos line next
         (atLineEnd sc)
         (lineEndAt line next pos (lineDocEnd sc))
         (state sc) (ch sc) (chNext sc)
         (SafeGetCharAt doc (pos + 1) 0)
         (styler sc)
  else
    mkSC (sc_endPos sc) (lengthDocument sc) (lineDocEnd sc) (currentPos sc)
         (currentLine sc) (lineStartNext sc) false true
         (state sc) SPACE SPACE SPACE (styler sc).

(** Modelled from the spec: [Forward(nb)] of the cursor: [nb] times
    [Forward()], none for [nb <= 0]. *)
Definition ForwardN (nb : Z) (sc : StyleContext) : StyleContext :=
  Nat.iter (Z.to_nat nb) Forward sc.

(** Modelled from the spec: [ChangeState] of the cursor: the classification
    of the open span is replaced, nothing is closed. *)
Definition ChangeState (s : Z) (sc : StyleContext) : StyleContext :=
  set_state s sc.

(** Modelled from the spec: the offset a span closed at the cursor ends on,
    the character before the cursor. *)
Definition closeAt (sc : StyleContext) : Z :=
  currentPos sc - (if lengthDocument sc <? currentPos sc then 2 else 1).

(** Modelled from the spec: [SetState] of the cursor: the open span is
    closed before the cursor under the current classification, and the new
    classification opens. *)
Definition SetState (s : Z) (sc : StyleContext) : StyleContext :=
  set_state s (set_styler (ColourTo (closeAt sc) (state sc) (styler sc)) sc).

(** Modelled from the spec: [ForwardSetState] of the cursor: [Forward()]
    then [SetState]. *)
Definition ForwardSetState (s : Z) (sc : StyleContext) : StyleContext :=
  SetState s (Forward sc).

(** Modelled from the spec: [Complete] of the cursor: the open span is
    closed at the end of the scan. *)
Definition Complete (sc : StyleContext) : StyleContext :=
  set_styler (ColourTo (closeAt sc) (state sc) (styler sc)) sc.

(** Modelled from the spec: [GetRelative] of the cursor: the character read
    by signed offset from the cursor. *)
Definition GetRelative (sc : StyleContext) (n : Z) : Z :=
  SafeGetCharAt doc (currentPos sc + n) 0.

(** Modelled from the spec: the tail of [Match] on a string, read from the
    document. *)
Fixpoint matchFrom (sc : StyleContext) (n : Z) (s : list Z) : bool :=
  match s with
  | [] => true
  | c :: t => (c =? GetRelative sc n) && matchFrom sc (n + 1) t
  end.

(** Modelled from the spec: [Match] of the cursor on a string: the current
    and the next character from the fields of the cursor, the rest from the
    document. *)
Definition Match (s : list Z) (sc : StyleContext) : bool :=
  match s with
  | [] => ch sc =? 0
  | c0 :: [] => ch sc =? c0
  | c0 :: c1 :: t => (ch sc =? c0) && (chNext sc =? c1) && matchFrom sc 2 t
  end.

End Cursor.

(** ** Logged reads

    The lookahead predicates read the document through [GetRelative] only.
    They are written in a writer monad that logs the absolute offset of every
    such read, in the order the C++ code performs them (the operands of [&&]
    and [||] left to right, the right one only when the left one does not
    decide). *)
Definition Rd (A : Type) : Type := (A * list Z)%type.

Definition ret {A : Type} (a : A) : Rd A := (a, []).

Definition bind {A B : Type} (m : Rd A) (k : A -> Rd B) : Rd B :=
  let r := k (fst m) in (fst r, snd m ++ snd r).

Notation "x <- m ;; k" := (bind m (fun x => k))
  (at level 61, m at next level, right associativity).

Definition result {A : Type} (m : Rd A) : A := fst m.
Definition reads {A : Type} (m : Rd A) : list Z := snd m.

(** [while (cond) s = body s], run for at most [fuel] tests of [cond]. *)
Fixpoint whileR {S : Type} (fuel : nat) (cond : S -> Rd bool) (body : S -> S)
  (s : S) : Rd S :=
  match fuel with
  | O => ret s
  | Datatypes.S n =>
      b <- cond s ;;
      if b then whileR n cond body (body s) else ret s
  end.

Section Lexer.

Variable doc : Document.

Definition GetRelativeR (sc : StyleContext) (n : Z) : Rd Z :=
  (GetRelative doc sc n, [currentPos sc + n]).

(** Every loop of the predicates either moves over characters of the
    document or is bounded by the cursor or by the end offset, so this many
    tests let each of them leave by its own condition. *)
Definition loopFuel (endPos : Z) (sc : StyleContext) : nat :=
  S (List.length doc + Z.to_nat endPos + Z.to_nat (currentPos sc)).

(** *** FollowToLineEnd, lines 61-75 *)

(** [while (sc.GetRelative(++i) == ch) ;] entered with [i] already
    incremented. *)
Definition skipRun (fuel : nat) (c : Z) (sc : StyleContext) : Rd Z :=
  whileR fuel (fun i => x <- GetRelativeR sc i ;; ret (x =? c)) Z.succ 1.

(** [while (IsASpaceOrTab(sc.GetRelative(i)) && sc.currentPos + i < endPos)
    ++i;] *)
Definition skipBlanks (fuel : nat) (endPos : Z) (sc : StyleContext) (i : Z)
  : Rd Z :=
  whileR fuel
    (fun i => x <- GetRelativeR sc i ;;
              ret (IsASpaceOrTab x && (currentPos sc + i <? endPos)))
    Z.succ i.

Definition FollowToLineEnd (c st endPos : Z) (sc : StyleContext)
  : Rd (bool * StyleContext) :=
  let fuel := loopFuel endPos sc in
  i <- skipRun fuel c sc ;;
  i <- skipBlanks fuel endPos sc i ;;
  x <- GetRelativeR sc i ;;
  if IsNewline x || (currentPos sc + i =? endPos) then
    ret (true, SetState SCE_MARKDOWN_LINE_BEGIN
                 (ChangeState st (ForwardN doc i sc)))
  else ret (false, sc).

(** *** HasPrevLineContent, lines 78-98 *)

(** The second loop, entered with [i] already decremented. *)
Fixpoint prevLineScan (fuel : nat) (sc : StyleContext) (i : Z) : Rd bool :=
  match fuel with
  | O => ret false
  | S n =>
      if 0 <=? i + currentPos sc then
        x <- GetRelativeR sc i ;;
        if IsNewline x then ret false
        else
          y <- GetRelativeR sc i ;;
          if negb (IsASpaceOrTab y) then ret true
          else prevLineScan n sc (i - 1)
      else ret false
  end.

(** The loop both backward predicates start with: back to the previous
    newline, entered with [i] already decremented. *)
Definition backToNewline (fuel : nat) (sc : StyleContext) : Rd Z :=
  whileR fuel
    (fun i => if 0 <=? i + currentPos sc
              then x <- GetRelativeR sc i ;; ret (negb (IsNewline x))
              else ret false)
    Z.pred (-1).

Definition HasPrevLineContent (sc : StyleContext) : Rd bool :=
  let fuel := loopFuel 0 sc in
  i <- backToNewline fuel sc ;;
  x <- GetRelativeR sc i ;;
  prevCh <- GetRelativeR sc (i - 1) ;;
  let i := if (prevCh =? CR) && (x =? LF) then i - 1 else i in
  prevLineScan fuel sc (i - 1).

(** *** IsPrevLineEmpty, lines 101-117 *)
Definition IsPrevLineEmpty (sc : StyleContext) : Rd bool :=
  let fuel := loopFuel 0 sc in
  i <- backToNewline fuel sc ;;
  x <- GetRelativeR sc i ;;
  prevCh <- GetRelativeR sc (i - 1) ;;
  let i := if (prevCh =? CR) && (x =? LF) then i - 2
           else if (x =? CR) || (x =? LF) then i - 1
           else i in
  y <- GetRelativeR sc i ;;
  ret (IsNewline y || (currentPos sc + i <=? 0)).

(** *** AtTermStart, lines 119-121 *)
Definition AtTermStart (sc : StyleContext) : bool :=
  (currentPos sc =? 0) || (chPrev sc =? 0) || isspacechar (chPrev sc).

(** *** IsValidHrule, lines 123-147 *)
Fixpoint hruleLoop (fuel : nat) (endPos : Z) (sc : StyleContext)
  (i count : Z) : Rd (bool * StyleContext) :=
  match fuel with
  | O => ret (false, sc)
  | S n =>
      let i := i + 1 in
      c <- GetRelativeR sc i ;;
      if c =? ch sc then hruleLoop n endPos sc i (count + 1)
      else if negb (IsASpaceOrTab c) || (currentPos sc + i =? endPos) then
        if (IsNewline c || (currentPos sc + i =? endPos)) && (3 <=? count)
        then
          h <- HasPrevLineContent sc ;;
          if negb h then
            ret (true, SetState SCE_MARKDOWN_LINE_BEGIN
                         (ForwardN doc i (SetState SCE_MARKDOWN_HRULE sc)))
          else ret (false, SetState SCE_MARKDOWN_DEFAULT sc)
        else ret (false, SetState SCE_MARKDOWN_DEFAULT sc)
      else hruleLoop n endPos sc i count
  end.

Definition IsValidHrule (endPos : Z) (sc : StyleContext)
  : Rd (bool * StyleContext) :=
  hruleLoop (loopFuel endPos sc) endPos sc 0 1.

(** *** IsUnderlinedHeader, lines 150-182 *)

(** The first loop: to the end of the current line, noting content. *)
Fixpoint firstLineScan (fuel : nat) (endPos : Z) (sc : StyleContext)
  (i : Z) (firstLineHasContent : bool) : Rd (Z * bool) :=
  match fuel with
  | O => ret (i, firstLineHasContent)
  | S n =>
      if currentPos sc + i <? endPos then
        x <- GetRelativeR sc i ;;
        if negb (IsNewline x) then
          firstLineScan n endPos sc (i + 1)
            (if negb (IsASpaceOrTab x) then true else firstLineHasContent)
        else ret (i, firstLineHasContent)
      else ret (i, firstLineHasContent)
  end.

(** [while (sc.currentPos + i < endPos && sc.GetRelative(i) == hdrCh) ++i;] *)
Definition underlineRun (fuel : nat) (hdrCh endPos : Z) (sc : StyleContext)
  (i : Z) : Rd Z :=
  whileR fuel
    (fun i => if currentPos sc + i <? endPos
              then z <- GetRelativeR sc i ;; ret (z =? hdrCh)
              else ret false)
    Z.succ i.

(** [while (sc.currentPos + i < endPos && IsASpaceOrTab(sc.GetRelative(i)))
    ++i;] *)
Definition underlineBlanks (fuel : nat) (endPos : Z) (sc : StyleContext)
  (i : Z) : Rd Z :=
  whileR fuel
    (fun i => if currentPos sc + i <? endPos
              then z <- GetRelativeR sc i ;; ret (IsASpaceOrTab z)
              else ret false)
    Z.succ i.

Definition IsUnderlinedHeader (hdrCh endPos : Z) (sc : StyleContext)
  : Rd bool :=
  let fuel := loopFuel endPos sc in
  r <- firstLineScan fuel endPos sc 0 false ;;
  let i := fst r in
  x <- GetRelativeR sc i ;;
  if negb (snd r) || negb (IsNewline x) then ret false
  else
    nextCh <- GetRelativeR sc (i + 1) ;;
    let i := i + (if (x =? CR) && (nextCh =? LF) then 2 else 1) in
    y <- GetRelativeR sc i ;;
    if negb (y =? hdrCh) then ret false
    else
      i <- underlineRun fuel hdrCh endPos sc i ;;
      i <- underlineBlanks fuel endPos sc i ;;
      z <- GetRelativeR sc i ;;
      ret (IsNewline z || (currentPos sc + i =? endPos)).

(** The loop of the tilde rule, lines 269-271:
    [while (!IsNewline(sc.GetRelative(i)) && sc.currentPos + i < endPos)
    i++;] *)
Definition toLineEnd (fuel : nat) (endPos : Z) (sc : StyleContext) : Rd Z :=
  whileR fuel
    (fun i => x <- GetRelativeR sc i ;;
              ret (negb (IsNewline x) && (currentPos sc + i <? endPos)))
    Z.succ 1.

End Lexer.

(** ** The dispatch core: ColorizeMarkdownDoc, lines 184-472 *)

(** The cursor and the locals of one scan call. *)
Record ScanState := mkScan {
  cursor : StyleContext;
  precharCount : Z;
  isLinkNameDetecting : bool;
  freezeCursor : bool
}.

Definition with_cursor (sc : StyleContext) (s : ScanState) : ScanState :=
  mkScan sc (precharCount s) (isLinkNameDetecting s) (freezeCursor s).

Section Dispatch.

Variable doc : Document.
Variable endPos : Z.

Notation "'on' s 'do' f" := (with_cursor (f (cursor s)) s)
  (at level 10, s at level 9, f at level 9).

(** The closing test of a code block, lines 233-239. *)
Definition fourSpaces (sc : StyleContext) : bool :=
  fold_left (fun d i => if negb (GetRelative doc sc i =? SPACE) then false
                        else d)
            [0; 1; 2; 3] true.

(** The rules of LINE_BEGIN, lines 282-338. *)
Definition lineBeginRules (s : ScanState) : ScanState :=
  let sc := cursor s in
  if Match doc (bytes "######") sc then on s do (SetState SCE_MARKDOWN_HEADER6)
  else if Match doc (bytes "#####") sc then
    on s do (SetState SCE_MARKDOWN_HEADER5)
  else if Match doc (bytes "####") sc then
    on s do (SetState SCE_MARKDOWN_HEADER4)
  else if Match doc (bytes "###") sc then
    on s do (SetState SCE_MARKDOWN_HEADER3)
  else if Match doc (bytes "##") sc then
    on s do (SetState SCE_MARKDOWN_HEADER2)
  else if Match doc (bytes "#") sc then
    on s do (SetState SCE_MARKDOWN_HEADER1)
  else if Match doc (bytes "~~~") sc then
    if negb (result (HasPrevLineContent doc sc))
    then on s do (SetState SCE_MARKDOWN_CODEBK)
    else on s do (SetState SCE_MARKDOWN_DEFAULT)
  else if result (IsUnderlinedHeader doc (chr "=") endPos sc) then
    on s do (SetState SCE_MARKDOWN_HEADER1)
  else if ch sc =? chr "=" then
    if result (HasPrevLineContent doc sc) then
      let r := result (FollowToLineEnd doc (chr "=") SCE_MARKDOWN_HEADER1
                         endPos sc) in
      if fst r then with_cursor (snd r) s
      else with_cursor (SetState SCE_MARKDOWN_DEFAULT (snd r)) s
    else on s do (SetState SCE_MARKDOWN_DEFAULT)
  else if result (IsUnderlinedHeader doc (chr "-") endPos sc) then
    on s do (SetState SCE_MARKDOWN_HEADER2)
  else if ch sc =? chr "-" then
    if result (HasPrevLineContent doc sc) then
      let r := result (FollowToLineEnd doc (chr "-") SCE_MARKDOWN_HEADER2
                         endPos sc) in
      if fst r then with_cursor (snd r) s
      else mkScan (SetState SCE_MARKDOWN_PRECHAR (snd r)) 0
                  (isLinkNameDetecting s) (freezeCursor s)
    else mkScan (SetState SCE_MARKDOWN_PRECHAR sc) 0
                (isLinkNameDetecting s) (freezeCursor s)
  else if IsNewline (ch sc) then on s do (SetState SCE_MARKDOWN_LINE_BEGIN)
  else mkScan (SetState SCE_MARKDOWN_PRECHAR sc) 0
              (isLinkNameDetecting s) (freezeCursor s).

(** The conditional state-based actions, lines 220-346: one chain of
    alternatives, the first whose classification matches is taken. *)
Definition stateRules (s : ScanState) : ScanState :=
  let sc := cursor s in
  if state sc =? SCE_MARKDOWN_CODE2 then
    if Match doc (bytes "```") sc
    then with_cursor (SetState SCE_MARKDOWN_DEFAULT (ForwardN doc 3 sc)) s
    else s
  else if state sc =? SCE_MARKDOWN_CODE then
    if (ch sc =? chr "`") && negb (chPrev sc =? SPACE)
    then on s do (ForwardSetState doc SCE_MARKDOWN_DEFAULT)
    else s
  else if state sc =? SCE_MARKDOWN_CODEBK then
    let d := if atLineStart sc && negb (ch sc =? TAB) then fourSpaces sc
             else true in
    if negb d then on s do (SetState SCE_MARKDOWN_LINE_BEGIN) else s
  else if state sc =? SCE_MARKDOWN_STRONG1 then
    if Match doc (bytes "**") sc && negb (chPrev sc =? SPACE)
    then with_cursor (SetState SCE_MARKDOWN_DEFAULT (ForwardN doc 2 sc)) s
    else s
  else if state sc =? SCE_MARKDOWN_STRONG2 then
    if Match doc (bytes "__") sc && negb (chPrev sc =? SPACE)
    then with_cursor (SetState SCE_MARKDOWN_DEFAULT (ForwardN doc 2 sc)) s
    else s
  else if state sc =? SCE_MARKDOWN_CODEBK then
    if atLineStart sc && Match doc (bytes "~~~") sc then
      let i := result (toLineEnd doc (loopFuel doc endPos sc) endPos sc) in
      with_cursor (SetState SCE_MARKDOWN_DEFAULT (ForwardN doc i sc)) s
    else s
  else if state sc =? SCE_MARKDOWN_STRIKEOUT then
    if Match doc (bytes "~~") sc && negb (chPrev sc =? SPACE)
    then with_cursor (SetState SCE_MARKDOWN_DEFAULT (ForwardN doc 2 sc)) s
    else s
  else if state sc =? SCE_MARKDOWN_LINE_BEGIN then lineBeginRules s
  else if (state sc =? SCE_MARKDOWN_HEADER1)
          || (state sc =? SCE_MARKDOWN_HEADER2)
          || (state sc =? SCE_MARKDOWN_HEADER3)
          || (state sc =? SCE_MARKDOWN_HEADER4)
          || (state sc =? SCE_MARKDOWN_HEADER5)
          || (state sc =? SCE_MARKDOWN_HEADER6) then
    if IsNewline (ch sc) then on s do (SetState SCE_MARKDOWN_LINE_BEGIN)
    else s
  else s.

(** New state only within the initial whitespace, lines 349-389. *)
Definition precharRules (s : ScanState) : ScanState :=
  let sc := cursor s in
  if state sc =? SCE_MARKDOWN_PRECHAR then
    if (ch sc =? chr ">") && (precharCount s <? 5) then
      on s do (SetState SCE_MARKDOWN_BLOCKQUOTE)
    else if result (IsPrevLineEmpty doc sc)
            && ((chPrev sc =? TAB) || (4 <=? precharCount s)) then
      on s do (SetState SCE_MARKDOWN_CODEBK)
    else
      (* the call of IsValidHrule is made only for a marker character; a
         failed call has already set DEFAULT and the chain goes on *)
      let marker := (ch sc =? chr "-") || (ch sc =? chr "*")
                    || (ch sc =? chr "_") in
      let r := if marker then result (IsValidHrule doc endPos sc)
               else (false, sc) in
      if fst r then with_cursor (snd r) s
      else
        let sc := snd r in
        if negb (ch sc =? SPACE) then
          with_cursor (SetState SCE_MARKDOWN_DEFAULT sc) s
        else mkScan sc (precharCount s + 1) (isLinkNameDetecting s)
                    (freezeCursor s)
  else s.

(** Any link, lines 392-410. *)
Definition linkRules (s : ScanState) : ScanState :=
  let sc := cursor s in
  let unescaped := negb (GetRelative doc sc (-1) =? BACKSLASH) in
  if state sc =? SCE_MARKDOWN_LINK then
    if Match doc (bytes "](") sc && unescaped then
      mkScan (ForwardN doc 2 sc) (precharCount s) true (freezeCursor s)
    else if Match doc (bytes "]:") sc && unescaped then
      with_cursor (SetState SCE_MARKDOWN_DEFAULT (ForwardN doc 2 sc)) s
    else if negb (isLinkNameDetecting s) && (ch sc =? chr "]") && unescaped
    then with_cursor (SetState SCE_MARKDOWN_DEFAULT (Forward doc sc)) s
    else if isLinkNameDetecting s && (ch sc =? chr ")") && unescaped then
      mkScan (SetState SCE_MARKDOWN_DEFAULT (Forward doc sc))
             (precharCount s) false (freezeCursor s)
    else s
  else s.

(** New state anywhere in the document, lines 413-465. *)
Definition defaultRules (s : ScanState) : ScanState :=
  let sc := cursor s in
  if state sc =? SCE_MARKDOWN_DEFAULT then
    if atLineStart sc
       && ((ch sc =? chr "#")
           || result (IsUnderlinedHeader doc (chr "=") endPos sc)
           || result (IsUnderlinedHeader doc (chr "-") endPos sc)) then
      mkScan (SetState SCE_MARKDOWN_LINE_BEGIN sc) (precharCount s)
             (isLinkNameDetecting s) true
    else if Match doc (bytes "```") sc && AtTermStart sc then
      with_cursor (Forward doc (SetState SCE_MARKDOWN_CODE2 sc)) s
    else if (ch sc =? chr "`") && negb (chNext sc =? SPACE)
            && AtTermStart sc then
      on s do (SetState SCE_MARKDOWN_CODE)
    else if Match doc (bytes "**") sc
            && negb (GetRelative doc sc 2 =? SPACE) && AtTermStart sc then
      with_cursor (Forward doc (SetState SCE_MARKDOWN_STRONG1 sc)) s
    else if Match doc (bytes "__") sc
            && negb (GetRelative doc sc 2 =? SPACE) && AtTermStart sc then
      with_cursor (Forward doc (SetState SCE_MARKDOWN_STRONG2 sc)) s
    else if Match doc (bytes "~~") sc
            && negb (GetRelative doc sc 2 =? SPACE) && AtTermStart sc then
      with_cursor (Forward doc (SetState SCE_MARKDOWN_STRIKEOUT sc)) s
    else if IsNewline (ch sc) then on s do (SetState SCE_MARKDOWN_LINE_BEGIN)
    else s
  else s.

(** Advance if not holding back the cursor, lines 467-469. *)
Definition advance (s : ScanState) : ScanState :=
  mkScan (if freezeCursor s then cursor s else Forward doc (cursor s))
         (precharCount s) (isLinkNameDetecting s) false.

(** A blockquote resets the line semantics, lines 217-218. *)
Definition blockquoteRule (s : ScanState) : ScanState :=
  if state (cursor s) =? SCE_MARKDOWN_BLOCKQUOTE
  then on s do (SetState SCE_MARKDOWN_LINE_BEGIN)
  else s.

(** One iteration of the loop, lines 210-469. *)
Definition loopBody (s : ScanState) : ScanState :=
  if ch (cursor s) =? BACKSLASH then on s do (Forward doc)
  else advance (defaultRules (linkRules (precharRules
         (stateRules (blockquoteRule s))))).

(** [n] iterations of [while (sc.More())]: the iterations stop for good once
    the cursor has reached the end of the range. *)
Fixpoint iterations (n : nat) (s : ScanState) : ScanState :=
  match n with
  | O => s
  | S k => if More (cursor s) then iterations k (loopBody s) else s
  end.

(** The loop with a bound on its iterations: [None] when the bound is
    reached before the cursor reaches the end of the range. *)
Fixpoint scanLoop (fuel : nat) (s : ScanState) : option ScanState :=
  match fuel with
  | O => None
  | S k => if More (cursor s) then scanLoop k (loopBody s) else Some s
  end.

End Dispatch.

(** What a scan call hands back: the offset the first span starts from and
    the spans in the order they were closed. *)
Record ScanResult := mkResult {
  scanStart : Z;
  scanSpans : list Span
}.

(** The prologue, lines 186-207: the scan starts from the previous line and
    from the classification stored there, and a classification beyond CODEBK
    is not resumed. *)
Definition resumePos (doc : Document) (startPos : Z) : Z :=
  if 0 <? startPos then LineStart doc (GetLine doc startPos - 1)
  else startPos.

Definition resumeStyle (doc : Document) (styles : Styles)
  (startPos initStyle : Z) : Z :=
  let initStyle := if 0 <? startPos then StyleAt styles (resumePos doc startPos)
                   else initStyle in
  if SCE_MARKDOWN_CODEBK <? initStyle then SCE_MARKDOWN_DEFAULT
  else initStyle.

Definition initialScan (doc : Document) (styles : Styles)
  (startPos length initStyle : Z) : ScanState :=
  let newStartPos := resumePos doc startPos in
  mkScan (newStyleContext doc newStartPos (length + (startPos - newStartPos))
            (resumeStyle doc styles startPos initStyle))
         0 false false.

Definition ColorizeMarkdownDoc (fuel : nat) (doc : Document) (styles : Styles)
  (startPos length initStyle : Z) : option ScanResult :=
  let endPos := startPos + length in
  match scanLoop doc endPos fuel
          (initialScan doc styles startPos length initStyle) with
  | Some s => Some (mkResult (resumePos doc startPos)
                      (spans (styler (Complete (cursor s)))))
  | None => None
  end.

(** Modelled from the spec: the write of one span into the per-position
    storage of the buffer: the positions [from] to [upto] take [attr]. *)
Fixpoint setStyles (from upto attr : Z) (pos : Z) (styles : Styles) : Styles :=
  match styles with
  | [] => []
  | x :: t =>
      (if (from <=? pos) && (pos <=? upto) then attr else x)
        :: setStyles from upto attr (pos + 1) t
  end.

(** Modelled from the spec: the classifications a span stream leaves
    stored: each span overwrites the positions from the previous boundary up
    to its end. *)
Fixpoint persist (from : Z) (l : list Span) (styles : Styles) : Styles :=
  match l with
  | [] => styles
  | (upto, attr) :: t =>
      persist (upto + 1) t (setStyles from upto attr 0 styles)
  end.

(** The classifications stored after a scan call. *)
Definition stored (r : ScanResult) (styles : Styles) : Styles :=
  persist (scanStart r) (scanSpans r) styles.

(** A document never styled: DEFAULT everywhere. *)
Definition freshStyles (doc : Document) : Styles :=
  map (fun _ => SCE_MARKDOWN_DEFAULT) doc.

(** ** Auxiliary notions of the properties *)

(** The classifications the executable transitions set: all but LINK, whose
    entry rules (lines 421-429) are commented out. *)
Definition transitionTargets : list Z :=
  [ SCE_MARKDOWN_DEFAULT; SCE_MARKDOWN_LINE_BEGIN; SCE_MARKDOWN_STRONG1;
    SCE_MARKDOWN_STRONG2; SCE_MARKDOWN_STRIKEOUT; SCE_MARKDOWN_CODE;
    SCE_MARKDOWN_CODE2; SCE_MARKDOWN_CODEBK; SCE_MARKDOWN_HEADER1;
    SCE_MARKDOWN_HEADER2; SCE_MARKDOWN_HEADER3; SCE_MARKDOWN_HEADER4;
    SCE_MARKDOWN_HEADER5; SCE_MARKDOWN_HEADER6; SCE_MARKDOWN_HRULE;
    SCE_MARKDOWN_BLOCKQUOTE; SCE_MARKDOWN_PRECHAR ].

Definition isTarget (x : Z) : bool := existsb (Z.eqb x) transitionTargets.

Definition notLink (sc : StyleContext) : Prop :=
  state sc <> SCE_MARKDOWN_LINK.

(** The seven characters on which the scan does not return. *)
Definition hangDoc : Document := bytes "=a" ++ [LF] ++ bytes "---" ++ [LF].

Definition hangStart : ScanState :=
  initialScan hangDoc (freshStyles hangDoc) 0 7 SCE_MARKDOWN_DEFAULT.

(** A fenced block with an indented line. *)
Definition fencedDoc : Document :=
  [LF] ++ bytes "~~~" ++ [LF] ++ bytes "    x" ++ [LF] ++ bytes "~~~" ++ [LF]
       ++ bytes "y" ++ [LF].


(** A fence line followed by a line of text, and the two calls of a scan of
    it split at offset 6. *)
Definition splitDoc : Document :=
  [LF] ++ bytes "~~~" ++ [LF] ++ bytes "ab" ++ [LF].

Definition scanOrEmpty (o : option ScanResult) : ScanResult :=
  match o with Some r => r | None => mkResult 0 [] end.

Definition wholeScan : ScanResult :=
  scanOrEmpty (ColorizeMarkdownDoc 20 splitDoc (freshStyles splitDoc) 0 8
                 SCE_MARKDOWN_DEFAULT).

Definition firstCall : ScanResult :=
  scanOrEmpty (ColorizeMarkdownDoc 20 splitDoc (freshStyles splitDoc) 0 6
                 SCE_MARKDOWN_DEFAULT).

Definition secondCall : ScanResult :=
  let persisted := stored firstCall (freshStyles splitDoc) in
  scanOrEmpty (ColorizeMarkdownDoc 20 splitDoc persisted 6 2
                 (StyleAt persisted 6)).

(** A quoted header, at the start of the document and after an empty line,
    with and without a space after the marker. *)
Definition quoteDoc : Document := bytes "> # H" ++ [LF].
Definition quoteDoc' : Document := [LF] ++ bytes "> # H" ++ [LF].
Definition quoteDocTight : Document := [LF] ++ bytes ">#H" ++ [LF].

(** The scan of [quoteDocTight] after its first two iterations: the cursor
    is on the '#' and the classification is BLOCKQUOTE. *)
Definition afterMarker : ScanState :=
  iterations quoteDocTight 5 2
    (initialScan quoteDocTight (freshStyles quoteDocTight) 0 5
       SCE_MARKDOWN_DEFAULT).

(** A quote marker followed by a backslash, after its first two iterations:
    the cursor is on the backslash and the classification is BLOCKQUOTE. *)
Definition quoteEscDoc : Document := [LF] ++ bytes ">\x".

Definition afterMarkerEsc : ScanState :=
  iterations quoteEscDoc 4 2
    (initialScan quoteEscDoc (freshStyles quoteEscDoc) 0 4
       SCE_MARKDOWN_DEFAULT).

(** A code span with inside spacing followed by text, and a scan of it
    stopped with the cursor on the closing fence, at offset 6. *)
Definition spacedCodeDoc : Document := bytes "``` a ```x".

Definition atClosingFence : ScanState :=
  iterations spacedCodeDoc 10 5
    (initialScan spacedCodeDoc (freshStyles spacedCodeDoc) 0 10
       SCE_MARKDOWN_DEFAULT).

(** A code span of a single backtick, with the cursor on its closing
    backtick at offset 2. *)
Definition codeDoc : Document := bytes "`a`x".

Definition atClosingBacktick : ScanState :=
  iterations codeDoc 4 2
    (initialScan codeDoc (freshStyles codeDoc) 0 4 SCE_MARKDOWN_DEFAULT).

(** Cursors for the reads of the forward predicates: a title with its
    underline on the next line, scanned up to the end of the first line; an
    underline scanned up to its second character; a rule scanned up to its
    third character. *)
Definition titleDoc : Document := bytes "ab" ++ [LF] ++ bytes "==" ++ [LF].
Definition titleDoc' : Document := bytes "ab" ++ [LF] ++ bytes "x=" ++ [LF].
Definition underlineDoc : Document := bytes "a" ++ [LF] ++ bytes "==" ++ [LF].
Definition ruleDoc : Document := [LF] ++ bytes "---" ++ [LF].

(** A cursor on the second line of a document, for the backward
    predicates. *)
Definition secondLineCursor : StyleContext :=
  newStyleContext titleDoc 3 3 SCE_MARKDOWN_LINE_BEGIN.

(** ** The horizontal rule, in the words of the specification

    The characters the accessor answers at [n] offsets from [pos] on. *)
Fixpoint charsFrom (doc : Document) (pos : Z) (n : nat) : list Z :=
  match n with
  | O => []
  | S k => SafeGetCharAt doc pos 0 :: charsFrom doc (pos + 1) k
  end.

(** The characters between the cursor and the end offset. *)
Definition lineRest (doc : Document) (endPos : Z) (sc : StyleContext)
  : list Z :=
  charsFrom doc (currentPos sc + 1) (Z.to_nat (endPos - (currentPos sc + 1))).

(** A run of the marker with spaces and tabs interleaved reaches the end of
    the line or the end offset (the end of the list), at least three markers
    having been counted. *)
Fixpoint ruleRun (marker : Z) (l : list Z) (count : Z) : bool :=
  match l with
  | [] => 3 <=? count
  | c :: t =>
      if c =? marker then ruleRun marker t (count + 1)
      else if IsASpaceOrTab c then ruleRun marker t count
      else IsNewline c && (3 <=? count)
  end.

(** The length of that run. *)
Fixpoint runLength (marker : Z) (l : list Z) : Z :=
  match l with
  | [] => 0
  | c :: t => if (c =? marker) || IsASpaceOrTab c
              then 1 + runLength marker t else 0
  end.

(** The rule of the specification: the run counts three markers with the
    one under the cursor, and the previous line has no content. *)
Definition validHruleSpec (doc : Document) (endPos : Z) (sc : StyleContext)
  : bool :=
  ruleRun (ch sc) (lineRest doc endPos sc) 1
  && negb (result (HasPrevLineContent doc sc)).

(** A rule on the first line of a document, and a rule candidate after a
    space that is followed by text. *)
Definition firstLineRule : Document := bytes "---" ++ [LF].
Definition brokenRule : Document := [LF] ++ bytes " -x".

(** The scan of [brokenRule] with the cursor on the '-', in PRECHAR. *)
Definition atBrokenRule : ScanState :=
  iterations brokenRule 4 2
    (initialScan brokenRule (freshStyles brokenRule) 0 4 SCE_MARKDOWN_DEFAULT).

(** The scan of [ruleDoc] with the cursor on its first '-', in PRECHAR. *)
Definition atRule : StyleContext :=
  SetState SCE_MARKDOWN_PRECHAR
    (cursor (iterations ruleDoc 5 1
               (initialScan ruleDoc (freshStyles ruleDoc) 0 5
                  SCE_MARKDOWN_DEFAULT))).

(** ** Coverage

    The spans [l] tile the offsets from [from] up to [upto], excluded: each
    span starts where the previous one ended, none is empty, and the last
    one ends at [upto - 1]. *)
Fixpoint tiles (from : Z) (l : list Span) (upto : Z) : Prop :=
  match l with
  | [] => from = upto
  | (e, _) :: t => from <= e /\ tiles (e + 1) t upto
  end.

(** What every step of a scan started at [start] keeps: the closed spans
    tile the offsets up to the open segment, which starts at or before the
    cursor and inside the document, and the cursor is at or before the end
    of the range. *)
Definition Covering (start len rangeEnd : Z) (sc : StyleContext) : Prop :=
  tiles start (spans (styler sc)) (startSeg (styler sc)) /\
  startSeg (styler sc) <= currentPos sc /\
  startSeg (styler sc) <= len /\
  currentPos sc <= rangeEnd /\
  sc_endPos sc = rangeEnd /\
  lengthDocument sc = len /\
  rangeEnd <= len + 1.

(** The distance from the offset [i] of the cursor to the end of the
    document, the measure of the loops that move over its characters. *)
Definition distanceToDocEnd (doc : Document) (sc : StyleContext) (i : Z)
  : nat :=
  Z.to_nat (Length doc - Z.max 0 (currentPos sc + i)).

(** The cursor [sc] is not behind the cursor [sc0], and their range is the
    same. *)
Definition notBehindOf (sc0 sc : StyleContext) : Prop :=
  currentPos sc0 <= currentPos sc /\ sc_endPos sc = sc_endPos sc0.

(** ** Auxiliary notions of the further properties *)

(** The classifications of the inline spans that the rules of DEFAULT
    open. *)
Definition isInline (x : Z) : bool :=
  existsb (Z.eqb x)
    [ SCE_MARKDOWN_STRONG1; SCE_MARKDOWN_STRONG2; SCE_MARKDOWN_STRIKEOUT;
      SCE_MARKDOWN_CODE; SCE_MARKDOWN_CODE2 ].

(** The header classifications. *)
Definition isHeader (x : Z) : bool :=
  existsb (Z.eqb x)
    [ SCE_MARKDOWN_HEADER1; SCE_MARKDOWN_HEADER2; SCE_MARKDOWN_HEADER3;
      SCE_MARKDOWN_HEADER4; SCE_MARKDOWN_HEADER5; SCE_MARKDOWN_HEADER6 ].

(** The two-character marker that closes a span of strong or struck-out
    text. *)
Definition closingMarker (x : Z) : list Z :=
  if x =? SCE_MARKDOWN_STRONG1 then bytes "**"
  else if x =? SCE_MARKDOWN_STRONG2 then bytes "__"
  else bytes "~~".

(** The test that closes a code block at the cursor, lines 233-240. *)
Definition leavesCodeBlock (doc : Document) (sc : StyleContext) : bool :=
  atLineStart sc && negb (ch sc =? TAB) && negb (fourSpaces doc sc).

(** A header line, and the scan of it stopped on its newline at offset 3,
    in HEADER1. *)
Definition headerDoc : Document := bytes "# T" ++ [LF] ++ bytes "x".

Definition inHeader : ScanState :=
  iterations headerDoc 5 4
    (initialScan headerDoc (freshStyles headerDoc) 0 5 SCE_MARKDOWN_DEFAULT).

(** The scan of [fencedDoc] stopped at offset 11, on the closing fence, in
    CODEBK. *)
Definition atClosingTilde : ScanState :=
  iterations fencedDoc 17 11
    (initialScan fencedDoc (freshStyles fencedDoc) 0 17 SCE_MARKDOWN_DEFAULT).

(** Strong text, and the scan of it stopped on its closing marker at
    offset 3, in STRONG1. *)
Definition strongDoc : Document := bytes "**b**c".

Definition atClosingStrong : ScanState :=
  iterations strongDoc 6 2
    (initialScan strongDoc (freshStyles strongDoc) 0 6 SCE_MARKDOWN_DEFAULT).

(** Markers in the middle of a word, and the scan of them stopped on the
    first marker at offset 1, in DEFAULT. *)
Definition midWordDoc : Document := bytes "a**b**c".

Definition atMidWord : ScanState :=
  iterations midWordDoc 7 1
    (initialScan midWordDoc (freshStyles midWordDoc) 0 7 SCE_MARKDOWN_DEFAULT).

(** The scan of [underlineDoc] stopped on the first '=' of the underline,
    at offset 2, in LINE_BEGIN. *)
Definition atUnderline : StyleContext :=
  cursor (iterations underlineDoc 5 3
            (initialScan underlineDoc (freshStyles underlineDoc) 0 5
               SCE_MARKDOWN_DEFAULT)).

(** ** The previous line, read off the characters before the cursor *)

(** The characters before the cursor, the nearest first. *)
Definition before (doc : Document) (sc : StyleContext) : list Z :=
  rev (firstn (Z.to_nat (currentPos sc)) doc).

(** What is left of such a list from its first newline on: the end of the
    previous line and what precedes it. *)
Fixpoint toNewline (l : list Z) : list Z :=
  match l with
  | [] => []
  | x :: t => if IsNewline x then l else toNewline t
  end.

(** The characters before the end of the previous line, the line end being
    one newline character, or a LF with the CR before it. *)
Definition beforeLineEnd (l : list Z) : list Z :=
  match toNewline l with
  | [] => []
  | x :: t =>
      match t with
      | y :: r => if (y =? CR) && (x =? LF) then r else t
      | [] => []
      end
  end.

(** A line read backward from its end has a character other than a space
    or a tab before its start. *)
Fixpoint lineHasContent (l : list Z) : bool :=
  match l with
  | [] => false
  | x :: t =>
      if IsNewline x then false
      else if negb (IsASpaceOrTab x) then true
      else lineHasContent t
  end.

(** The previous line has content. *)
Definition prevLineContentSpec (doc : Document) (sc : StyleContext) : bool :=
  lineHasContent (beforeLineEnd (before doc sc)).

(** What IsPrevLineEmpty answers: there is no previous line, or nothing
    before its end, or the character before its end is a newline or the
    first character of the document. *)
Definition prevLineEmptySpec (doc : Document) (sc : StyleContext) : bool :=
  match beforeLineEnd (before doc sc) with
  | [] => true
  | z :: r => IsNewline z || match r with [] => true | _ :: _ => false end
  end.

(** A first line of one character, and a cursor on the second line. *)
Definition shortFirstLine : Document := bytes "a" ++ [LF] ++ bytes "b".

Definition onSecondLine : StyleContext :=
  newStyleContext shortFirstLine 2 1 SCE_MARKDOWN_PRECHAR.

(** A classification of the enumerated set other than LINK. *)
Definition plainStyle (x : Z) : Prop :=
  In x classifications /\ x <> SCE_MARKDOWN_LINK.

(** The classification of the cursor and those of the spans closed so far
    are of the enumerated set and none is LINK. *)
Definition plainSpans (sc : StyleContext) : Prop :=
  plainStyle (state sc) /\
  Forall (fun sp : Span => plainStyle (snd sp)) (spans (styler sc)).

(** * LexSearchResult.cxx

    The lexer of the search result panel: one call colours one line of the
    panel, a second pass gives every line its fold level. *)

(** The constants of SciLexer.h and Scintilla.h that LexSearchResult.cxx
    names, and the width of size_t.  Neither header is among the sources, so
    the constants are an argument of every definition that uses them. *)
Record Constants := mkConstants {
  SCE_SEARCHRESULT_DEFAULT : Z;
  SCE_SEARCHRESULT_FILE_HEADER : Z;
  SCE_SEARCHRESULT_SEARCH_HEADER : Z;
  SCE_SEARCHRESULT_LINE_NUMBER : Z;
  SCE_SEARCHRESULT_WORD2SEARCH : Z;
  SC_FOLDLEVELBASE : Z;
  SC_FOLDLEVELWHITEFLAG : Z;
  SC_FOLDLEVELHEADERFLAG : Z;
  size_t_bits : Z
}.

(** The range of a match in its line of the panel, the structure
    SearchResultMarking of FindReplaceDlg.h, of which the lexer reads the
    two members. *)
Record SearchResultMarking := mkMarking {
  _start : Z;
  _end : Z
}.

Section SearchResult.

Variable K : Constants.

(** The value of an integer expression as a size_t. *)
Definition to_size_t (z : Z) : Z := z mod 2 ^ size_t_bits K.

(** Line 43: the fold levels of the three kinds of line. *)
Definition searchHeaderLevel : Z := SC_FOLDLEVELBASE K + 1.
Definition fileHeaderLevel : Z := SC_FOLDLEVELBASE K + 2.
Definition resultLevel : Z := SC_FOLDLEVELBASE K + 3.

(** Lines 74-77: the loop that moves [currentPos] to the next colon of the
    line buffer, here over what is left of the buffer from [currentPos] on.
    The loop has no other exit: it answers [None] when it leaves the
    buffer. *)
Fixpoint findColon (rest : list Z) (currentPos : Z) : option Z :=
  match rest with
  | [] => None
  | c :: t =>
      if c =? chr ":" then Some currentPos else findColon t (currentPos + 1)
  end.

(** Lines 55-98.  [mi] is the marking of the line, [lineBuffer] the whole
    buffer the caller filled: the characters of the line, a 0, and what the
    buffer held before.  [None] is a read outside the buffer. *)
Definition ColouriseSearchResultLine (mi : SearchResultMarking)
  (lineBuffer : list Z) (startLine endPos : Z) (styler : Styler)
  : option Styler :=
  match lineBuffer with
  | [] => None
  | c0 :: _ =>
      if c0 =? chr " " then
        Some (ColourTo endPos (SCE_SEARCHRESULT_FILE_HEADER K) styler)
      else if c0 =? chr "S" then
        Some (ColourTo endPos (SCE_SEARCHRESULT_SEARCH_HEADER K) styler)
      else
        let firstTokenLen := 4 in
        let styler :=
          ColourTo (to_size_t (startLine + firstTokenLen))
                   (SCE_SEARCHRESULT_DEFAULT K) styler in
        match findColon (skipn (Z.to_nat firstTokenLen) lineBuffer)
                        firstTokenLen with
        | None => None
        | Some currentPos =>
            let styler :=
              ColourTo (to_size_t (startLine + currentPos - 1))
                       (SCE_SEARCHRESULT_LINE_NUMBER K) styler in
            let currentStat := SCE_SEARCHRESULT_DEFAULT K in
            let match_start := to_size_t (startLine + _start mi - 1) in
            let match_end := to_size_t (startLine + _end mi - 1) in
            let '(styler, currentStat) :=
              if match_start <=? endPos then
                let styler :=
                  ColourTo match_start (SCE_SEARCHRESULT_DEFAULT K) styler in
                if match_end <=? endPos then
                  (ColourTo match_end (SCE_SEARCHRESULT_WORD2SEARCH K) styler,
                   currentStat)
                else (styler, SCE_SEARCHRESULT_WORD2SEARCH K)
              else (styler, currentStat) in
            Some (ColourTo endPos currentStat styler)
        end
  end.

(** The fold level store of the accessor, read by LevelAt and written by
    SetLevel: a level for every line. *)
Definition SetLevel (line level : Z) (levels : Z -> Z) : Z -> Z :=
  fun l => if l =? line then level else levels l.

(** Lines 143-175: [n] iterations of the loop from the offset [i].
    [charAt] is the character read of the accessor by offset, [styles] the
    stored classifications; the result is the line reached and the levels
    set. *)
Fixpoint foldLoop (charAt : Z -> Z) (styles : Styles) (foldCompact : bool)
  (n : nat) (i chNext styleNext headerPoint visibleChars lineCurrent : Z)
  (levels : Z -> Z) : Z * (Z -> Z) :=
  match n with
  | O => (lineCurrent, levels)
  | S n' =>
      let ch := chNext in
      let chNext := charAt (i + 1) in
      let style := styleNext in
      let styleNext := StyleAt styles (i + 1) in
      let atEOL := (ch =? LF) || ((ch =? CR) && negb (chNext =? LF)) in
      let headerPoint :=
        if style =? SCE_SEARCHRESULT_FILE_HEADER K then fileHeaderLevel
        else if style =? SCE_SEARCHRESULT_SEARCH_HEADER K
             then searchHeaderLevel
             else headerPoint in
      let lev :=
        if headerPoint =? 0 then resultLevel
        else SC_FOLDLEVELHEADERFLAG K + headerPoint in
      let lev :=
        if (visibleChars =? 0) && foldCompact
        then Z.lor lev (SC_FOLDLEVELWHITEFLAG K) else lev in
      let levels' :=
        if atEOL
        then if lev =? levels lineCurrent then levels
             else SetLevel lineCurrent lev levels
        else levels in
      let headerPoint := if atEOL then 0 else headerPoint in
      let lineCurrent' := if atEOL then lineCurrent + 1 else lineCurrent in
      let visibleChars := if atEOL then 0 else visibleChars in
      let visibleChars :=
        if isspacechar ch then visibleChars else visibleChars + 1 in
      foldLoop charAt styles foldCompact n' (i + 1) chNext styleNext
               headerPoint visibleChars lineCurrent' levels'
  end.

(** Lines 131-177.  [foldCompact] is the property fold.compact read at line
    132. *)
Definition FoldSearchResultDoc (charAt : Z -> Z) (doc : Document)
  (styles : Styles) (foldCompact : bool) (startPos length : Z)
  (levels : Z -> Z) : Z -> Z :=
  let endPos := to_size_t (startPos + length) in
  let visibleChars := 0 in
  let lineCurrent := GetLine doc startPos in
  let chNext := charAt startPos in
  let styleNext := StyleAt styles startPos in
  let headerPoint := 0 in
  let '(lineCurrent, levels) :=
    foldLoop charAt styles foldCompact (Z.to_nat (endPos - startPos))
             startPos chNext styleNext headerPoint visibleChars lineCurrent
             levels in
  SetLevel lineCurrent (SC_FOLDLEVELBASE K) levels.

End SearchResult.

(** ** Auxiliary notions of the properties of the search result lexer *)

(** The offset [i] ends a line for the fold pass: a LF, or a CR that no LF
    follows. *)
Definition foldLineEnd (charAt : Z -> Z) (i : Z) : bool :=
  (charAt i =? LF) || ((charAt i =? CR) && negb (charAt (i + 1) =? LF)).

(** The number of line ends among the [n] offsets from [i] on. *)
Fixpoint lineEnds (charAt : Z -> Z) (n : nat) (i : Z) : Z :=
  match n with
  | O => 0
  | S n' =>
      (if foldLineEnd charAt i then 1 else 0) + lineEnds charAt n' (i + 1)
  end.

(** The levels the fold pass gives a line that it completed. *)
Definition lineLevels (K : Constants) : list Z :=
  let plain :=
    [ resultLevel K;
      SC_FOLDLEVELHEADERFLAG K + fileHeaderLevel K;
      SC_FOLDLEVELHEADERFLAG K + searchHeaderLevel K ] in
  plain ++ map (fun lev => Z.lor lev (SC_FOLDLEVELWHITEFLAG K)) plain.

(** The classifications the line pass writes. *)
Definition lineStyles (K : Constants) : list Z :=
  [ SCE_SEARCHRESULT_DEFAULT K; SCE_SEARCHRESULT_FILE_HEADER K;
    SCE_SEARCHRESULT_SEARCH_HEADER K; SCE_SEARCHRESULT_LINE_NUMBER K;
    SCE_SEARCHRESULT_WORD2SEARCH K ].

(** The line is a header of the panel: its first character is a space (the
    header of a file) or an S (the header of a search). *)
Definition headerLine (lineBuffer : list Z) : bool :=
  match lineBuffer with
  | [] => false
  | c0 :: _ => (c0 =? chr " ") || (c0 =? chr "S")
  end.

(** The spans of [st'] are those of [st] followed by spans that end between
    [lo] and [hi] and carry classifications of [styles]. *)
Definition extends (styles : list Z) (lo hi : Z) (st st' : Styler) : Prop :=
  exists l : list Span,
    spans st' = spans st ++ l /\
    Forall (fun sp : Span => In (snd sp) styles /\ lo <= fst sp <= hi) l.

(** Values for the constants, for the examples: the classifications
    numbered from 0, the fold flags on bits of their own, a size_t of 64
    bits. *)
Definition sampleConstants : Constants :=
  mkConstants 0 2 1 3 4 1024 4096 8192 64.

(** A result line of the panel as the caller hands it over: the line, the
    terminating 0, and the rest of the buffer. *)
Definition resultLine : list Z :=
  [TAB] ++ bytes "Line 12: a word" ++ [LF; 0] ++ repeat 0 8.

(** The match of that line: the characters at the offsets 12 to 15. *)
Definition resultMarking : SearchResultMarking := mkMarking 12 16.


(** The header level a classification stands for at lines 151-158, 0 for a
    classification that is not one of a header. *)
Definition headerPointOf (K : Constants) (style : Z) : Z :=
  if style =? SCE_SEARCHRESULT_FILE_HEADER K then fileHeaderLevel K
  else if style =? SCE_SEARCHRESULT_SEARCH_HEADER K then searchHeaderLevel K
  else 0.

(** The [n] characters from the offset [i] on are all white space. *)
Fixpoint blankRun (charAt : Z -> Z) (n : nat) (i : Z) : bool :=
  match n with
  | O => true
  | S n' => isspacechar (charAt i) && blankRun charAt n' (i + 1)
  end.

(** The level of a line with the header level [headerPoint], marked white
    or not. *)
Definition levelOf (K : Constants) (headerPoint : Z) (white : bool) : Z :=
  let lev :=
    if headerPoint =? 0 then resultLevel K
    else SC_FOLDLEVELHEADERFLAG K + headerPoint in
  if white then Z.lor lev (SC_FOLDLEVELWHITEFLAG K) else lev.

(** The header of a file in the panel, coloured as the line pass colours
    it, and the read of its characters. *)
Definition fileHeaderDoc : Document := bytes "  a.c" ++ [LF].

Definition fileHeaderStyles : Styles :=
  map (fun _ => SCE_SEARCHRESULT_FILE_HEADER sampleConstants) fileHeaderDoc.

Definition fileHeaderChars : Z -> Z :=
  fun i => SafeGetCharAt fileHeaderDoc i 0.

(** The length of the run of [c] that [l] starts with. *)
Fixpoint runOf (c : Z) (l : list Z) : nat :=
  match l with
  | [] => O
  | x :: t => if x =? c then S (runOf c t) else O
  end.

(** The number of number signs at the cursor, up to six: the current and
    the next character of the cursor, and the four characters after them. *)
Definition leadingHashes (doc : Document) (sc : StyleContext) : nat :=
  runOf (chr "#")
    [ ch sc; chNext sc; GetRelative doc sc 2; GetRelative doc sc 3;
      GetRelative doc sc 4; GetRelative doc sc 5 ].

(** The header classification of a level from 1 to 6. *)
Definition headerOfLevel (n : nat) : Z :=
  nth (n - 1)
    [ SCE_MARKDOWN_HEADER1; SCE_MARKDOWN_HEADER2; SCE_MARKDOWN_HEADER3;
      SCE_MARKDOWN_HEADER4; SCE_MARKDOWN_HEADER5; SCE_MARKDOWN_HEADER6 ]
    SCE_MARKDOWN_DEFAULT.

(** A header of level 3, and the scan of it after the iteration that
    holds the cursor at the start of the line. *)
Definition levelThreeDoc : Document := bytes "### t" ++ [LF].

Definition atHashes : ScanState :=
  iterations levelThreeDoc 6 1
    (initialScan levelThreeDoc (freshStyles levelThreeDoc) 0 6
       SCE_MARKDOWN_DEFAULT).



(** ** ColouriseSearchResultDoc *)

(** A write into the line buffer by index; [None] is a write outside the
    buffer. *)
Fixpoint store (l : list Z) (n : nat) (v : Z) : option (list Z) :=
  match l, n with
  | [], _ => None
  | _ :: t, O => Some (v :: t)
  | x :: t, S n' =>
      match store t n' v with
      | Some t' => Some (x :: t')
      | None => None
      end
  end.

Section SearchResultDocument.

Variable K : Constants.

(** The reads of the accessor, whose header is not among the sources:
    [charAt] is the read by offset (the operator []), [chDefault] the
    character that [SafeGetCharAt] answers outside the document when it is
    called with one argument. *)
Variable charAt : Z -> Z.
Variable chDefault : Z.
Variable doc : Document.

(** Lines 46-49. *)
Definition AtEOL (i : Z) : bool :=
  (charAt i =? LF)
  || ((charAt i =? CR) && negb (SafeGetCharAt doc (i + 1) chDefault =? LF)).

(** Line 123: the loop that moves [i] to the end of the line, bounded by
    [fuel] iterations. *)
Fixpoint skipLine (fuel : nat) (i : Z) : option Z :=
  match fuel with
  | O => None
  | S f => if AtEOL i then Some i else skipLine f (i + 1)
  end.

(** Lines 115-125: the loop over the offsets below [upto], bounded by
    [fuel] iterations.  The state is the offset [i], the fill of the line
    buffer, the start of the line, the buffer and the spans; the size of
    the buffer is the length of the list. *)
Fixpoint lineLoop (pMarkings : Z -> SearchResultMarking) (upto : Z)
  (fuel : nat) (i linePos startLine : Z) (lineBuffer : list Z)
  (styler : Styler) : option (Z * Z * list Z * Styler) :=
  match fuel with
  | O => None
  | S f =>
      if i <? upto then
        match store lineBuffer (Z.to_nat linePos) (charAt i) with
        | None => None
        | Some lineBuffer =>
            let linePos := linePos + 1 in
            if AtEOL i
               || (to_size_t K (Z.of_nat (List.length lineBuffer) - 1)
                   <=? linePos)
            then
              match store lineBuffer (Z.to_nat linePos) 0 with
              | None => None
              | Some lineBuffer =>
                  match ColouriseSearchResultLine K
                          (pMarkings (GetLine doc startLine)) lineBuffer
                          startLine i styler with
                  | None => None
                  | Some styler =>
                      let linePos := 0 in
                      let startLine := i + 1 in
                      match skipLine fuel i with
                      | None => None
                      | Some i =>
                          lineLoop pMarkings upto f (i + 1) linePos
                                   startLine lineBuffer styler
                      end
                  end
              end
            else lineLoop pMarkings upto f (i + 1) linePos startLine
                          lineBuffer styler
        end
      else Some (linePos, startLine, lineBuffer, styler)
  end.

(** Lines 100-129.  [pMarkings] is the structure that the property
    "@MarkingsStruct" gives the address of, [None] when the property is
    missing or empty; [lineBuffer] is the line buffer as the call finds it.
    [None] is a loop that has not ended within [fuel] iterations, or a read
    or write outside the buffer. *)
Definition ColouriseSearchResultDoc
  (pMarkings : option (Z -> SearchResultMarking)) (fuel : nat)
  (lineBuffer : list Z) (startPos length : Z) : option Styler :=
  let styler := mkStyler startPos [] in
  let linePos := 0 in
  let startLine := startPos in
  match pMarkings with
  | None => Some styler
  | Some pMarkings =>
      match lineLoop pMarkings (to_size_t K (startPos + length)) fuel
                     startPos linePos startLine lineBuffer styler with
      | None => None
      | Some (linePos, startLine, lineBuffer, styler) =>
          if 0 <? linePos then
            ColouriseSearchResultLine K (pMarkings (GetLine doc startLine))
              lineBuffer startLine (to_size_t K (startPos + length - 1))
              styler
          else Some styler
      end
  end.

End SearchResultDocument.

(** The characters read at the [n] offsets from [i] on. *)
Fixpoint readRun (charAt : Z -> Z) (i : Z) (n : nat) : list Z :=
  match n with
  | O => []
  | S n' => charAt i :: readRun charAt (i + 1) n'
  end.

(** The header of a file, six characters long, and the header of a search,
    and the read of their characters. *)
Definition cutLineDoc : Document :=
  bytes "  abcd" ++ [LF] ++ bytes "Sx" ++ [LF].

Definition cutLineChars : Z -> Z :=
  fun i => SafeGetCharAt cutLineDoc i 0.

(** The end offset as the loop of IsValidHrule takes it.  The loop tests
    the end offset only on a character that is not the marker (line 132), so
    when the run of markers, spaces and tabs reaches the end offset and the
    character there is the marker, that marker is counted and the run goes
    on past the end offset, to the end of the document at most. *)
Definition hruleEnd (doc : Document) (endPos : Z) (sc : StyleContext) : Z :=
  let l := lineRest doc endPos sc in
  if (runLength (ch sc) l =? Z.of_nat (List.length l))
     && (SafeGetCharAt doc endPos 0 =? ch sc)
  then Length doc + 1
  else endPos.
(** * Properties *)

(** ** The cursor operations on the fields of the cursor *)

Lemma state_SetState (x : Z) (sc : StyleContext) : state (SetState x sc) = x.
Proof. reflexivity. Qed.

Lemma state_Forward (doc : Document) (sc : StyleContext) :
  state (Forward doc sc) = state sc.
Proof.
  unfold Forward. destruct (currentPos sc <? sc_endPos sc); reflexivity.
Qed.

(** A property of the cursor that [Forward] keeps is kept by [Forward(nb)]. *)
Lemma ForwardN_keeps (doc : Document) (P : StyleContext -> Prop) :
  (forall sc, P sc -> P (Forward doc sc)) ->
  forall nb sc, P sc -> P (ForwardN doc nb sc).
Proof.
  intros HF nb sc H. unfold ForwardN.
  induction (Z.to_nat nb) as [|n IH]; simpl; auto.
Qed.

(** ** The writer monad *)

Lemma result_bind {A B : Type} (m : Rd A) (k : A -> Rd B) :
  result (bind m k) = result (k (result m)).
Proof. reflexivity. Qed.

Lemma reads_bind {A B : Type} (m : Rd A) (k : A -> Rd B) :
  reads (bind m k) = reads m ++ reads (k (result m)).
Proof. reflexivity. Qed.

Lemma result_ret {A : Type} (a : A) : result (ret a) = a.
Proof. reflexivity. Qed.

Lemma result_GetRelativeR (doc : Document) (sc : StyleContext) (n : Z) :
  result (GetRelativeR doc sc n) = GetRelative doc sc n.
Proof. reflexivity. Qed.

(** ** What the predicates that move the cursor hand back *)

Lemma FollowToLineEnd_shape (doc : Document) (c st endPos : Z)
  (sc : StyleContext) :
  let r := result (FollowToLineEnd doc c st endPos sc) in
  (fst r = false /\ snd r = sc) \/
  (fst r = true /\ exists i,
     snd r = SetState SCE_MARKDOWN_LINE_BEGIN
               (ChangeState st (ForwardN doc i sc))).
Proof.
  unfold FollowToLineEnd. cbv zeta. rewrite !result_bind.
  match goal with
  | |- context [if ?b then _ else _] => destruct b
  end; rewrite result_ret; cbn [fst snd]; [right | left]; eauto.
Qed.

Lemma hruleLoop_shape (doc : Document) (endPos : Z) (sc : StyleContext) :
  forall fuel i count,
  let r := result (hruleLoop doc fuel endPos sc i count) in
  (fst r = false /\ snd r = sc) \/
  (fst r = false /\ snd r = SetState SCE_MARKDOWN_DEFAULT sc) \/
  (fst r = true /\ exists j,
     snd r = SetState SCE_MARKDOWN_LINE_BEGIN
               (ForwardN doc j (SetState SCE_MARKDOWN_HRULE sc))).
Proof.
  induction fuel as [|n IH]; intros i count; cbn [hruleLoop]; cbv zeta.
  - left. split; reflexivity.
  - rewrite result_bind, result_GetRelativeR.
    destruct (GetRelative doc sc (i + 1) =? ch sc); [apply IH|].
    destruct (negb (IsASpaceOrTab (GetRelative doc sc (i + 1)))
              || (currentPos sc + (i + 1) =? endPos)); [|apply IH].
    destruct ((IsNewline (GetRelative doc sc (i + 1))
               || (currentPos sc + (i + 1) =? endPos)) && (3 <=? count)).
    + rewrite result_bind.
      destruct (negb (result (HasPrevLineContent doc sc)));
        rewrite result_ret; cbn [fst snd].
      * right. right. split; [reflexivity|]. eexists. reflexivity.
      * right. left. split; reflexivity.
    + rewrite result_ret. right. left. split; reflexivity.
Qed.

Lemma IsValidHrule_shape (doc : Document) (endPos : Z) (sc : StyleContext) :
  let r := result (IsValidHrule doc endPos sc) in
  (fst r = false /\ snd r = sc) \/
  (fst r = false /\ snd r = SetState SCE_MARKDOWN_DEFAULT sc) \/
  (fst r = true /\ exists j,
     snd r = SetState SCE_MARKDOWN_LINE_BEGIN
               (ForwardN doc j (SetState SCE_MARKDOWN_HRULE sc))).
Proof. exact (hruleLoop_shape doc endPos sc (loopFuel doc endPos sc) 0 1). Qed.

(** ** Properties of the cursor that every iteration keeps *)

Section Closure.

Variable doc : Document.
Variable endPos : Z.
Variable P : StyleContext -> Prop.

Hypothesis P_Forward : forall sc, P sc -> P (Forward doc sc).
Hypothesis P_SetState :
  forall x sc, isTarget x = true -> P sc -> P (SetState x sc).
Hypothesis P_ChangeState :
  forall x sc, isTarget x = true -> P sc -> P (ChangeState x sc).

Lemma keeps_ForwardN (nb : Z) (sc : StyleContext) :
  P sc -> P (ForwardN doc nb sc).
Proof. apply ForwardN_keeps. exact P_Forward. Qed.

Ltac keep :=
  cbn [cursor with_cursor];
  repeat first
    [ assumption
    | apply P_SetState; [reflexivity|]
    | apply P_ChangeState; [reflexivity|]
    | apply P_Forward
    | apply keeps_ForwardN ].

Ltac split_if :=
  match goal with
  | |- context [if ?b then _ else _] => destruct b
  end.

Lemma keeps_FollowToLineEnd (c st : Z) (sc : StyleContext) :
  isTarget st = true -> P sc ->
  P (snd (result (FollowToLineEnd doc c st endPos sc))).
Proof.
  intros Hst H.
  destruct (FollowToLineEnd_shape doc c st endPos sc) as [[_ ->] | [_ [i ->]]].
  - exact H.
  - apply P_SetState; [reflexivity|]. apply P_ChangeState; [exact Hst|].
    apply keeps_ForwardN. exact H.
Qed.

Lemma keeps_IsValidHrule (sc : StyleContext) :
  P sc -> P (snd (result (IsValidHrule doc endPos sc))).
Proof.
  intros H.
  destruct (IsValidHrule_shape doc endPos sc)
    as [[_ ->] | [[_ ->] | [_ [j ->]]]]; keep.
Qed.

Lemma keeps_blockquoteRule (s : ScanState) :
  P (cursor s) -> P (cursor (blockquoteRule s)).
Proof. intros H. unfold blockquoteRule. split_if; keep. Qed.

Lemma keeps_lineBeginRules (s : ScanState) :
  P (cursor s) -> P (cursor (lineBeginRules doc endPos s)).
Proof.
  intros H. unfold lineBeginRules. cbv zeta.
  repeat split_if; cbn [cursor with_cursor];
    try (apply P_SetState; [reflexivity|]);
    try (apply keeps_FollowToLineEnd; [reflexivity|]); keep.
Qed.

Lemma keeps_stateRules (s : ScanState) :
  P (cursor s) -> P (cursor (stateRules doc endPos s)).
Proof.
  intros H. unfold stateRules. cbv zeta.
  repeat split_if; try (apply keeps_lineBeginRules); keep.
Qed.

Lemma keeps_precharRules (s : ScanState) :
  P (cursor s) -> P (cursor (precharRules doc endPos s)).
Proof.
  intros H. unfold precharRules. cbv zeta.
  repeat split_if; cbn [cursor with_cursor fst snd];
    try (apply P_SetState; [reflexivity|]);
    try (apply keeps_IsValidHrule); keep.
Qed.

Lemma keeps_linkRules (s : ScanState) :
  P (cursor s) -> P (cursor (linkRules doc s)).
Proof. intros H. unfold linkRules. cbv zeta. repeat split_if; keep. Qed.

Lemma keeps_defaultRules (s : ScanState) :
  P (cursor s) -> P (cursor (defaultRules doc endPos s)).
Proof. intros H. unfold defaultRules. cbv zeta. repeat split_if; keep. Qed.

Lemma keeps_advance (s : ScanState) :
  P (cursor s) -> P (cursor (advance doc s)).
Proof. intros H. unfold advance. cbn [cursor]. split_if; keep. Qed.

Lemma keeps_loopBody (s : ScanState) :
  P (cursor s) -> P (cursor (loopBody doc endPos s)).
Proof.
  intros H. unfold loopBody. split_if; [keep|].
  apply keeps_advance, keeps_defaultRules, keeps_linkRules,
    keeps_precharRules, keeps_stateRules, keeps_blockquoteRule, H.
Qed.

Lemma keeps_iterations (n : nat) :
  forall s, P (cursor s) -> P (cursor (iterations doc endPos n s)).
Proof.
  induction n as [|n IH]; intros s H; cbn [iterations]; [exact H|].
  split_if; [|exact H]. apply IH, keeps_loopBody, H.
Qed.

Lemma keeps_scanLoop (fuel : nat) :
  forall s s', P (cursor s) -> scanLoop doc endPos fuel s = Some s' ->
               P (cursor s').
Proof.
  induction fuel as [|n IH]; intros s s' H E; cbn [scanLoop] in E;
    [discriminate|].
  destruct (More (cursor s)).
  - eapply IH; [|exact E]. apply keeps_loopBody, H.
  - injection E as <-. exact H.
Qed.

End Closure.

(** ** LINK is never the active classification *)

Lemma isTarget_not_LINK (x : Z) : isTarget x = true -> x <> SCE_MARKDOWN_LINK.
Proof. intros H E. subst x. discriminate H. Qed.

Lemma notLink_Forward (doc : Document) (sc : StyleContext) :
  notLink sc -> notLink (Forward doc sc).
Proof. unfold notLink. rewrite state_Forward. auto. Qed.

Lemma notLink_SetState (x : Z) (sc : StyleContext) :
  isTarget x = true -> notLink sc -> notLink (SetState x sc).
Proof. intros H _. apply isTarget_not_LINK, H. Qed.

Lemma notLink_ChangeState (x : Z) (sc : StyleContext) :
  isTarget x = true -> notLink sc -> notLink (ChangeState x sc).
Proof. intros H _. apply isTarget_not_LINK, H. Qed.

(** The reset of line 204 keeps LINK out of the initial classification. *)
Lemma resumeStyle_not_LINK (doc : Document) (styles : Styles)
  (startPos initStyle : Z) :
  resumeStyle doc styles startPos initStyle <> SCE_MARKDOWN_LINK.
Proof.
  unfold resumeStyle.
  destruct (0 <? startPos);
    match goal with
    | |- (if ?b then _ else _) <> _ => destruct b eqn:E
    end; try discriminate;
    apply Z.ltb_ge in E; unfold SCE_MARKDOWN_CODEBK, SCE_MARKDOWN_LINK in *;
    lia.
Qed.

Lemma linkRules_inactive (doc : Document) (s : ScanState) :
  notLink (cursor s) -> linkRules doc s = s.
Proof.
  unfold notLink, linkRules. intros H. cbv zeta.
  destruct (state (cursor s) =? SCE_MARKDOWN_LINK) eqn:E; [|reflexivity].
  apply Z.eqb_eq in E. contradiction.
Qed.

(** C10.  In every scan call, whatever the document, the stored styles, the
    range and the initial style, LINK is not the classification at the top
    of any loop iteration, nor when the link rules are reached within an
    iteration, so that these rules leave the scan state as it is. *)
Theorem LINK_never_active (doc : Document) (styles : Styles)
  (startPos length initStyle : Z) (n : nat) :
  let endPos := startPos + length in
  let s := iterations doc endPos n
             (initialScan doc styles startPos length initStyle) in
  let s' := precharRules doc endPos
              (stateRules doc endPos (blockquoteRule s)) in
  state (cursor s) <> SCE_MARKDOWN_LINK /\
  state (cursor s') <> SCE_MARKDOWN_LINK /\
  linkRules doc s' = s'.
Proof.
  intros endPos s s'.
  assert (H : notLink (cursor s)).
  { apply (keeps_iterations doc endPos notLink);
      auto using notLink_Forward, notLink_SetState, notLink_ChangeState.
    apply resumeStyle_not_LINK. }
  assert (H' : notLink (cursor s')).
  { apply (keeps_precharRules doc endPos notLink);
      auto using notLink_Forward, notLink_SetState.
    apply (keeps_stateRules doc endPos notLink);
      auto using notLink_Forward, notLink_SetState, notLink_ChangeState.
    apply (keeps_blockquoteRule notLink); auto using notLink_SetState. }
  split; [exact H|]. split; [exact H'|]. apply linkRules_inactive, H'.
Qed.

(** ** A scan call that never returns

    The first line starts with '=' and is underlined with '-'.  At offset 0
    the rules of DEFAULT (line 414) see the underline and hand over to
    LINE_BEGIN without advancing; the rules of LINE_BEGIN meet the '=' first
    (line 315), find no previous line and fall back to DEFAULT (line 319);
    the rules of DEFAULT, in the same iteration, hand over again. *)
Lemma hang_first :
  loopBody hangDoc 7 hangStart
  = mkScan (set_state SCE_MARKDOWN_LINE_BEGIN (cursor hangStart))
      0 false false.
Proof. vm_compute. reflexivity. Qed.

Lemma hang_cycle :
  loopBody hangDoc 7 (loopBody hangDoc 7 hangStart)
  = loopBody hangDoc 7 hangStart.
Proof. vm_compute. reflexivity. Qed.

Lemma hang_iterations (n : nat) :
  iterations hangDoc 7 n (loopBody hangDoc 7 hangStart)
  = loopBody hangDoc 7 hangStart.
Proof.
  induction n as [|n IH]; [reflexivity|].
  cbn [iterations]. rewrite hang_cycle, IH.
  destruct (More _); reflexivity.
Qed.

Lemma hang_scanLoop (fuel : nat) :
  scanLoop hangDoc 7 fuel (loopBody hangDoc 7 hangStart) = None.
Proof.
  induction fuel as [|n IH]; [reflexivity|].
  cbn [scanLoop]. rewrite hang_cycle, IH.
  replace (More (cursor (loopBody hangDoc 7 hangStart))) with true
    by (vm_compute; reflexivity).
  reflexivity.
Qed.

(** C9.  On the seven characters "=a", newline, "---", newline, scanned
    whole from DEFAULT, the dispatch loop does not terminate: after any
    number of iterations, one at least, the cursor is still on offset 0,
    inside the range, the classification is LINE_BEGIN again, and one more
    iteration, a no-advance step, leaves the scan state as it is. *)
Theorem dispatch_loop_hangs (n : nat) :
  let s := iterations hangDoc 7 (S n) hangStart in
  currentPos (cursor s) = 0 /\ More (cursor s) = true /\
  state (cursor s) = SCE_MARKDOWN_LINE_BEGIN /\
  loopBody hangDoc 7 s = s.
Proof.
  cbv zeta. cbn [iterations].
  replace (More (cursor hangStart)) with true by (vm_compute; reflexivity).
  rewrite hang_iterations.
  split; [vm_compute; reflexivity|]. split; [vm_compute; reflexivity|].
  split; [vm_compute; reflexivity | apply hang_cycle].
Qed.

(** C7.  The same call closes no span at all: whatever the bound on the
    iterations it hands back no span stream, and after any number of
    iterations the list of closed spans is empty, so that nothing of the
    range [0, 7) is covered. *)
Theorem hanging_call_covers_nothing (fuel n : nat) :
  ColorizeMarkdownDoc fuel hangDoc (freshStyles hangDoc) 0 7
    SCE_MARKDOWN_DEFAULT = None /\
  spans (styler (cursor (iterations hangDoc 7 n hangStart))) = [].
Proof.
  split.
  - unfold ColorizeMarkdownDoc. fold hangStart.
    replace (0 + 7) with 7 by reflexivity.
    destruct fuel as [|k]; [reflexivity|]. cbn [scanLoop].
    replace (More (cursor hangStart)) with true by (vm_compute; reflexivity).
    rewrite hang_scanLoop. reflexivity.
  - destruct n as [|n]; [reflexivity|]. cbn [iterations].
    replace (More (cursor hangStart)) with true by (vm_compute; reflexivity).
    rewrite hang_iterations. vm_compute. reflexivity.
Qed.

(** ** The escape rule *)

(** C2.  In "`a\`b" scanned whole from DEFAULT, the backtick at offset 3
    follows a backslash and yet closes the code span opened at offset 0: the
    span CODE ends on it and 'b' is DEFAULT.  In a line "\# x" after an empty
    first line, the '#' after the backslash opens HEADER1, where LINE_BEGIN
    was in effect before the backslash. *)
Theorem escaped_character_still_dispatched :
  ColorizeMarkdownDoc 10 (bytes "`a\`b") (freshStyles (bytes "`a\`b")) 0 5
    SCE_MARKDOWN_DEFAULT
  = Some (mkResult 0 [(3, SCE_MARKDOWN_CODE); (4, SCE_MARKDOWN_DEFAULT)]) /\
  ColorizeMarkdownDoc 10 (LF :: bytes "\# x") (freshStyles (LF :: bytes "\# x"))
    0 5 SCE_MARKDOWN_DEFAULT
  = Some (mkResult 0 [(1, SCE_MARKDOWN_LINE_BEGIN); (4, SCE_MARKDOWN_HEADER1)]).
Proof. split; vm_compute; reflexivity. Qed.

(** ** Code blocks *)

(** In CODEBK the chain of state rules stops at the first alternative for
    CODEBK (line 232): the outcome is the scan state itself or the block
    closed to LINE_BEGIN on the spot, never the outcome of the tilde rule of
    line 267. *)
Lemma stateRules_CODEBK (doc : Document) (endPos : Z) (s : ScanState) :
  state (cursor s) = SCE_MARKDOWN_CODEBK ->
  stateRules doc endPos s = s \/
  stateRules doc endPos s
  = with_cursor (SetState SCE_MARKDOWN_LINE_BEGIN (cursor s)) s.
Proof.
  intros H. unfold stateRules. cbv zeta. rewrite H.
  change (SCE_MARKDOWN_CODEBK =? SCE_MARKDOWN_CODE2) with false.
  change (SCE_MARKDOWN_CODEBK =? SCE_MARKDOWN_CODE) with false.
  change (SCE_MARKDOWN_CODEBK =? SCE_MARKDOWN_CODEBK) with true.
  cbv iota.
  match goal with
  | |- context [if negb ?b then _ else _] => destruct b
  end; cbn [negb]; auto.
Qed.

(** C4.  A fence, an indented line, a closing fence at offsets 11-13 and a
    line of text: the block opened at offset 1 is closed at offset 11 by the
    indentation test, without consuming anything; the first tilde of the
    closing fence is LINE_BEGIN and the other two are DEFAULT, where the
    tilde rule would have kept the whole line in the block. *)
Theorem closing_fence_not_scanned :
  ColorizeMarkdownDoc 30 fencedDoc (freshStyles fencedDoc) 0 17
    SCE_MARKDOWN_DEFAULT
  = Some (mkResult 0
            [ (0, SCE_MARKDOWN_LINE_BEGIN); (10, SCE_MARKDOWN_CODEBK);
              (11, SCE_MARKDOWN_LINE_BEGIN); (13, SCE_MARKDOWN_DEFAULT);
              (14, SCE_MARKDOWN_LINE_BEGIN); (15, SCE_MARKDOWN_DEFAULT);
              (16, SCE_MARKDOWN_LINE_BEGIN) ]).
Proof. vm_compute. reflexivity. Qed.

(** ** Resuming a scan *)

(** What a call at an offset beyond 0 starts from does not involve the
    initial style of the caller, and involves the stored classifications
    only at the start of the line before the offset. *)
Lemma initialScan_resumed (doc : Document) (styles styles' : Styles)
  (startPos length initStyle initStyle' : Z) :
  0 < startPos ->
  StyleAt styles (LineStart doc (GetLine doc startPos - 1))
  = StyleAt styles' (LineStart doc (GetLine doc startPos - 1)) ->
  initialScan doc styles startPos length initStyle
  = initialScan doc styles' startPos length initStyle'.
Proof.
  intros H E. apply Z.ltb_lt in H.
  unfold initialScan, resumeStyle, resumePos. rewrite !H, E. reflexivity.
Qed.

(** C1.  For a fence line and a line of text, scanned in one call over
    [0, 8) and in two calls split at offset 6, the second from the
    classification the first one stored: the spans of the two calls put end
    to end are not the spans of the single call, and the classifications
    left stored differ as well (the fence line is CODEBK after the single
    call, LINE_BEGIN and DEFAULT after the two). *)
Lemma split_scan_differs :
  scanSpans firstCall ++ scanSpans secondCall <> scanSpans wholeScan /\
  stored secondCall (stored firstCall (freshStyles splitDoc))
  <> stored wholeScan (freshStyles splitDoc) /\
  stored wholeScan (freshStyles splitDoc)
  = [ SCE_MARKDOWN_LINE_BEGIN; SCE_MARKDOWN_CODEBK; SCE_MARKDOWN_CODEBK;
      SCE_MARKDOWN_CODEBK; SCE_MARKDOWN_CODEBK; SCE_MARKDOWN_LINE_BEGIN;
      SCE_MARKDOWN_DEFAULT; SCE_MARKDOWN_LINE_BEGIN ] /\
  stored secondCall (stored firstCall (freshStyles splitDoc))
  = [ SCE_MARKDOWN_LINE_BEGIN; SCE_MARKDOWN_LINE_BEGIN; SCE_MARKDOWN_DEFAULT;
      SCE_MARKDOWN_DEFAULT; SCE_MARKDOWN_LINE_BEGIN; SCE_MARKDOWN_DEFAULT;
      SCE_MARKDOWN_DEFAULT; SCE_MARKDOWN_LINE_BEGIN ].
Proof.
  repeat split; try (vm_compute; reflexivity); vm_compute; discriminate.
Qed.

(** A call at an offset beyond 0 restarts at the start of the line before
    that offset, and its outcome is the same whatever initial style the
    caller passes and whatever the stored classifications are elsewhere than
    at that line start: the earlier call bears on it through that one
    classification only. *)
Theorem resumed_call_determined (fuel : nat) (doc : Document)
  (styles styles' : Styles) (startPos length initStyle initStyle' : Z)
  (Hpos : 0 < startPos)
  (Hat : StyleAt styles (LineStart doc (GetLine doc startPos - 1))
         = StyleAt styles' (LineStart doc (GetLine doc startPos - 1))) :
  ColorizeMarkdownDoc fuel doc styles startPos length initStyle
  = ColorizeMarkdownDoc fuel doc styles' startPos length initStyle' /\
  (forall r, ColorizeMarkdownDoc fuel doc styles startPos length initStyle
             = Some r ->
             scanStart r = LineStart doc (GetLine doc startPos - 1)).
Proof.
  split.
  - unfold ColorizeMarkdownDoc.
    rewrite (initialScan_resumed doc styles styles' startPos length
               initStyle initStyle' Hpos Hat).
    reflexivity.
  - intros r E. unfold ColorizeMarkdownDoc in E.
    destruct (scanLoop _ _ _ _); [|discriminate].
    injection E as <-. cbn [scanStart]. unfold resumePos.
    apply Z.ltb_lt in Hpos. rewrite Hpos. reflexivity.
Qed.

Lemma resumed_call_determined_witness :
  0 < 6 /\
  ColorizeMarkdownDoc 20 splitDoc (stored firstCall (freshStyles splitDoc))
    6 2 SCE_MARKDOWN_DEFAULT
  = ColorizeMarkdownDoc 20 splitDoc
      [0; SCE_MARKDOWN_CODEBK; 0; 0; 0; 0; 0; 0] 6 2 SCE_MARKDOWN_HEADER3.
Proof.
  split; [reflexivity|].
  apply (resumed_call_determined 20 splitDoc
           (stored firstCall (freshStyles splitDoc))
           [0; SCE_MARKDOWN_CODEBK; 0; 0; 0; 0; 0; 0] 6 2
           SCE_MARKDOWN_DEFAULT SCE_MARKDOWN_HEADER3).
  - reflexivity.
  - vm_compute. reflexivity.
Defined.

(** The second call of the split restarts at offset 1, the start of the
    fence line, in the classification stored at that offset, CODEBK: the
    classification that the rules gave the first character of the line, not
    the one in which the scan had reached it, LINE_BEGIN, which is stored
    before it, on the newline at offset 0.  The same rescan started in that
    classification closes the spans of the single call from the fence line
    on and leaves stored what the single call leaves. *)
Lemma rescan_from_state_before :
  let persisted := stored firstCall (freshStyles splitDoc) in
  resumePos splitDoc 6 = 1 /\
  StyleAt persisted 1 = SCE_MARKDOWN_CODEBK /\
  StyleAt persisted 0 = SCE_MARKDOWN_LINE_BEGIN /\
  exists s,
    scanLoop splitDoc 8 20
      (mkScan (newStyleContext splitDoc 1 7 (StyleAt persisted 0)) 0 false
              false) = Some s /\
    spans (styler (Complete (cursor s)))
    = [ (4, SCE_MARKDOWN_CODEBK); (5, SCE_MARKDOWN_LINE_BEGIN);
        (6, SCE_MARKDOWN_DEFAULT); (7, SCE_MARKDOWN_LINE_BEGIN) ] /\
    persist 1 (spans (styler (Complete (cursor s)))) persisted
    = stored wholeScan (freshStyles splitDoc).
Proof.
  cbv zeta. split; [vm_compute; reflexivity|].
  split; [vm_compute; reflexivity|]. split; [vm_compute; reflexivity|].
  destruct (scanLoop splitDoc 8 20
              (mkScan (newStyleContext splitDoc 1 7
                         (StyleAt (stored firstCall (freshStyles splitDoc))
                            0)) 0 false false)) as [s|] eqn:E;
    [|vm_compute in E; discriminate E].
  exists s. split; [reflexivity|].
  vm_compute in E. injection E as <-.
  split; vm_compute; reflexivity.
Qed.

(** ** Blockquotes *)

(** C3, counterexample to the statement of the specification.  In "> # H"
    scanned whole from DEFAULT nothing is BLOCKQUOTE or HEADER1: the line is
    DEFAULT and its newline LINE_BEGIN.  After an empty line the '>' is
    BLOCKQUOTE and the space PRECHAR, yet "# H" is DEFAULT.  And BLOCKQUOTE
    at the top of an iteration whose character is a backslash is still
    BLOCKQUOTE after it. *)
Lemma quoted_header_not_recognised :
  ColorizeMarkdownDoc 20 quoteDoc (freshStyles quoteDoc) 0 6
    SCE_MARKDOWN_DEFAULT
  = Some (mkResult 0 [(4, SCE_MARKDOWN_DEFAULT); (5, SCE_MARKDOWN_LINE_BEGIN)])
  /\
  ColorizeMarkdownDoc 20 quoteDoc' (freshStyles quoteDoc') 0 7
    SCE_MARKDOWN_DEFAULT
  = Some (mkResult 0 [ (0, SCE_MARKDOWN_LINE_BEGIN);
                       (1, SCE_MARKDOWN_BLOCKQUOTE); (2, SCE_MARKDOWN_PRECHAR);
                       (5, SCE_MARKDOWN_DEFAULT);
                       (6, SCE_MARKDOWN_LINE_BEGIN) ])
  /\
  state (cursor afterMarkerEsc) = SCE_MARKDOWN_BLOCKQUOTE /\
  ch (cursor afterMarkerEsc) = BACKSLASH /\
  state (cursor (loopBody quoteEscDoc 4 afterMarkerEsc))
  = SCE_MARKDOWN_BLOCKQUOTE.
Proof. repeat split; vm_compute; reflexivity. Qed.

(** C3, as amended.  BLOCKQUOTE at the top of an iteration whose character
    is not a backslash is replaced by LINE_BEGIN before any other rule, so
    that this character, the one after the blockquote marker, is offered to
    the rules of LINE_BEGIN; in ">#H" after an empty line the '>' is
    BLOCKQUOTE and "#H" is HEADER1 up to the newline. *)
Theorem blockquote_reentry (doc : Document) (endPos : Z) (s : ScanState)
  (Hq : state (cursor s) = SCE_MARKDOWN_BLOCKQUOTE)
  (Hesc : ch (cursor s) <> BACKSLASH) :
  loopBody doc endPos s
  = advance doc
      (defaultRules doc endPos
         (linkRules doc
            (precharRules doc endPos
               (lineBeginRules doc endPos
                  (with_cursor (SetState SCE_MARKDOWN_LINE_BEGIN (cursor s))
                     s))))) /\
  ColorizeMarkdownDoc 20 quoteDocTight (freshStyles quoteDocTight) 0 5
    SCE_MARKDOWN_DEFAULT
  = Some (mkResult 0 [ (0, SCE_MARKDOWN_LINE_BEGIN);
                       (1, SCE_MARKDOWN_BLOCKQUOTE); (3, SCE_MARKDOWN_HEADER1);
                       (4, SCE_MARKDOWN_LINE_BEGIN) ]).
Proof.
  split; [|vm_compute; reflexivity].
  unfold loopBody. apply Z.eqb_neq in Hesc. rewrite Hesc.
  unfold blockquoteRule. rewrite Hq.
  change (SCE_MARKDOWN_BLOCKQUOTE =? SCE_MARKDOWN_BLOCKQUOTE) with true.
  cbv iota.
  set (s' := with_cursor (SetState SCE_MARKDOWN_LINE_BEGIN (cursor s)) s).
  replace (stateRules doc endPos s') with (lineBeginRules doc endPos s');
    [reflexivity|].
  unfold stateRules. cbv zeta.
  replace (state (cursor s')) with SCE_MARKDOWN_LINE_BEGIN by reflexivity.
  reflexivity.
Qed.

Lemma blockquote_reentry_witness :
  state (cursor afterMarker) = SCE_MARKDOWN_BLOCKQUOTE /\
  ch (cursor afterMarker) = chr "#" /\
  state (cursor (loopBody quoteDocTight 5 afterMarker)) = SCE_MARKDOWN_HEADER1.
Proof.
  split; [vm_compute; reflexivity|]. split; [vm_compute; reflexivity|].
  rewrite (proj1 (blockquote_reentry quoteDocTight 5 afterMarker
                    ltac:(vm_compute; reflexivity)
                    ltac:(vm_compute; discriminate))).
  vm_compute. reflexivity.
Defined.

(** ** Code spans *)

Lemma state_advance (doc : Document) (s : ScanState) :
  state (cursor (advance doc s)) = state (cursor s).
Proof.
  unfold advance. cbn [cursor].
  destruct (freezeCursor s); [reflexivity | apply state_Forward].
Qed.

Lemma precharRules_inactive (doc : Document) (endPos : Z) (s : ScanState) :
  state (cursor s) <> SCE_MARKDOWN_PRECHAR -> precharRules doc endPos s = s.
Proof.
  intros H. unfold precharRules. cbv zeta. apply Z.eqb_neq in H.
  rewrite H. reflexivity.
Qed.

Lemma defaultRules_inactive (doc : Document) (endPos : Z) (s : ScanState) :
  state (cursor s) <> SCE_MARKDOWN_DEFAULT -> defaultRules doc endPos s = s.
Proof.
  intros H. unfold defaultRules. cbv zeta. apply Z.eqb_neq in H.
  rewrite H. reflexivity.
Qed.

(** The rules of DEFAULT open CODE and CODE2 at a term start only. *)
Lemma defaultRules_opens_code (doc : Document) (endPos : Z) (s : ScanState) :
  state (cursor s) = SCE_MARKDOWN_DEFAULT ->
  (state (cursor (defaultRules doc endPos s)) = SCE_MARKDOWN_CODE ->
   AtTermStart (cursor s) = true) /\
  (state (cursor (defaultRules doc endPos s)) = SCE_MARKDOWN_CODE2 ->
   Match doc (bytes "```") (cursor s) && AtTermStart (cursor s) = true).
Proof.
  intros H. unfold defaultRules. cbv zeta. rewrite H.
  change (SCE_MARKDOWN_DEFAULT =? SCE_MARKDOWN_DEFAULT) with true. cbv iota.
  repeat match goal with
  | |- context [if ?b then _ else _] => destruct b eqn:?
  end; cbn [cursor with_cursor]; rewrite ?state_Forward, ?state_SetState, ?H;
    split; intros E; try discriminate E; try reflexivity.
  match goal with
  | X : _ && _ && AtTermStart _ = true |- _ =>
      apply andb_true_iff in X; apply X
  end.
Qed.

(** Past a backtick that the cursor has just left there is no term start. *)
Lemma no_term_start_after (doc : Document) (sc : StyleContext) :
  More sc = true -> 0 <= currentPos sc -> ch sc = chr "`" ->
  AtTermStart (Forward doc sc) = false.
Proof.
  unfold More, Forward, AtTermStart. intros HM Hp Hc. rewrite HM.
  cbn [currentPos chPrev]. rewrite Hc.
  replace (currentPos sc + 1 =? 0) with false
    by (symmetry; apply Z.eqb_neq; lia).
  reflexivity.
Qed.

(** [Forward()] inside the range and at its end. *)
Lemma Forward_inside (doc : Document) (sc : StyleContext) :
  currentPos sc < sc_endPos sc ->
  currentPos (Forward doc sc) = currentPos sc + 1 /\
  sc_endPos (Forward doc sc) = sc_endPos sc /\
  chPrev (Forward doc sc) = ch sc /\
  ch (Forward doc sc) = chNext sc /\
  chNext (Forward doc sc) = SafeGetCharAt doc (currentPos sc + 2) 0.
Proof.
  intros H. apply Z.ltb_lt in H. unfold Forward. rewrite H.
  cbn [currentPos sc_endPos chPrev ch chNext].
  replace (currentPos sc + 1 + 1) with (currentPos sc + 2) by lia.
  repeat split.
Qed.

Lemma Forward_at_end (doc : Document) (sc : StyleContext) :
  sc_endPos sc <= currentPos sc ->
  currentPos (Forward doc sc) = currentPos sc /\
  sc_endPos (Forward doc sc) = sc_endPos sc /\
  chPrev (Forward doc sc) = SPACE /\
  ch (Forward doc sc) = SPACE.
Proof.
  intros H. apply Z.ltb_ge in H. unfold Forward. rewrite H.
  repeat split.
Qed.

(** After [Forward(3)] over a fence either the cursor was stopped by the end
    of the range, and reads a space, or it stands right after a backtick. *)
Lemma no_fence_after_fence (doc : Document) (sc : StyleContext) :
  More sc = true -> 0 <= currentPos sc ->
  Match doc (bytes "```") sc = true ->
  let sc' := ForwardN doc 3 sc in
  Match doc (bytes "```") sc' && AtTermStart sc' = false.
Proof.
  intros HM Hp HMatch.
  change (bytes "```") with [96; 96; 96] in *.
  unfold Match, matchFrom, GetRelative in HMatch.
  apply andb_true_iff in HMatch. destruct HMatch as [H01 H2].
  apply andb_true_iff in H01. destruct H01 as [H0 H1].
  apply andb_true_iff in H2. destruct H2 as [H2 _].
  apply Z.eqb_eq in H0, H1, H2.
  unfold More in HM. apply Z.ltb_lt in HM.
  change (ForwardN doc 3 sc) with (Forward doc (Forward doc (Forward doc sc))).
  cbv zeta.
  destruct (Forward_inside doc sc HM) as (P1 & E1 & _ & C1 & N1).
  set (sc1 := Forward doc sc) in *.
  assert (Hspace : forall c, ch c = SPACE ->
                     Match doc [96; 96; 96] c && AtTermStart c = false).
  { intros c Hc. unfold Match. rewrite Hc. reflexivity. }
  destruct (Z.lt_ge_cases (currentPos sc1) (sc_endPos sc1)) as [L1|L1].
  - destruct (Forward_inside doc sc1 L1) as (P2 & E2 & _ & C2 & _).
    set (sc2 := Forward doc sc1) in *.
    destruct (Z.lt_ge_cases (currentPos sc2) (sc_endPos sc2)) as [L2|L2].
    + destruct (Forward_inside doc sc2 L2) as (P3 & _ & V3 & _ & _).
      apply andb_false_iff. right. unfold AtTermStart.
      rewrite P3, V3, C2, N1, P2, P1, <- H2.
      replace (currentPos sc + 1 + 1 + 1 =? 0) with false
        by (symmetry; apply Z.eqb_neq; lia).
      reflexivity.
    + apply Hspace. apply (Forward_at_end doc sc2 L2).
  - assert (L2 : sc_endPos (Forward doc sc1) <= currentPos (Forward doc sc1)).
    { destruct (Forward_at_end doc sc1 L1) as (Q & R & _). lia. }
    apply Hspace. apply (Forward_at_end doc _ L2).
Qed.

Lemma blockquoteRule_inactive (s : ScanState) :
  state (cursor s) <> SCE_MARKDOWN_BLOCKQUOTE -> blockquoteRule s = s.
Proof.
  intros H. unfold blockquoteRule. apply Z.eqb_neq in H. rewrite H.
  reflexivity.
Qed.

Lemma stateRules_CODE (doc : Document) (endPos : Z) (s : ScanState) :
  state (cursor s) = SCE_MARKDOWN_CODE ->
  stateRules doc endPos s
  = if (ch (cursor s) =? chr "`") && negb (chPrev (cursor s) =? SPACE)
    then with_cursor (ForwardSetState doc SCE_MARKDOWN_DEFAULT (cursor s)) s
    else s.
Proof. intros H. unfold stateRules. cbv zeta. rewrite H. reflexivity. Qed.

Lemma stateRules_CODE2 (doc : Document) (endPos : Z) (s : ScanState) :
  state (cursor s) = SCE_MARKDOWN_CODE2 ->
  stateRules doc endPos s
  = if Match doc (bytes "```") (cursor s)
    then with_cursor (SetState SCE_MARKDOWN_DEFAULT
                        (ForwardN doc 3 (cursor s))) s
    else s.
Proof. intros H. unfold stateRules. cbv zeta. rewrite H. reflexivity. Qed.

(** The rest of an iteration after the state rules, for a classification
    that neither the prefix rules, nor the link rules, nor the rules of
    DEFAULT apply to. *)
Lemma rest_inactive (doc : Document) (endPos : Z) (s : ScanState) :
  state (cursor s) <> SCE_MARKDOWN_PRECHAR ->
  state (cursor s) <> SCE_MARKDOWN_LINK ->
  state (cursor s) <> SCE_MARKDOWN_DEFAULT ->
  state (cursor (advance doc (defaultRules doc endPos (linkRules doc
           (precharRules doc endPos s))))) = state (cursor s).
Proof.
  intros H1 H2 H3.
  rewrite precharRules_inactive, linkRules_inactive, defaultRules_inactive
    by assumption.
  apply state_advance.
Qed.

(** C5, counterexample to the statement of the specification.  In "``` a
    ```x" the closing fence at offset 6 follows a space, the classification
    there is CODE2, and the span closes on it all the same: CODE2 ends at
    offset 8 and the 'x' is DEFAULT. *)
Lemma fence_after_space_closes :
  state (cursor atClosingFence) = SCE_MARKDOWN_CODE2 /\
  currentPos (cursor atClosingFence) = 6 /\
  chPrev (cursor atClosingFence) = SPACE /\
  state (cursor (loopBody spacedCodeDoc 10 atClosingFence))
  = SCE_MARKDOWN_DEFAULT /\
  ColorizeMarkdownDoc 20 spacedCodeDoc (freshStyles spacedCodeDoc) 0 10
    SCE_MARKDOWN_DEFAULT
  = Some (mkResult 0 [(8, SCE_MARKDOWN_CODE2); (9, SCE_MARKDOWN_DEFAULT)]).
Proof. repeat split; vm_compute; reflexivity. Qed.

(** C5, as amended.  At the top of an iteration inside the range, on a
    character that does not follow a backslash: in CODE the span closes
    exactly when the character is a backtick and the one before it is not a
    space; in CODE2 it closes exactly when the three characters at the
    cursor are backticks, whatever precedes them. *)
Theorem code_span_closing (doc : Document) (endPos : Z) (s : ScanState)
  (Hin : More (cursor s) = true) (Hpos : 0 <= currentPos (cursor s))
  (Hunesc : chPrev (cursor s) <> BACKSLASH) :
  (state (cursor s) = SCE_MARKDOWN_CODE ->
   (state (cursor (loopBody doc endPos s)) <> SCE_MARKDOWN_CODE <->
    ch (cursor s) = chr "`" /\ chPrev (cursor s) <> SPACE)) /\
  (state (cursor s) = SCE_MARKDOWN_CODE2 ->
   (state (cursor (loopBody doc endPos s)) <> SCE_MARKDOWN_CODE2 <->
    Match doc (bytes "```") (cursor s) = true)).
Proof.
  split; intros Hst.
  - unfold loopBody. destruct (ch (cursor s) =? BACKSLASH) eqn:Hb.
    + apply Z.eqb_eq in Hb. cbn [cursor with_cursor].
      rewrite state_Forward, Hst, Hb. split; [intros H; now elim H|].
      intros [H _]. discriminate H.
    + rewrite blockquoteRule_inactive by (rewrite Hst; discriminate).
      rewrite stateRules_CODE by exact Hst.
      destruct (ch (cursor s) =? chr "`") eqn:Hc;
        [destruct (chPrev (cursor s) =? SPACE) eqn:Hs|]; cbn [andb negb].
      * rewrite rest_inactive by (rewrite Hst; discriminate).
        apply Z.eqb_eq in Hs. split; [intros H; now elim H|].
        intros [_ H]. contradiction.
      * apply Z.eqb_eq in Hc. apply Z.eqb_neq in Hs.
        split; [intros _; split; assumption|]. intros _.
        set (s1 := with_cursor _ s).
        rewrite precharRules_inactive, linkRules_inactive
          by (subst s1; cbn [cursor with_cursor]; unfold notLink;
              discriminate).
        rewrite state_advance. intros E.
        apply (defaultRules_opens_code doc endPos s1 eq_refl) in E.
        subst s1. cbn [cursor with_cursor] in E.
        change (AtTermStart (Forward doc (cursor s)) = true) in E.
        rewrite (no_term_start_after doc (cursor s) Hin Hpos Hc) in E.
        discriminate E.
      * rewrite rest_inactive by (rewrite Hst; discriminate).
        apply Z.eqb_neq in Hc. split; [intros H; now elim H|].
        intros [H _]. contradiction.
  - unfold loopBody. destruct (ch (cursor s) =? BACKSLASH) eqn:Hb.
    + apply Z.eqb_eq in Hb. cbn [cursor with_cursor].
      rewrite state_Forward, Hst. split; [intros H; now elim H|].
      intros H. change (bytes "```") with [96; 96; 96] in H.
      unfold Match in H. rewrite Hb in H. discriminate H.
    + rewrite blockquoteRule_inactive by (rewrite Hst; discriminate).
      rewrite stateRules_CODE2 by exact Hst.
      destruct (Match doc (bytes "```") (cursor s)) eqn:Hm.
      * split; [reflexivity|]. intros _.
        set (s1 := with_cursor _ s).
        rewrite precharRules_inactive, linkRules_inactive
          by (subst s1; cbn [cursor with_cursor]; unfold notLink;
              discriminate).
        rewrite state_advance. intros E.
        apply (defaultRules_opens_code doc endPos s1 eq_refl) in E.
        subst s1. cbn [cursor with_cursor] in E.
        pose proof (no_fence_after_fence doc (cursor s) Hin Hpos Hm) as N.
        cbv zeta in N.
        change (Match doc (bytes "```") (ForwardN doc 3 (cursor s))
                && AtTermStart (ForwardN doc 3 (cursor s)) = true) in E.
        rewrite N in E. discriminate E.
      * rewrite rest_inactive by (rewrite Hst; discriminate).
        split; [intros H; now elim H | discriminate].
Qed.

Lemma code_span_closing_witness :
  state (cursor atClosingBacktick) = SCE_MARKDOWN_CODE /\
  state (cursor (loopBody codeDoc 4 atClosingBacktick)) <> SCE_MARKDOWN_CODE.
Proof.
  split; [vm_compute; reflexivity|].
  apply (proj1 (code_span_closing codeDoc 4 atClosingBacktick
                  ltac:(vm_compute; reflexivity)
                  ltac:(vm_compute; discriminate)
                  ltac:(vm_compute; discriminate))).
  - vm_compute. reflexivity.
  - split; vm_compute; [reflexivity | discriminate].
Defined.

(** ** The reads of the predicates *)

Lemma Forall_app_intro {A : Type} (Q : A -> Prop) (l l' : list A) :
  Forall Q l -> Forall Q l' -> Forall Q (l ++ l').
Proof. intros H H'. apply Forall_app. split; assumption. Qed.

(** An invariant of the loop variable and a property of the offsets read by
    the condition carry over to the whole loop. *)
Lemma whileR_invariant {S : Type} (I : S -> Prop) (Q : Z -> Prop)
  (cond : S -> Rd bool) (body : S -> S) :
  (forall s, I s -> Forall Q (reads (cond s))) ->
  (forall s, I s -> result (cond s) = true -> I (body s)) ->
  forall fuel s, I s ->
    Forall Q (reads (whileR fuel cond body s)) /\
    I (result (whileR fuel cond body s)).
Proof.
  intros Hc Hb. induction fuel as [|n IH]; intros s Hs; cbn [whileR].
  - split; [constructor | exact Hs].
  - rewrite reads_bind, result_bind.
    destruct (result (cond s)) eqn:E.
    + destruct (IH (body s) (Hb s Hs E)) as [R1 R2].
      split; [apply Forall_app_intro; auto | exact R2].
    + split; [apply Forall_app_intro; auto; constructor | exact Hs].
Qed.

Lemma backToNewline_reads (doc : Document) (sc : StyleContext) (fuel : nat) :
  Forall (fun p => p < currentPos sc) (reads (backToNewline doc fuel sc)) /\
  result (backToNewline doc fuel sc) <= -1.
Proof.
  unfold backToNewline.
  apply (whileR_invariant (fun i => i <= -1) (fun p => p < currentPos sc)).
  - intros i Hi. destruct (0 <=? i + currentPos sc); [|constructor].
    rewrite reads_bind. apply Forall_app_intro; repeat constructor. lia.
  - intros i Hi _. lia.
  - lia.
Qed.

Lemma prevLineScan_reads (doc : Document) (sc : StyleContext) :
  forall fuel i, i <= -1 ->
    Forall (fun p => p < currentPos sc) (reads (prevLineScan doc fuel sc i)).
Proof.
  induction fuel as [|n IH]; intros i Hi; cbn [prevLineScan]; [constructor|].
  destruct (0 <=? i + currentPos sc); [|constructor].
  rewrite reads_bind, result_GetRelativeR.
  apply Forall_app_intro; [repeat constructor; lia|].
  destruct (IsNewline (GetRelative doc sc i)); [constructor|].
  rewrite reads_bind, result_GetRelativeR.
  apply Forall_app_intro; [repeat constructor; lia|].
  destruct (negb (IsASpaceOrTab (GetRelative doc sc i))); [constructor|].
  apply IH. lia.
Qed.

Lemma HasPrevLineContent_reads (doc : Document) (sc : StyleContext) :
  Forall (fun p => p < currentPos sc) (reads (HasPrevLineContent doc sc)).
Proof.
  unfold HasPrevLineContent. cbv zeta.
  destruct (backToNewline_reads doc sc (loopFuel doc 0 sc)) as [R Hi].
  rewrite reads_bind. apply Forall_app_intro; [exact R|].
  set (i := result (backToNewline doc (loopFuel doc 0 sc) sc)) in *.
  rewrite reads_bind. apply Forall_app_intro; [repeat constructor; lia|].
  rewrite reads_bind. apply Forall_app_intro; [repeat constructor; lia|].
  apply prevLineScan_reads.
  destruct (_ && _); lia.
Qed.

Lemma IsPrevLineEmpty_reads (doc : Document) (sc : StyleContext) :
  Forall (fun p => p < currentPos sc) (reads (IsPrevLineEmpty doc sc)).
Proof.
  unfold IsPrevLineEmpty. cbv zeta.
  destruct (backToNewline_reads doc sc (loopFuel doc 0 sc)) as [R Hi].
  rewrite reads_bind. apply Forall_app_intro; [exact R|].
  set (i := result (backToNewline doc (loopFuel doc 0 sc) sc)) in *.
  rewrite reads_bind. apply Forall_app_intro; [repeat constructor; lia|].
  rewrite reads_bind. apply Forall_app_intro; [repeat constructor; lia|].
  rewrite reads_bind. apply Forall_app_intro; [|constructor].
  repeat constructor.
  destruct (_ && _); [|destruct (_ || _)]; lia.
Qed.

(** C6, counterexample to the statement of the specification.  With the end
    offset 3: IsUnderlinedHeader at offset 0 of a title reads offset 3, and
    its answer turns on the character there; FollowToLineEnd at offset 2 of
    an underline reads offsets 3 and 4; IsValidHrule at offset 1 of a rule
    reads offsets 3 and 4 and counts the marker at offset 3. *)
Lemma forward_predicates_read_past_end :
  reads (IsUnderlinedHeader titleDoc (chr "=") 3
           (newStyleContext titleDoc 0 3 SCE_MARKDOWN_DEFAULT))
  = [0; 1; 2; 2; 3; 3; 3] /\
  result (IsUnderlinedHeader titleDoc (chr "=") 3
            (newStyleContext titleDoc 0 3 SCE_MARKDOWN_DEFAULT)) = true /\
  result (IsUnderlinedHeader titleDoc' (chr "=") 3
            (newStyleContext titleDoc' 0 3 SCE_MARKDOWN_DEFAULT)) = false /\
  reads (FollowToLineEnd underlineDoc (chr "=") SCE_MARKDOWN_HEADER1 3
           (newStyleContext underlineDoc 2 1 SCE_MARKDOWN_LINE_BEGIN))
  = [3; 4; 4; 4] /\
  reads (IsValidHrule ruleDoc 3
           (newStyleContext ruleDoc 1 2 SCE_MARKDOWN_PRECHAR))
  = [2; 3; 4; 0; 0; -1] /\
  fst (result (IsValidHrule ruleDoc 3
                 (newStyleContext ruleDoc 1 2 SCE_MARKDOWN_PRECHAR))) = true.
Proof. repeat split; vm_compute; reflexivity. Qed.

(** C6, as amended.  The backward predicates, HasPrevLineContent and
    IsPrevLineEmpty, read below the cursor only, hence below the end offset
    whenever the cursor has not passed it. *)
Theorem backward_predicates_read_below_end (doc : Document)
  (sc : StyleContext) (endPos : Z) (Hcur : currentPos sc <= endPos) :
  Forall (fun p => p < endPos) (reads (HasPrevLineContent doc sc)) /\
  Forall (fun p => p < endPos) (reads (IsPrevLineEmpty doc sc)).
Proof.
  split; eapply Forall_impl;
    try apply HasPrevLineContent_reads; try apply IsPrevLineEmpty_reads;
    cbv beta; intros; lia.
Qed.

Lemma backward_predicates_read_below_end_witness :
  currentPos secondLineCursor <= 6 /\
  Forall (fun p => p < 6) (reads (HasPrevLineContent titleDoc secondLineCursor))
  /\ reads (HasPrevLineContent titleDoc secondLineCursor) = [2; 2; 1; 1; 1].
Proof.
  split; [vm_compute; discriminate|].
  split; [|vm_compute; reflexivity].
  apply (backward_predicates_read_below_end titleDoc secondLineCursor 6).
  vm_compute. discriminate.
Defined.

(** ** The horizontal rule *)

(** The loop of IsValidHrule, entered [n] characters before the end offset
    with more than [n] tests to go, against the run of the specification. *)
Lemma hruleLoop_run (doc : Document) (endPos : Z) (sc : StyleContext)
  (Hmark : SafeGetCharAt doc endPos 0 <> ch sc) :
  forall n fuel i count,
  (n < fuel)%nat ->
  currentPos sc + i + 1 + Z.of_nat n = endPos ->
  result (hruleLoop doc fuel endPos sc i count)
  = let l := charsFrom doc (currentPos sc + i + 1) n in
    if ruleRun (ch sc) l count && negb (result (HasPrevLineContent doc sc))
    then (true, SetState SCE_MARKDOWN_LINE_BEGIN
                  (ForwardN doc (i + 1 + runLength (ch sc) l)
                     (SetState SCE_MARKDOWN_HRULE sc)))
    else (false, SetState SCE_MARKDOWN_DEFAULT sc).
Proof.
  induction n as [|k IH]; intros fuel i count Hf Hn;
    (destruct fuel as [|f]; [lia|]); cbn [hruleLoop]; cbv zeta;
    rewrite result_bind, result_GetRelativeR; unfold GetRelative;
    replace (currentPos sc + (i + 1)) with (currentPos sc + i + 1) by lia.
  - cbn [charsFrom ruleRun runLength].
    replace (currentPos sc + i + 1) with endPos by lia.
    apply Z.eqb_neq in Hmark. rewrite Hmark, Z.eqb_refl.
    rewrite !orb_true_r. cbn [andb].
    rewrite Z.add_0_r.
    destruct (3 <=? count); cbn [andb].
    + rewrite result_bind.
      destruct (negb (result (HasPrevLineContent doc sc))); reflexivity.
    + reflexivity.
  - cbn [charsFrom ruleRun runLength].
    set (c := SafeGetCharAt doc (currentPos sc + i + 1) 0).
    assert (Hne : (currentPos sc + i + 1 =? endPos) = false)
      by (apply Z.eqb_neq; lia).
    rewrite Hne, !orb_false_r.
    destruct (c =? ch sc) eqn:Ec.
    + cbn [orb]. rewrite (IH f (i + 1) (count + 1)) by lia. cbv zeta.
      replace (currentPos sc + (i + 1) + 1) with (currentPos sc + i + 1 + 1)
        by lia.
      replace (i + 1 + 1 + runLength (ch sc)
                 (charsFrom doc (currentPos sc + i + 1 + 1) k))
        with (i + 1 + (1 + runLength (ch sc)
                 (charsFrom doc (currentPos sc + i + 1 + 1) k))) by lia.
      reflexivity.
    + cbn [orb]. destruct (IsASpaceOrTab c) eqn:Es; cbn [negb].
      * rewrite (IH f (i + 1) count) by lia. cbv zeta.
        replace (currentPos sc + (i + 1) + 1) with (currentPos sc + i + 1 + 1)
          by lia.
        replace (i + 1 + 1 + runLength (ch sc)
                   (charsFrom doc (currentPos sc + i + 1 + 1) k))
          with (i + 1 + (1 + runLength (ch sc)
                   (charsFrom doc (currentPos sc + i + 1 + 1) k))) by lia.
        reflexivity.
      * rewrite Z.add_0_r.
        destruct (IsNewline c && (3 <=? count)); cbn [andb].
        -- rewrite result_bind.
           destruct (negb (result (HasPrevLineContent doc sc))); reflexivity.
        -- reflexivity.
Qed.

(** C8, counterexample to the statement of the specification.  A rule on the
    very first line of a document, scanned from DEFAULT, is DEFAULT, not
    HRULE.  With the end offset 3 inside a rule, two markers lie before the
    end offset and IsValidHrule succeeds all the same, counting the marker
    at the end offset.  And on failure the span that the predicate closes,
    the space before the cursor at offset 1, is PRECHAR, not DEFAULT. *)
Lemma rule_on_first_line_is_default :
  ColorizeMarkdownDoc 20 firstLineRule (freshStyles firstLineRule) 0 4
    SCE_MARKDOWN_DEFAULT
  = Some (mkResult 0 [(2, SCE_MARKDOWN_DEFAULT); (3, SCE_MARKDOWN_LINE_BEGIN)])
  /\
  fst (result (IsValidHrule ruleDoc 3
                 (newStyleContext ruleDoc 1 2 SCE_MARKDOWN_PRECHAR))) = true /\
  validHruleSpec ruleDoc 3 (newStyleContext ruleDoc 1 2 SCE_MARKDOWN_PRECHAR)
  = false /\
  state (cursor atBrokenRule) = SCE_MARKDOWN_PRECHAR /\
  ch (cursor atBrokenRule) = chr "-" /\
  fst (result (IsValidHrule brokenRule 4 (cursor atBrokenRule))) = false /\
  spans (styler (snd (result (IsValidHrule brokenRule 4
                                (cursor atBrokenRule)))))
  = [(0, SCE_MARKDOWN_LINE_BEGIN); (1, SCE_MARKDOWN_PRECHAR)].
Proof. repeat split; vm_compute; reflexivity. Qed.

Lemma charsFrom_length (doc : Document) (n : nat) :
  forall p, List.length (charsFrom doc p n) = n.
Proof.
  induction n as [|k IH]; intros p; cbn [charsFrom List.length];
    [reflexivity|].
  rewrite IH. reflexivity.
Qed.

Lemma runLength_bound (marker : Z) (l : list Z) :
  0 <= runLength marker l <= Z.of_nat (List.length l).
Proof.
  induction l as [|c t IH]; cbn [runLength List.length]; [lia|].
  destruct ((c =? marker) || IsASpaceOrTab c); lia.
Qed.

(** The loop of IsValidHrule past the end offset, [S n] characters before
    the end of the document: the end offset plays no part any more. *)
Lemma hruleLoop_past (doc : Document) (endPos : Z) (sc : StyleContext)
  (Hch : ch sc <> 0) :
  forall n fuel i count,
  (S n < fuel)%nat ->
  endPos < currentPos sc + i + 1 ->
  currentPos sc + i + 1 + Z.of_nat n = Length doc ->
  result (hruleLoop doc fuel endPos sc i count)
  = let l := charsFrom doc (currentPos sc + i + 1) (S n) in
    if ruleRun (ch sc) l count && negb (result (HasPrevLineContent doc sc))
    then (true, SetState SCE_MARKDOWN_LINE_BEGIN
                  (ForwardN doc (i + 1 + runLength (ch sc) l)
                     (SetState SCE_MARKDOWN_HRULE sc)))
    else (false, SetState SCE_MARKDOWN_DEFAULT sc).
Proof.
  induction n as [|k IH]; intros fuel i count Hf Hpast Hn;
    (destruct fuel as [|f]; [lia|]); cbn [hruleLoop]; cbv zeta;
    rewrite result_bind, result_GetRelativeR; unfold GetRelative;
    replace (currentPos sc + (i + 1)) with (currentPos sc + i + 1) by lia;
    assert (Hne : (currentPos sc + i + 1 =? endPos) = false)
      by (apply Z.eqb_neq; lia);
    rewrite Hne, !orb_false_r.
  - cbn [charsFrom ruleRun runLength].
    assert (E0 : SafeGetCharAt doc (currentPos sc + i + 1) 0 = 0).
    { unfold SafeGetCharAt.
      replace (Length doc <=? currentPos sc + i + 1) with true
        by (symmetry; apply Z.leb_le; lia).
      rewrite orb_true_r. reflexivity. }
    rewrite E0.
    replace (0 =? ch sc) with false
      by (symmetry; apply Z.eqb_neq; intros H; apply Hch; symmetry; exact H).
    reflexivity.
  - cbn [charsFrom ruleRun runLength].
    set (c := SafeGetCharAt doc (currentPos sc + i + 1) 0).
    destruct (c =? ch sc) eqn:Ec.
    + cbn [orb]. rewrite (IH f (i + 1) (count + 1)) by lia. cbv zeta.
      replace (currentPos sc + (i + 1) + 1) with (currentPos sc + i + 1 + 1)
        by lia.
      cbn [charsFrom].
      set (l := SafeGetCharAt doc (currentPos sc + i + 1 + 1) 0
                :: charsFrom doc (currentPos sc + i + 1 + 1 + 1) k).
      replace (i + 1 + 1 + runLength (ch sc) l)
        with (i + 1 + (1 + runLength (ch sc) l)) by lia.
      reflexivity.
    + cbn [orb]. destruct (IsASpaceOrTab c) eqn:Es; cbn [negb].
      * rewrite (IH f (i + 1) count) by lia. cbv zeta.
        replace (currentPos sc + (i + 1) + 1)
          with (currentPos sc + i + 1 + 1) by lia.
        cbn [charsFrom].
        set (l := SafeGetCharAt doc (currentPos sc + i + 1 + 1) 0
                  :: charsFrom doc (currentPos sc + i + 1 + 1 + 1) k).
        replace (i + 1 + 1 + runLength (ch sc) l)
          with (i + 1 + (1 + runLength (ch sc) l)) by lia.
        reflexivity.
      * rewrite Z.add_0_r.
        destruct (IsNewline c && (3 <=? count)); cbn [andb].
        -- rewrite result_bind.
           destruct (negb (result (HasPrevLineContent doc sc))); reflexivity.
        -- reflexivity.
Qed.

(** The loop of IsValidHrule, entered [n] characters before the end offset:
    the run of the specification, over the characters up to the end offset
    or, when the run reaches a marker at the end offset, up to the end of
    the document. *)
Lemma hruleLoop_upto (doc : Document) (endPos : Z) (sc : StyleContext)
  (Hch : ch sc <> 0) :
  forall n fuel i count,
  (n + Z.to_nat (Length doc + 1 - endPos) < fuel)%nat ->
  currentPos sc + i + 1 + Z.of_nat n = endPos ->
  result (hruleLoop doc fuel endPos sc i count)
  = let l :=
      if (runLength (ch sc) (charsFrom doc (currentPos sc + i + 1) n)
          =? Z.of_nat n)
         && (SafeGetCharAt doc endPos 0 =? ch sc)
      then charsFrom doc (currentPos sc + i + 1)
             (n + Z.to_nat (Length doc + 1 - endPos))
      else charsFrom doc (currentPos sc + i + 1) n in
    if ruleRun (ch sc) l count && negb (result (HasPrevLineContent doc sc))
    then (true, SetState SCE_MARKDOWN_LINE_BEGIN
                  (ForwardN doc (i + 1 + runLength (ch sc) l)
                     (SetState SCE_MARKDOWN_HRULE sc)))
    else (false, SetState SCE_MARKDOWN_DEFAULT sc).
Proof.
  induction n as [|k IH]; intros fuel i count Hf Hn.
  - cbn [charsFrom runLength Nat.add]. change (Z.of_nat 0) with 0.
    rewrite Z.eqb_refl. cbn [andb].
    assert (Hi : currentPos sc + i + 1 = endPos) by lia. rewrite Hi.
    destruct (SafeGetCharAt doc endPos 0 =? ch sc) eqn:Em.
    + apply Z.eqb_eq in Em.
      assert (Hin : 0 <= endPos < Length doc).
      { unfold SafeGetCharAt in Em.
        destruct (endPos <? 0) eqn:E1;
          [cbn [orb] in Em; exfalso; apply Hch; symmetry; exact Em|].
        destruct (Length doc <=? endPos) eqn:E2;
          [cbn [orb] in Em; exfalso; apply Hch; symmetry; exact Em|].
        apply Z.ltb_ge in E1. apply Z.leb_gt in E2. lia. }
      destruct (Z.to_nat (Length doc + 1 - endPos)) as [|[|m]] eqn:Em2;
        try lia.
      destruct fuel as [|f]; [lia|]. cbn [hruleLoop]. cbv zeta.
      rewrite result_bind, result_GetRelativeR. unfold GetRelative.
      replace (currentPos sc + (i + 1)) with endPos by lia.
      rewrite Em, Z.eqb_refl.
      rewrite (hruleLoop_past doc endPos sc Hch m f (i + 1) (count + 1))
        by lia.
      cbv zeta.
      replace (currentPos sc + (i + 1) + 1) with (endPos + 1) by lia.
      change (charsFrom doc endPos (S (S m)))
        with (SafeGetCharAt doc endPos 0 :: charsFrom doc (endPos + 1) (S m)).
      cbn [ruleRun runLength]. rewrite Em, Z.eqb_refl.
      cbn [orb].
      set (l := charsFrom doc (endPos + 1) (S m)).
      replace (i + 1 + 1 + runLength (ch sc) l)
        with (i + 1 + (1 + runLength (ch sc) l)) by lia.
      reflexivity.
    + destruct fuel as [|f]; [lia|]. cbn [hruleLoop]. cbv zeta.
      rewrite result_bind, result_GetRelativeR. unfold GetRelative.
      replace (currentPos sc + (i + 1)) with endPos by lia.
      rewrite Em, Z.eqb_refl. rewrite !orb_true_r. cbn [andb].
      cbn [charsFrom ruleRun runLength]. rewrite Z.add_0_r.
      destruct (3 <=? count); cbn [andb].
      * rewrite result_bind.
        destruct (negb (result (HasPrevLineContent doc sc))); reflexivity.
      * reflexivity.
  - destruct fuel as [|f]; [lia|]. cbn [hruleLoop]. cbv zeta.
    rewrite result_bind, result_GetRelativeR. unfold GetRelative.
    replace (currentPos sc + (i + 1)) with (currentPos sc + i + 1) by lia.
    assert (Hne : (currentPos sc + i + 1 =? endPos) = false)
      by (apply Z.eqb_neq; lia).
    rewrite Hne, !orb_false_r.
    cbn [charsFrom runLength Nat.add].
    set (c := SafeGetCharAt doc (currentPos sc + i + 1) 0).
    set (t := charsFrom doc (currentPos sc + i + 1 + 1) k).
    pose proof (runLength_bound (ch sc) t) as Hb.
    assert (Ht : List.length t = k) by apply charsFrom_length.
    rewrite Ht in Hb.
    pose proof (IH f (i + 1) (count + 1)) as IH1.
    pose proof (IH f (i + 1) count) as IH2.
    cbv zeta in IH1, IH2.
    replace (currentPos sc + (i + 1) + 1) with (currentPos sc + i + 1 + 1)
      in IH1, IH2 by lia.
    fold t in IH1, IH2.
    destruct (c =? ch sc) eqn:Ec.
    + cbn [orb].
      replace (1 + runLength (ch sc) t =? Z.of_nat (S k))
        with (runLength (ch sc) t =? Z.of_nat k)
        by (destruct (runLength (ch sc) t =? Z.of_nat k) eqn:Q;
            [apply Z.eqb_eq in Q; symmetry; apply Z.eqb_eq; lia
            |apply Z.eqb_neq in Q; symmetry; apply Z.eqb_neq; lia]).
      rewrite IH1 by lia.
      destruct ((runLength (ch sc) t =? Z.of_nat k)
                && (SafeGetCharAt doc endPos 0 =? ch sc));
        cbn [ruleRun runLength]; rewrite Ec; cbn [orb];
        match goal with
        | |- context [i + 1 + 1 + runLength (ch sc) ?l] =>
            replace (i + 1 + 1 + runLength (ch sc) l)
              with (i + 1 + (1 + runLength (ch sc) l)) by lia
        end; reflexivity.
    + cbn [orb]. destruct (IsASpaceOrTab c) eqn:Es; cbn [negb].
      * replace (1 + runLength (ch sc) t =? Z.of_nat (S k))
          with (runLength (ch sc) t =? Z.of_nat k)
          by (destruct (runLength (ch sc) t =? Z.of_nat k) eqn:Q;
              [apply Z.eqb_eq in Q; symmetry; apply Z.eqb_eq; lia
              |apply Z.eqb_neq in Q; symmetry; apply Z.eqb_neq; lia]).
        rewrite IH2 by lia.
        destruct ((runLength (ch sc) t =? Z.of_nat k)
                  && (SafeGetCharAt doc endPos 0 =? ch sc));
          cbn [ruleRun runLength]; rewrite Ec, Es; cbn [orb];
          match goal with
          | |- context [i + 1 + 1 + runLength (ch sc) ?l] =>
              replace (i + 1 + 1 + runLength (ch sc) l)
                with (i + 1 + (1 + runLength (ch sc) l)) by lia
          end; reflexivity.
      * replace (0 =? Z.of_nat (S k)) with false
          by (symmetry; apply Z.eqb_neq; lia).
        cbn [andb ruleRun runLength]. rewrite Ec, Es. cbn [orb].
        rewrite Z.add_0_r.
        destruct (IsNewline c && (3 <=? count)); cbn [andb].
        -- rewrite result_bind.
           destruct (negb (result (HasPrevLineContent doc sc))); reflexivity.
        -- reflexivity.
Qed.

(** C8, as amended.  Called on a marker (a character other than 0) with the
    cursor in the document and before the end offset, IsValidHrule succeeds
    exactly when, between the cursor and the end offset, a run of the marker
    with spaces and tabs interleaved reaches the end of the line or the end
    offset with at least three markers, the cursor's included, and the
    previous line has no content; a marker that the run finds at the end
    offset itself does not end it: it is counted, and the run then goes on
    to the end of its line.  On success the predicate closes the open span,
    advances over the run, closes it as HRULE and opens LINE_BEGIN; on
    failure it moves nothing and sets DEFAULT, closing the open span under
    the classification held until then.  A rule after an empty first line is
    classified HRULE. *)
Theorem IsValidHrule_postcondition (doc : Document) (endPos : Z)
  (sc : StyleContext)
  (Hpos : 0 <= currentPos sc) (Hin : currentPos sc < endPos)
  (Hch : ch sc <> 0) :
  let r := result (IsValidHrule doc endPos sc) in
  let e := hruleEnd doc endPos sc in
  fst r = validHruleSpec doc e sc /\
  (fst r = true ->
   snd r = SetState SCE_MARKDOWN_LINE_BEGIN
             (ForwardN doc (1 + runLength (ch sc) (lineRest doc e sc))
                (SetState SCE_MARKDOWN_HRULE sc))) /\
  (fst r = false -> snd r = SetState SCE_MARKDOWN_DEFAULT sc) /\
  (e = endPos \/
   e = Length doc + 1 /\ SafeGetCharAt doc endPos 0 = ch sc /\
   runLength (ch sc) (lineRest doc endPos sc) = endPos - (currentPos sc + 1))
  /\
  ColorizeMarkdownDoc 20 ruleDoc (freshStyles ruleDoc) 0 5
    SCE_MARKDOWN_DEFAULT
  = Some (mkResult 0 [ (0, SCE_MARKDOWN_LINE_BEGIN); (3, SCE_MARKDOWN_HRULE);
                       (4, SCE_MARKDOWN_LINE_BEGIN) ]).
Proof.
  cbv zeta.
  set (n := Z.to_nat (endPos - (currentPos sc + 1))).
  assert (Hlen : List.length (lineRest doc endPos sc) = n)
    by (unfold lineRest; apply charsFrom_length).
  assert (Hrun : result (IsValidHrule doc endPos sc)
                 = let l := lineRest doc (hruleEnd doc endPos sc) sc in
                   if ruleRun (ch sc) l 1
                      && negb (result (HasPrevLineContent doc sc))
                   then (true, SetState SCE_MARKDOWN_LINE_BEGIN
                                 (ForwardN doc (1 + runLength (ch sc) l)
                                    (SetState SCE_MARKDOWN_HRULE sc)))
                   else (false, SetState SCE_MARKDOWN_DEFAULT sc)).
  { unfold IsValidHrule.
    assert (Hend : SafeGetCharAt doc endPos 0 = ch sc ->
                   endPos < Length doc).
    { intros Em. unfold SafeGetCharAt in Em.
      destruct (endPos <? 0) eqn:E1;
        [cbn [orb] in Em; exfalso; apply Hch; symmetry; exact Em|].
      destruct (Length doc <=? endPos) eqn:E2;
        [cbn [orb] in Em; exfalso; apply Hch; symmetry; exact Em|].
      apply Z.leb_gt in E2. exact E2. }
    rewrite (hruleLoop_upto doc endPos sc Hch n (loopFuel doc endPos sc) 0 1).
    - cbv zeta. unfold hruleEnd. cbv zeta. rewrite Hlen.
      replace (currentPos sc + 0 + 1) with (currentPos sc + 1) by lia.
      fold n. change (charsFrom doc (currentPos sc + 1) n)
        with (lineRest doc endPos sc).
      destruct ((runLength (ch sc) (lineRest doc endPos sc) =? Z.of_nat n)
                && (SafeGetCharAt doc endPos 0 =? ch sc)) eqn:C.
      + apply andb_true_iff in C. destruct C as [_ C].
        apply Z.eqb_eq in C. specialize (Hend C).
        unfold lineRest.
        replace (Z.to_nat (Length doc + 1 - (currentPos sc + 1)))
          with (n + Z.to_nat (Length doc + 1 - endPos))%nat
          by (unfold n; lia).
        reflexivity.
      + reflexivity.
    - destruct (Z.le_gt_cases endPos (Length doc)).
      + unfold loopFuel, n. unfold Length in *. lia.
      + unfold loopFuel, n.
        replace (Z.to_nat (Length doc + 1 - endPos)) with 0%nat by lia. lia.
    - unfold n. lia. }
  rewrite Hrun. cbv zeta. unfold validHruleSpec.
  split; [|split; [|split; [|split]]].
  - destruct (ruleRun _ _ _ && negb _); reflexivity.
  - destruct (ruleRun _ _ _ && negb _); cbn [fst snd];
      [reflexivity | discriminate].
  - destruct (ruleRun _ _ _ && negb _); cbn [fst snd];
      [discriminate | reflexivity].
  - unfold hruleEnd. cbv zeta. rewrite Hlen.
    destruct ((runLength (ch sc) (lineRest doc endPos sc) =? Z.of_nat n)
              && (SafeGetCharAt doc endPos 0 =? ch sc)) eqn:C;
      [|left; reflexivity].
    right. apply andb_true_iff in C. destruct C as [C1 C2].
    apply Z.eqb_eq in C1. apply Z.eqb_eq in C2.
    split; [reflexivity|]. split; [exact C2|]. rewrite C1. unfold n. lia.
  - vm_compute. reflexivity.
Qed.

Lemma IsValidHrule_postcondition_witness :
  ch atRule = chr "-" /\ currentPos atRule = 1 /\
  fst (result (IsValidHrule ruleDoc 5 atRule)) = true /\
  validHruleSpec ruleDoc 5 atRule = true /\
  spans (styler (snd (result (IsValidHrule ruleDoc 5 atRule))))
  = [(0, SCE_MARKDOWN_LINE_BEGIN); (3, SCE_MARKDOWN_HRULE)].
Proof.
  split; [vm_compute; reflexivity|]. split; [vm_compute; reflexivity|].
  pose proof (IsValidHrule_postcondition ruleDoc 5 atRule
                ltac:(vm_compute; discriminate)
                ltac:(vm_compute; reflexivity)
                ltac:(vm_compute; discriminate)) as H.
  cbv zeta in H. destruct H as (H1 & H2 & _ & _).
  assert (E : validHruleSpec ruleDoc (hruleEnd ruleDoc 5 atRule) atRule
              = true)
    by (vm_compute; reflexivity).
  rewrite E in H1. split; [exact H1|].
  split; [vm_compute; reflexivity|].
  rewrite (H2 H1). vm_compute. reflexivity.
Defined.

(** ** Coverage of the range by the spans of a call that returns *)

Lemma tiles_snoc (from : Z) (l : list Span) (upto e a : Z) :
  tiles from l upto -> upto <= e -> tiles from (l ++ [(e, a)]) (e + 1).
Proof.
  revert from. induction l as [|[e' a'] t IH]; intros from H Hle; cbn in *.
  - subst. split; [exact Hle | reflexivity].
  - destruct H as [H1 H2]. split; [exact H1 | apply IH; assumption].
Qed.

Lemma ColourTo_tiles (from pos a : Z) (st : Styler) :
  tiles from (spans st) (startSeg st) -> startSeg st - 1 <= pos ->
  tiles from (spans (ColourTo pos a st)) (startSeg (ColourTo pos a st)) /\
  startSeg (ColourTo pos a st) = pos + 1.
Proof.
  intros T H. unfold ColourTo.
  destruct (pos =? startSeg st - 1) eqn:E1; cbn [startSeg spans].
  - apply Z.eqb_eq in E1. split; [|reflexivity].
    replace (pos + 1) with (startSeg st) by lia. exact T.
  - apply Z.eqb_neq in E1.
    destruct (pos <? startSeg st) eqn:E2;
      [apply Z.ltb_lt in E2; lia | apply Z.ltb_ge in E2].
    cbn [startSeg spans]. split; [|reflexivity].
    eapply tiles_snoc; [exact T | exact E2].
Qed.

Section Coverage.

Variable doc : Document.
Variables start len rangeEnd : Z.

Lemma Covering_Forward (sc : StyleContext) :
  Covering start len rangeEnd sc ->
  Covering start len rangeEnd (Forward doc sc).
Proof.
  unfold Covering, Forward. intros (T & H1 & H2 & H3 & H4 & H5 & H6).
  destruct (currentPos sc <? sc_endPos sc) eqn:E;
    cbn [styler currentPos sc_endPos lengthDocument]; repeat split; auto.
  - apply Z.ltb_lt in E. lia.
  - apply Z.ltb_lt in E. lia.
Qed.

Lemma Covering_SetState (x : Z) (sc : StyleContext) :
  Covering start len rangeEnd sc ->
  Covering start len rangeEnd (SetState x sc).
Proof.
  unfold Covering, SetState.
  intros (T & H1 & H2 & H3 & H4 & H5 & H6).
  cbn [styler currentPos sc_endPos lengthDocument set_state set_styler].
  assert (Hc : startSeg (styler sc) - 1 <= closeAt sc /\
               closeAt sc + 1 <= currentPos sc /\ closeAt sc + 1 <= len).
  { unfold closeAt. rewrite H5.
    destruct (len <? currentPos sc) eqn:E;
      [apply Z.ltb_lt in E | apply Z.ltb_ge in E]; lia. }
  destruct Hc as (C1 & C2 & C3).
  destruct (ColourTo_tiles start (closeAt sc) (state sc) (styler sc) T C1)
    as [T' E'].
  split; [exact T'|]. rewrite E'. repeat split; auto.
Qed.

Lemma Covering_ChangeState (x : Z) (sc : StyleContext) :
  Covering start len rangeEnd sc ->
  Covering start len rangeEnd (ChangeState x sc).
Proof. intros H. exact H. Qed.

(** Every step of the loop keeps the coverage. *)
Lemma Covering_scanLoop (endPos : Z) (fuel : nat) (s s' : ScanState) :
  Covering start len rangeEnd (cursor s) ->
  scanLoop doc endPos fuel s = Some s' ->
  Covering start len rangeEnd (cursor s').
Proof.
  apply (keeps_scanLoop doc endPos (Covering start len rangeEnd)).
  - apply Covering_Forward.
  - intros x sc _. apply Covering_SetState.
  - intros x sc _. apply Covering_ChangeState.
Qed.

End Coverage.

(** *** The line table *)

Lemma lineStartsFrom_sorted (l : list Z) :
  forall pos, StronglySorted Z.lt (lineStartsFrom pos l) /\
              Forall (fun s => pos < s) (lineStartsFrom pos l).
Proof.
  induction l as [|c t IH]; intros pos; cbn [lineStartsFrom].
  - split; constructor.
  - destruct (IH (pos + 1)) as [S1 F1].
    assert (F2 : Forall (fun s => pos < s) (lineStartsFrom (pos + 1) t)).
    { eapply Forall_impl; [|exact F1]. cbv beta. intros; lia. }
    assert (Hcons : StronglySorted Z.lt
                      ((pos + 1) :: lineStartsFrom (pos + 1) t) /\
                    Forall (fun s => pos < s)
                      ((pos + 1) :: lineStartsFrom (pos + 1) t)).
    { split; constructor; auto. lia. }
    destruct (c =? LF); [exact Hcons|].
    destruct (c =? CR); [|split; assumption].
    destruct t as [|c' t']; [exact Hcons|].
    destruct (c' =? LF); [split; assumption | exact Hcons].
Qed.

Lemma lineStarts_sorted (doc : Document) :
  StronglySorted Z.lt (lineStarts doc) /\
  Forall (fun s => 0 <= s) (lineStarts doc).
Proof.
  unfold lineStarts. destruct (lineStartsFrom_sorted doc 0) as [S1 F1].
  split; constructor; auto; try lia.
  eapply Forall_impl; [|exact F1]. cbv beta. intros; lia.
Qed.

(** In a sorted table the entries at or before [p] come first. *)
Lemma sorted_nth_le (p : Z) (l : list Z) :
  StronglySorted Z.lt l ->
  forall i, (i < List.length (filter (fun s => (s <=? p)%Z) l))%nat ->
            nth i l 0 <= p.
Proof.
  induction 1 as [|a t St IH Fa]; intros i Hi; cbn [filter] in Hi.
  - cbn in Hi. lia.
  - destruct (a <=? p) eqn:E.
    + apply Z.leb_le in E. destruct i as [|j]; [exact E|].
      cbn [nth]. apply IH. cbn in Hi. lia.
    + apply Z.leb_gt in E.
      assert (N : filter (fun s => s <=? p) t = []).
      { clear IH Hi St. induction Fa as [|b u Hb Fu IHu]; [reflexivity|].
        cbn [filter]. replace (b <=? p) with false
          by (symmetry; apply Z.leb_gt; lia).
        exact IHu. }
      rewrite N in Hi. cbn in Hi. lia.
Qed.

Lemma LineStart_nonneg (doc : Document) (line : Z) : 0 <= LineStart doc line.
Proof.
  unfold LineStart. destruct (line <? 0) eqn:E0; [lia|].
  apply Z.ltb_ge in E0.
  destruct (Lines doc <=? line) eqn:E; [unfold Length; lia|].
  apply Z.leb_gt in E. unfold Lines in E.
  destruct (lineStarts_sorted doc) as [_ F].
  rewrite Forall_forall in F. apply F, nth_In. lia.
Qed.

(** The scan resumes at or before the offset asked for. *)
Lemma resumePos_bounds (doc : Document) (startPos : Z) :
  0 <= startPos -> 0 <= resumePos doc startPos <= startPos.
Proof.
  intros H. unfold resumePos. destruct (0 <? startPos); [|lia].
  split; [apply LineStart_nonneg|].
  unfold LineStart, GetLine.
  set (k := List.length (filter (fun s => s <=? startPos) (lineStarts doc))).
  destruct (Z.max 0 (Z.of_nat k - 1) - 1 <? 0) eqn:E1; [lia|].
  apply Z.ltb_ge in E1.
  assert (Hk : (k <= List.length (lineStarts doc))%nat)
    by apply filter_length_le.
  destruct (Lines doc <=? Z.max 0 (Z.of_nat k - 1) - 1) eqn:E2.
  - apply Z.leb_le in E2. unfold Lines in E2. lia.
  - apply sorted_nth_le; [apply lineStarts_sorted|]. fold k. lia.
Qed.

(** X1.  For a range inside the document, the spans a call that returns
    hands back tile the range as extended backward to the offset the scan
    resumed from: they are contiguous, none is empty, the first starts at
    that offset, which is at or before the offset asked for, and the last
    ends at the end of the range. *)
Lemma returned_spans_tile_range (fuel : nat) (doc : Document)
  (styles : Styles) (startPos length initStyle : Z) (r : ScanResult) :
  0 <= startPos -> 0 <= length -> startPos + length <= Length doc ->
  ColorizeMarkdownDoc fuel doc styles startPos length initStyle = Some r ->
  scanStart r = resumePos doc startPos /\
  0 <= scanStart r <= startPos /\
  tiles (scanStart r) (scanSpans r) (startPos + length).
Proof.
  intros Hs Hl He E. unfold ColorizeMarkdownDoc in E.
  destruct (scanLoop _ _ _ _) as [s|] eqn:EL; [|discriminate].
  injection E as <-. cbn [scanStart scanSpans].
  destruct (resumePos_bounds doc startPos Hs) as [R0 R1].
  split; [reflexivity|]. split; [lia|].
  set (start := resumePos doc startPos) in *.
  set (endPos := startPos + length) in *.
  set (rangeEnd := if endPos =? Length doc then endPos + 1 else endPos).
  assert (HrE : rangeEnd <= Length doc + 1 /\ endPos <= rangeEnd).
  { subst rangeEnd. destruct (endPos =? Length doc) eqn:Q;
      [apply Z.eqb_eq in Q|]; lia. }
  assert (I0 : Covering start (Length doc) rangeEnd
                 (cursor (initialScan doc styles startPos length initStyle))).
  { unfold initialScan, newStyleContext, Covering. fold start.
    cbn [cursor styler startSeg spans currentPos sc_endPos lengthDocument
         tiles].
    replace (start + (length + (startPos - start))) with endPos
      by (subst endPos; lia).
    fold rangeEnd. repeat split; try lia. }
  pose proof (Covering_scanLoop doc start (Length doc) rangeEnd endPos fuel
                _ _ I0 EL) as I.
  assert (Hdone : More (cursor s) = false).
  { clear - EL. revert EL.
    generalize (initialScan doc styles startPos length initStyle).
    induction fuel as [|n IH]; intros s0 E; cbn [scanLoop] in E;
      [discriminate|].
    destruct (More (cursor s0)) eqn:M; [eapply IH; exact E|].
    injection E as <-. exact M. }
  unfold More in Hdone. apply Z.ltb_ge in Hdone.
  destruct I as (T & H1 & H2 & H3 & H4 & H5 & H6).
  assert (Hcur : currentPos (cursor s) = rangeEnd) by lia.
  assert (Hc : closeAt (cursor s) + 1 = endPos).
  { unfold closeAt. rewrite H5, Hcur. subst rangeEnd.
    destruct (endPos =? Length doc) eqn:Q;
      [apply Z.eqb_eq in Q | apply Z.eqb_neq in Q].
    - replace (Length doc <? endPos + 1) with true
        by (symmetry; apply Z.ltb_lt; lia). lia.
    - replace (Length doc <? endPos) with false
        by (symmetry; apply Z.ltb_ge; lia). lia. }
  assert (Hseg : startSeg (styler (cursor s)) <= endPos).
  { subst rangeEnd. destruct (endPos =? Length doc) eqn:Q;
      [apply Z.eqb_eq in Q|]; lia. }
  unfold Complete. cbn [styler].
  destruct (ColourTo_tiles start (closeAt (cursor s)) (state (cursor s))
              (styler (cursor s)) T ltac:(lia)) as [T' E'].
  rewrite E', Hc in T'. exact T'.
Qed.

(** ** The loops of the predicates leave by their own condition

    The bound on the tests of a loop is never what ends it: a [whileR] loop
    run with [loopFuel] ends on a state that fails its condition, and the
    other loops give the same outcome under any two bounds that large. *)

Lemma SafeGetCharAt_inside (doc : Document) (p : Z) :
  SafeGetCharAt doc p 0 <> 0 -> 0 <= p < Length doc.
Proof.
  unfold SafeGetCharAt. intros H.
  destruct (p <? 0) eqn:E1; [now elim H|].
  destruct (Length doc <=? p) eqn:E2; [now elim H|].
  apply Z.ltb_ge in E1. apply Z.leb_gt in E2. lia.
Qed.

Lemma whileR_leaves {S : Type} (cond : S -> Rd bool) (body : S -> S)
  (m : S -> nat) :
  (forall s, result (cond s) = true -> (m (body s) < m s)%nat) ->
  forall fuel s, (m s < fuel)%nat ->
    result (cond (result (whileR fuel cond body s))) = false.
Proof.
  intros Hm. induction fuel as [|n IH]; intros s Hs; [lia|].
  cbn [whileR]. rewrite result_bind.
  destruct (result (cond s)) eqn:E.
  - apply IH. specialize (Hm s E). lia.
  - rewrite result_ret. exact E.
Qed.

Section Leaving.

Variable doc : Document.
Variable sc : StyleContext.

Lemma distanceToDocEnd_bound (endPos i : Z) :
  (distanceToDocEnd doc sc i < loopFuel doc endPos sc)%nat.
Proof. unfold distanceToDocEnd, loopFuel, Length. lia. Qed.

Lemma distanceToDocEnd_succ (i : Z) :
  GetRelative doc sc i <> 0 ->
  (distanceToDocEnd doc sc (Z.succ i) < distanceToDocEnd doc sc i)%nat.
Proof.
  intros H. apply SafeGetCharAt_inside in H. unfold distanceToDocEnd. lia.
Qed.

Lemma skipRun_leaves (c endPos : Z) :
  c <> 0 ->
  GetRelative doc sc (result (skipRun doc (loopFuel doc endPos sc) c sc)) <> c.
Proof.
  intros Hc. apply Z.eqb_neq.
  apply (whileR_leaves
           (fun i => x <- GetRelativeR doc sc i ;; ret (x =? c)) Z.succ
           (distanceToDocEnd doc sc)); [|apply distanceToDocEnd_bound].
  intros i H. rewrite result_bind, result_ret, result_GetRelativeR in H.
  apply Z.eqb_eq in H. apply distanceToDocEnd_succ. lia.
Qed.

Lemma skipBlanks_leaves (endPos i : Z) :
  let j := result (skipBlanks doc (loopFuel doc endPos sc) endPos sc i) in
  IsASpaceOrTab (GetRelative doc sc j) && (currentPos sc + j <? endPos)
  = false.
Proof.
  apply (whileR_leaves
           (fun i => x <- GetRelativeR doc sc i ;;
                     ret (IsASpaceOrTab x && (currentPos sc + i <? endPos)))
           Z.succ (distanceToDocEnd doc sc)); [|apply distanceToDocEnd_bound].
  intros k H. rewrite result_bind, result_ret, result_GetRelativeR in H.
  apply andb_true_iff in H. destruct H as [H _].
  apply distanceToDocEnd_succ. intros E. rewrite E in H. discriminate H.
Qed.

Lemma backToNewline_leaves :
  let i := result (backToNewline doc (loopFuel doc 0 sc) sc) in
  (0 <=? i + currentPos sc) && negb (IsNewline (GetRelative doc sc i))
  = false.
Proof.
  cbv zeta.
  pose proof (whileR_leaves
           (fun i => if 0 <=? i + currentPos sc
                     then x <- GetRelativeR doc sc i ;;
                          ret (negb (IsNewline x))
                     else ret false)
           Z.pred (fun i => Z.to_nat (i + currentPos sc + 1))) as L.
  specialize (L ltac:(intros i; cbv beta;
                      destruct (0 <=? i + currentPos sc) eqn:E;
                      intros H; [apply Z.leb_le in E; lia
                                | rewrite result_ret in H; discriminate H])
                (loopFuel doc 0 sc) (-1) ltac:(unfold loopFuel; lia)).
  cbv beta in L. fold (backToNewline doc (loopFuel doc 0 sc) sc) in L.
  destruct (0 <=? _ + currentPos sc); [exact L | reflexivity].
Qed.

Lemma prevLineScan_fuel :
  forall fuel fuel' i,
  (Z.to_nat (i + currentPos sc + 1) < fuel)%nat ->
  (Z.to_nat (i + currentPos sc + 1) < fuel')%nat ->
  prevLineScan doc fuel sc i = prevLineScan doc fuel' sc i.
Proof.
  induction fuel as [|n IH]; intros [|n'] i H H'; try lia.
  cbn [prevLineScan].
  destruct (0 <=? i + currentPos sc) eqn:E; [|reflexivity].
  apply Z.leb_le in E. unfold bind.
  change (fst (GetRelativeR doc sc i)) with (GetRelative doc sc i).
  destruct (IsNewline (GetRelative doc sc i)); [reflexivity|].
  destruct (negb (IsASpaceOrTab (GetRelative doc sc i))); [reflexivity|].
  rewrite (IH n' (i - 1)) by lia. reflexivity.
Qed.

Lemma firstLineScan_fuel (endPos : Z) :
  forall fuel fuel' i has,
  (Z.to_nat (endPos - (currentPos sc + i)) < fuel)%nat ->
  (Z.to_nat (endPos - (currentPos sc + i)) < fuel')%nat ->
  firstLineScan doc fuel endPos sc i has
  = firstLineScan doc fuel' endPos sc i has.
Proof.
  induction fuel as [|n IH]; intros [|n'] i has H H'; try lia.
  cbn [firstLineScan].
  destruct (currentPos sc + i <? endPos) eqn:E; [|reflexivity].
  apply Z.ltb_lt in E. unfold bind.
  change (fst (GetRelativeR doc sc i)) with (GetRelative doc sc i).
  destruct (negb (IsNewline (GetRelative doc sc i))); [|reflexivity].
  rewrite (IH n' (i + 1)) by lia. reflexivity.
Qed.

Lemma hruleLoop_fuel (endPos : Z) :
  ch sc <> 0 ->
  forall fuel fuel' i count,
  (distanceToDocEnd doc sc (i + 1) < fuel)%nat ->
  (distanceToDocEnd doc sc (i + 1) < fuel')%nat ->
  hruleLoop doc fuel endPos sc i count = hruleLoop doc fuel' endPos sc i count.
Proof.
  intros Hch.
  induction fuel as [|n IH]; intros [|n'] i count H H'; try lia.
  cbn [hruleLoop]. cbv zeta. unfold bind.
  change (fst (GetRelativeR doc sc (i + 1))) with (GetRelative doc sc (i + 1)).
  destruct (GetRelative doc sc (i + 1) =? ch sc) eqn:E1.
  - apply Z.eqb_eq in E1.
    assert (D : (distanceToDocEnd doc sc (Z.succ (i + 1))
                 < distanceToDocEnd doc sc (i + 1))%nat)
      by (apply distanceToDocEnd_succ; lia).
    rewrite (IH n' (i + 1) (count + 1)) by (unfold Z.succ in D; lia).
    reflexivity.
  - destruct (negb (IsASpaceOrTab (GetRelative doc sc (i + 1)))
              || (currentPos sc + (i + 1) =? endPos)) eqn:E2; [reflexivity|].
    apply orb_false_iff in E2. destruct E2 as [E2 _].
    apply negb_false_iff in E2.
    assert (D : (distanceToDocEnd doc sc (Z.succ (i + 1))
                 < distanceToDocEnd doc sc (i + 1))%nat).
    { apply distanceToDocEnd_succ. intros Z0. rewrite Z0 in E2.
      discriminate E2. }
    rewrite (IH n' (i + 1) count) by (unfold Z.succ in D; lia).
    reflexivity.
Qed.

(** The loops bounded by the end offset. *)
Lemma underlineRun_leaves (hdrCh endPos i : Z) :
  0 <= currentPos sc + i ->
  let j := result (underlineRun doc (loopFuel doc endPos sc) hdrCh endPos sc i)
  in (currentPos sc + j <? endPos) && (GetRelative doc sc j =? hdrCh) = false.
Proof.
  intros Hi. cbv zeta.
  pose proof (whileR_leaves
           (fun i => if currentPos sc + i <? endPos
                     then z <- GetRelativeR doc sc i ;; ret (z =? hdrCh)
                     else ret false)
           Z.succ (fun i => Z.to_nat (endPos - (currentPos sc + i)))) as L.
  specialize (L ltac:(intros k; cbv beta;
                      destruct (currentPos sc + k <? endPos) eqn:E;
                      intros H; [apply Z.ltb_lt in E; lia
                                | rewrite result_ret in H; discriminate H])
                (loopFuel doc endPos sc) i ltac:(unfold loopFuel; lia)).
  cbv beta in L.
  fold (underlineRun doc (loopFuel doc endPos sc) hdrCh endPos sc i) in L.
  destruct (currentPos sc + _ <? endPos); [exact L | reflexivity].
Qed.

Lemma underlineBlanks_leaves (endPos i : Z) :
  0 <= currentPos sc + i ->
  let j := result (underlineBlanks doc (loopFuel doc endPos sc) endPos sc i)
  in (currentPos sc + j <? endPos) && IsASpaceOrTab (GetRelative doc sc j)
     = false.
Proof.
  intros Hi. cbv zeta.
  pose proof (whileR_leaves
           (fun i => if currentPos sc + i <? endPos
                     then z <- GetRelativeR doc sc i ;; ret (IsASpaceOrTab z)
                     else ret false)
           Z.succ (fun i => Z.to_nat (endPos - (currentPos sc + i)))) as L.
  specialize (L ltac:(intros k; cbv beta;
                      destruct (currentPos sc + k <? endPos) eqn:E;
                      intros H; [apply Z.ltb_lt in E; lia
                                | rewrite result_ret in H; discriminate H])
                (loopFuel doc endPos sc) i ltac:(unfold loopFuel; lia)).
  cbv beta in L.
  fold (underlineBlanks doc (loopFuel doc endPos sc) endPos sc i) in L.
  destruct (currentPos sc + _ <? endPos); [exact L | reflexivity].
Qed.

Lemma toLineEnd_leaves (endPos : Z) :
  0 <= currentPos sc ->
  let j := result (toLineEnd doc (loopFuel doc endPos sc) endPos sc) in
  negb (IsNewline (GetRelative doc sc j)) && (currentPos sc + j <? endPos)
  = false.
Proof.
  intros Hp.
  apply (whileR_leaves
           (fun i => x <- GetRelativeR doc sc i ;;
                     ret (negb (IsNewline x) && (currentPos sc + i <? endPos)))
           Z.succ (fun i => Z.to_nat (endPos - (currentPos sc + i))));
    [|unfold loopFuel; lia].
  intros k H. rewrite result_bind, result_ret, result_GetRelativeR in H.
  apply andb_true_iff in H. destruct H as [_ H]. apply Z.ltb_lt in H. lia.
Qed.

End Leaving.

(** ** The classification stays in the enumerated set *)

Lemma isTarget_enumerated (x : Z) :
  isTarget x = true -> In x classifications.
Proof.
  unfold isTarget. intros H. apply existsb_exists in H.
  destruct H as [y [Hy E]]. apply Z.eqb_eq in E. subst y.
  unfold classifications. unfold transitionTargets in Hy.
  cbn [In] in *. tauto.
Qed.

Lemma resumeStyle_enumerated (doc : Document) (styles : Styles)
  (startPos initStyle : Z) :
  In initStyle classifications ->
  Forall (fun x => In x classifications) styles ->
  In (resumeStyle doc styles startPos initStyle) classifications.
Proof.
  intros Hi Hs. unfold resumeStyle.
  assert (Hat : forall p, In (StyleAt styles p) classifications).
  { intros p. unfold StyleAt. destruct (p <? 0); [cbn; tauto|].
    destruct (nth_in_or_default (Z.to_nat p) styles 0) as [H|H].
    - rewrite Forall_forall in Hs. apply Hs, H.
    - rewrite H. cbn. tauto. }
  destruct (0 <? startPos);
    match goal with
    | |- In (if ?b then _ else _) _ => destruct b
    end; auto; cbn; tauto.
Qed.

(** X3.  From an initial style and stored styles of the enumerated set,
    the classification is in the enumerated set after any number of
    iterations. *)
Lemma classification_stays_enumerated (doc : Document) (styles : Styles)
  (startPos length initStyle : Z) (n : nat) :
  In initStyle classifications ->
  Forall (fun x => In x classifications) styles ->
  In (state (cursor (iterations doc (startPos + length) n
                       (initialScan doc styles startPos length initStyle))))
     classifications.
Proof.
  intros Hi Hs.
  apply (keeps_iterations doc (startPos + length)
           (fun sc => In (state sc) classifications)).
  - intros sc H. rewrite state_Forward. exact H.
  - intros x sc H _. apply isTarget_enumerated, H.
  - intros x sc H _. apply isTarget_enumerated, H.
  - apply resumeStyle_enumerated; assumption.
Qed.

(** ** Forward progress of the iterations that do not hold the cursor back *)

Section Progress.

Variable doc : Document.
Variable endPos : Z.
Variable s : ScanState.

Local Notation "'notBehind'" := (notBehindOf (cursor s)) (only parsing).

Lemma notBehind_Forward (sc : StyleContext) :
  notBehind sc -> notBehind (Forward doc sc).
Proof.
  unfold notBehindOf, Forward. intros [H1 H2].
  destruct (currentPos sc <? sc_endPos sc); cbn [currentPos sc_endPos];
    split; auto; lia.
Qed.

Lemma notBehind_rules :
  notBehind (cursor (defaultRules doc endPos (linkRules doc
               (precharRules doc endPos
                  (stateRules doc endPos (blockquoteRule s)))))).
Proof.
  assert (F : forall sc, notBehind sc -> notBehind (Forward doc sc))
    by apply notBehind_Forward.
  assert (S1 : forall x sc, isTarget x = true -> notBehind sc ->
                 notBehind (SetState x sc)) by (intros x sc _ H; exact H).
  assert (S2 : forall x sc, isTarget x = true -> notBehind sc ->
                 notBehind (ChangeState x sc)) by (intros x sc _ H; exact H).
  apply (keeps_defaultRules doc endPos notBehind F S1).
  apply (keeps_linkRules doc notBehind F S1).
  apply (keeps_precharRules doc endPos notBehind F S1).
  apply (keeps_stateRules doc endPos notBehind F S1 S2).
  apply (keeps_blockquoteRule notBehind S1).
  split; reflexivity.
Qed.

(** X2.  Inside the range, an iteration that takes the escape rule, or
    whose rules do not set the no-advance flag, leaves the cursor at least
    one character further. *)
Lemma unfrozen_iteration_advances :
  More (cursor s) = true ->
  ch (cursor s) = BACKSLASH \/
  freezeCursor (defaultRules doc endPos (linkRules doc
                  (precharRules doc endPos
                     (stateRules doc endPos (blockquoteRule s))))) = false ->
  currentPos (cursor s) < currentPos (cursor (loopBody doc endPos s)).
Proof.
  intros HM H. unfold More in HM. apply Z.ltb_lt in HM. unfold loopBody.
  destruct (ch (cursor s) =? BACKSLASH) eqn:E.
  - cbn [cursor with_cursor].
    destruct (Forward_inside doc (cursor s) HM) as [P _]. lia.
  - destruct H as [H|H]; [apply Z.eqb_neq in E; contradiction|].
    pose proof notBehind_rules as [N1 N2].
    unfold advance. rewrite H. cbn [cursor].
    set (c := cursor (defaultRules doc endPos _)) in *.
    destruct (Z.lt_ge_cases (currentPos c) (sc_endPos c)) as [L|L].
    + destruct (Forward_inside doc c L) as [P _]. lia.
    + destruct (Forward_at_end doc c L) as [P _]. lia.
Qed.

End Progress.

(** * Further properties of the scanner *)

Lemma returned_spans_tile_range_witness :
  0 <= 6 /\ 0 <= 2 /\ 6 + 2 <= Length splitDoc /\
  scanStart secondCall = 1 /\
  tiles 1 (scanSpans secondCall) 8.
Proof.
  split; [vm_compute; discriminate|]. split; [vm_compute; discriminate|].
  split; [vm_compute; discriminate|].
  destruct (returned_spans_tile_range 20 splitDoc
              (stored firstCall (freshStyles splitDoc)) 6 2
              (StyleAt (stored firstCall (freshStyles splitDoc)) 6)
              secondCall
              ltac:(vm_compute; discriminate)
              ltac:(vm_compute; discriminate)
              ltac:(vm_compute; discriminate)
              ltac:(vm_compute; reflexivity)) as (H1 & _ & H3).
  split; [vm_compute; reflexivity|].
  replace 1 with (scanStart secondCall) by (vm_compute; reflexivity).
  exact H3.
Defined.

Lemma unfrozen_iteration_advances_witness :
  More (cursor atClosingBacktick) = true /\
  currentPos (cursor atClosingBacktick)
  < currentPos (cursor (loopBody codeDoc 4 atClosingBacktick)).
Proof.
  split; [vm_compute; reflexivity|].
  apply (unfrozen_iteration_advances codeDoc 4 atClosingBacktick).
  - vm_compute. reflexivity.
  - right. vm_compute. reflexivity.
Defined.

Lemma classification_stays_enumerated_witness :
  In SCE_MARKDOWN_DEFAULT classifications /\
  Forall (fun x => In x classifications) (freshStyles quoteDocTight) /\
  In (state (cursor afterMarker)) classifications.
Proof.
  assert (H1 : In SCE_MARKDOWN_DEFAULT classifications)
    by (vm_compute; tauto).
  assert (H2 : Forall (fun x => In x classifications)
                 (freshStyles quoteDocTight)).
  { unfold freshStyles. apply Forall_forall. intros x Hx.
    apply in_map_iff in Hx. destruct Hx as [y [<- _]]. exact H1. }
  split; [exact H1|]. split; [exact H2|].
  exact (classification_stays_enumerated quoteDocTight
           (freshStyles quoteDocTight) 0 5 SCE_MARKDOWN_DEFAULT 2 H1 H2).
Defined.

(** ** Code blocks and headers, one iteration at a time *)

Lemma advance_unfrozen (doc : Document) (s : ScanState) :
  freezeCursor s = false -> cursor (advance doc s) = Forward doc (cursor s).
Proof. intros H. unfold advance. rewrite H. reflexivity. Qed.

(** The rest of an iteration after the state rules, for a scan state that
    the prefix rules, the link rules and the rules of DEFAULT do not apply
    to. *)
Lemma rest_is_advance (doc : Document) (endPos : Z) (s : ScanState) :
  state (cursor s) <> SCE_MARKDOWN_PRECHAR ->
  state (cursor s) <> SCE_MARKDOWN_LINK ->
  state (cursor s) <> SCE_MARKDOWN_DEFAULT ->
  advance doc (defaultRules doc endPos (linkRules doc
                 (precharRules doc endPos s))) = advance doc s.
Proof.
  intros H1 H2 H3.
  rewrite precharRules_inactive, linkRules_inactive, defaultRules_inactive
    by assumption.
  reflexivity.
Qed.

(** X4.  In CODEBK, on a character that is not a backslash, an iteration
    does nothing but close the block to LINE_BEGIN, when the cursor is at a
    line start on a character other than a tab and the four characters from
    the cursor on are not all spaces, and advance by one: no other rule
    applies, the tilde rule of lines 267-275 included, and the block never
    ends into DEFAULT. *)
Theorem code_block_iteration (doc : Document) (endPos : Z) (s : ScanState)
  (Hst : state (cursor s) = SCE_MARKDOWN_CODEBK)
  (Hesc : ch (cursor s) <> BACKSLASH)
  (Hfr : freezeCursor s = false) :
  cursor (loopBody doc endPos s)
  = Forward doc (if leavesCodeBlock doc (cursor s)
                 then SetState SCE_MARKDOWN_LINE_BEGIN (cursor s)
                 else cursor s) /\
  state (cursor (loopBody doc endPos s))
  = (if leavesCodeBlock doc (cursor s) then SCE_MARKDOWN_LINE_BEGIN
     else SCE_MARKDOWN_CODEBK).
Proof.
  assert (E : loopBody doc endPos s
              = advance doc (if leavesCodeBlock doc (cursor s)
                             then with_cursor (SetState SCE_MARKDOWN_LINE_BEGIN
                                                 (cursor s)) s
                             else s)).
  { unfold loopBody. apply Z.eqb_neq in Hesc. rewrite Hesc.
    rewrite blockquoteRule_inactive by (rewrite Hst; discriminate).
    assert (R : stateRules doc endPos s
                = if leavesCodeBlock doc (cursor s)
                  then with_cursor (SetState SCE_MARKDOWN_LINE_BEGIN
                                      (cursor s)) s
                  else s).
    { unfold stateRules, leavesCodeBlock. cbv zeta. rewrite Hst.
      change (SCE_MARKDOWN_CODEBK =? SCE_MARKDOWN_CODE2) with false.
      change (SCE_MARKDOWN_CODEBK =? SCE_MARKDOWN_CODE) with false.
      change (SCE_MARKDOWN_CODEBK =? SCE_MARKDOWN_CODEBK) with true.
      cbv iota.
      destruct (atLineStart (cursor s) && negb (ch (cursor s) =? TAB));
        cbn [andb negb]; [|reflexivity].
      destruct (fourSpaces doc (cursor s)); reflexivity. }
    rewrite R.
    destruct (leavesCodeBlock doc (cursor s));
      apply rest_is_advance; cbn [cursor with_cursor];
      rewrite ?state_SetState, ?Hst; discriminate. }
  rewrite E.
  destruct (leavesCodeBlock doc (cursor s));
    (split; [apply advance_unfrozen; exact Hfr|]);
    rewrite state_advance; cbn [cursor with_cursor];
    [reflexivity | exact Hst].
Qed.

Lemma code_block_iteration_witness :
  state (cursor atClosingTilde) = SCE_MARKDOWN_CODEBK /\
  ch (cursor atClosingTilde) = chr "~" /\
  currentPos (cursor (loopBody fencedDoc 17 atClosingTilde)) = 12 /\
  state (cursor (loopBody fencedDoc 17 atClosingTilde))
  = SCE_MARKDOWN_LINE_BEGIN.
Proof.
  split; [vm_compute; reflexivity|]. split; [vm_compute; reflexivity|].
  destruct (code_block_iteration fencedDoc 17 atClosingTilde
              ltac:(vm_compute; reflexivity)
              ltac:(vm_compute; discriminate)
              ltac:(vm_compute; reflexivity)) as [H1 H2].
  split; [rewrite H1 | rewrite H2]; vm_compute; reflexivity.
Defined.

Lemma isHeader_cases (x : Z) :
  isHeader x = true ->
  x <> SCE_MARKDOWN_BLOCKQUOTE /\ x <> SCE_MARKDOWN_PRECHAR /\
  x <> SCE_MARKDOWN_LINK /\ x <> SCE_MARKDOWN_DEFAULT /\
  x <> SCE_MARKDOWN_LINE_BEGIN /\ isInline x = false /\
  x <> SCE_MARKDOWN_CODEBK.
Proof.
  unfold isHeader. intros H. apply existsb_exists in H.
  destruct H as [y [Hy E]]. apply Z.eqb_eq in E. subst y.
  cbn [In] in Hy.
  repeat (destruct Hy as [<-|Hy];
          [repeat split; try discriminate; reflexivity|]).
  contradiction.
Qed.

(** X5.  A header lasts until the newline: in one of HEADER1 to HEADER6 an
    iteration does nothing but set LINE_BEGIN, when the character at the
    cursor is a newline, and advance by one; whatever else the line holds,
    markers and backslashes included, stays in the header. *)
Theorem header_iteration (doc : Document) (endPos : Z) (s : ScanState)
  (Hst : isHeader (state (cursor s)) = true)
  (Hfr : freezeCursor s = false) :
  cursor (loopBody doc endPos s)
  = Forward doc (if IsNewline (ch (cursor s))
                 then SetState SCE_MARKDOWN_LINE_BEGIN (cursor s)
                 else cursor s).
Proof.
  destruct (isHeader_cases _ Hst) as (N1 & N2 & N3 & N4 & N5 & N6 & N7).
  unfold loopBody. destruct (ch (cursor s) =? BACKSLASH) eqn:Hb.
  - apply Z.eqb_eq in Hb. rewrite Hb. reflexivity.
  - rewrite blockquoteRule_inactive by exact N1.
    assert (R : stateRules doc endPos s
                = if IsNewline (ch (cursor s))
                  then with_cursor (SetState SCE_MARKDOWN_LINE_BEGIN
                                      (cursor s)) s
                  else s).
    { unfold stateRules. cbv zeta.
      unfold isInline in N6. cbn [existsb] in N6.
      repeat (apply orb_false_iff in N6; destruct N6 as [?E N6]).
      rewrite E, E0, E1, E2, E3.
      apply Z.eqb_neq in N7. rewrite N7.
      apply Z.eqb_neq in N5. rewrite N5.
      unfold isHeader in Hst. cbn [existsb] in Hst.
      rewrite orb_false_r in Hst. rewrite <- !orb_assoc. rewrite Hst.
      reflexivity. }
    rewrite R.
    destruct (IsNewline (ch (cursor s)));
      rewrite rest_is_advance
        by (cbn [cursor with_cursor]; rewrite ?state_SetState;
            first [assumption | discriminate]);
      apply advance_unfrozen; exact Hfr.
Qed.

Lemma header_iteration_witness :
  state (cursor inHeader) = SCE_MARKDOWN_HEADER1 /\
  ch (cursor inHeader) = LF /\
  state (cursor (loopBody headerDoc 5 inHeader)) = SCE_MARKDOWN_LINE_BEGIN /\
  currentPos (cursor (loopBody headerDoc 5 inHeader)) = 4.
Proof.
  split; [vm_compute; reflexivity|]. split; [vm_compute; reflexivity|].
  rewrite (header_iteration headerDoc 5 inHeader
             ltac:(vm_compute; reflexivity) ltac:(vm_compute; reflexivity)).
  split; vm_compute; reflexivity.
Defined.

(** ** Inline spans *)

(** The rules of DEFAULT open an inline span at a term start only, and on a
    character that is not a space. *)
Lemma defaultRules_opens_inline (doc : Document) (endPos : Z) (s : ScanState) :
  state (cursor s) = SCE_MARKDOWN_DEFAULT ->
  isInline (state (cursor (defaultRules doc endPos s))) = true ->
  AtTermStart (cursor s) = true /\ ch (cursor s) <> SPACE.
Proof.
  intros H. unfold defaultRules. cbv zeta. rewrite H.
  change (SCE_MARKDOWN_DEFAULT =? SCE_MARKDOWN_DEFAULT) with true. cbv iota.
  change (bytes "```") with [96; 96; 96].
  change (bytes "**") with [42; 42]. change (bytes "__") with [95; 95].
  change (bytes "~~") with [126; 126]. unfold Match.
  repeat match goal with
  | |- context [if ?b then _ else _] => destruct b eqn:?
  end; cbn [cursor with_cursor]; rewrite ?state_Forward, ?state_SetState, ?H;
    intros E; try discriminate E;
    repeat match goal with
    | X : _ && _ = true |- _ => apply andb_true_iff in X; destruct X
    end;
    (split; [assumption|]);
    match goal with
    | X : (ch (cursor s) =? _) = true |- _ =>
        apply Z.eqb_eq in X; rewrite X; discriminate
    end.
Qed.

(** The outcome of the rules of DEFAULT is DEFAULT, LINE_BEGIN or an inline
    span. *)
Lemma defaultRules_outcome (doc : Document) (endPos : Z) (s : ScanState) :
  state (cursor s) = SCE_MARKDOWN_DEFAULT ->
  let x := state (cursor (defaultRules doc endPos s)) in
  x = SCE_MARKDOWN_DEFAULT \/ x = SCE_MARKDOWN_LINE_BEGIN \/ isInline x = true.
Proof.
  intros H. unfold defaultRules. cbv zeta. rewrite H.
  change (SCE_MARKDOWN_DEFAULT =? SCE_MARKDOWN_DEFAULT) with true. cbv iota.
  repeat match goal with
  | |- context [if ?b then _ else _] => destruct b
  end; cbn [cursor with_cursor]; rewrite ?state_Forward, ?state_SetState, ?H;
    auto.
Qed.

(** After [Forward(2)] over a doubled marker either the cursor was stopped
    by the end of the range, and reads a space, or it stands right after the
    marker, where no term starts. *)
Lemma no_term_start_after_marker (doc : Document) (sc : StyleContext)
  (m : Z) :
  More sc = true -> 0 <= currentPos sc ->
  ch sc = m -> chNext sc = m -> m <> 0 -> isspacechar m = false ->
  ch (ForwardN doc 2 sc) = SPACE \/ AtTermStart (ForwardN doc 2 sc) = false.
Proof.
  intros HM Hp H0 H1 Hm Hs.
  unfold More in HM. apply Z.ltb_lt in HM.
  change (ForwardN doc 2 sc) with (Forward doc (Forward doc sc)).
  destruct (Forward_inside doc sc HM) as (P1 & E1 & _ & C1 & _).
  set (sc1 := Forward doc sc) in *.
  destruct (Z.lt_ge_cases (currentPos sc1) (sc_endPos sc1)) as [L1|L1].
  - destruct (Forward_inside doc sc1 L1) as (P2 & _ & V2 & _ & _).
    right. unfold AtTermStart. rewrite P2, V2, C1, H1, P1, Hs.
    replace (currentPos sc + 1 + 1 =? 0) with false
      by (symmetry; apply Z.eqb_neq; lia).
    apply Z.eqb_neq in Hm. rewrite Hm. reflexivity.
  - left. apply (Forward_at_end doc sc1 L1).
Qed.

Lemma closingMarker_cases (x : Z) :
  x = SCE_MARKDOWN_STRONG1 \/ x = SCE_MARKDOWN_STRONG2
  \/ x = SCE_MARKDOWN_STRIKEOUT ->
  exists m, closingMarker x = [m; m] /\ m <> 0 /\ isspacechar m = false /\
            m <> BACKSLASH.
Proof.
  intros [->|[->| ->]]; [exists 42 | exists 95 | exists 126];
    repeat split; discriminate.
Qed.

Lemma stateRules_marked (doc : Document) (endPos : Z) (s : ScanState) (x : Z) :
  x = SCE_MARKDOWN_STRONG1 \/ x = SCE_MARKDOWN_STRONG2
  \/ x = SCE_MARKDOWN_STRIKEOUT ->
  state (cursor s) = x ->
  stateRules doc endPos s
  = if Match doc (closingMarker x) (cursor s)
       && negb (chPrev (cursor s) =? SPACE)
    then with_cursor (SetState SCE_MARKDOWN_DEFAULT
                        (ForwardN doc 2 (cursor s))) s
    else s.
Proof.
  intros Hx Hst. unfold stateRules. cbv zeta. rewrite Hst.
  destruct Hx as [->|[->| ->]]; reflexivity.
Qed.

(** X6.  In STRONG1, STRONG2 and STRIKEOUT, at the top of an iteration
    inside the range, the span closes exactly when the two characters at
    the cursor are its marker and the character before them is not a space;
    once closed, the classification is DEFAULT or LINE_BEGIN: no inline span
    opens right after the closing marker. *)
Theorem marked_span_closing (doc : Document) (endPos : Z) (s : ScanState)
  (x : Z)
  (Hx : x = SCE_MARKDOWN_STRONG1 \/ x = SCE_MARKDOWN_STRONG2
        \/ x = SCE_MARKDOWN_STRIKEOUT)
  (Hst : state (cursor s) = x)
  (Hin : More (cursor s) = true) (Hpos : 0 <= currentPos (cursor s)) :
  let x' := state (cursor (loopBody doc endPos s)) in
  (x' <> x <->
   Match doc (closingMarker x) (cursor s) = true
   /\ chPrev (cursor s) <> SPACE) /\
  (x' = x \/ x' = SCE_MARKDOWN_DEFAULT \/ x' = SCE_MARKDOWN_LINE_BEGIN).
Proof.
  cbv zeta.
  destruct (closingMarker_cases x Hx) as (m & Em & Hm0 & Hms & Hmb).
  assert (Nx : x <> SCE_MARKDOWN_BLOCKQUOTE /\ x <> SCE_MARKDOWN_PRECHAR
               /\ x <> SCE_MARKDOWN_LINK /\ x <> SCE_MARKDOWN_DEFAULT
               /\ x <> SCE_MARKDOWN_LINE_BEGIN /\ isInline x = true).
  { destruct Hx as [->|[->| ->]]; repeat split; try discriminate. }
  destruct Nx as (N1 & N2 & N3 & N4 & N5 & N6).
  unfold loopBody. destruct (ch (cursor s) =? BACKSLASH) eqn:Hb.
  - apply Z.eqb_eq in Hb. cbn [cursor with_cursor].
    rewrite state_Forward, Hst. split; [|left; reflexivity].
    split; [intros H; now elim H|]. intros [H _].
    rewrite Em in H. unfold Match in H. rewrite Hb in H.
    apply andb_true_iff in H. destruct H as [H _].
    apply andb_true_iff in H. destruct H as [H _].
    apply Z.eqb_eq in H. symmetry in H. contradiction.
  - rewrite blockquoteRule_inactive by (rewrite Hst; exact N1).
    rewrite (stateRules_marked doc endPos s x Hx Hst).
    destruct (Match doc (closingMarker x) (cursor s)) eqn:HM;
      [destruct (chPrev (cursor s) =? SPACE) eqn:Hs|]; cbn [andb negb].
    + rewrite rest_inactive by (rewrite Hst; assumption).
      split; [|left; exact Hst]. apply Z.eqb_eq in Hs.
      split; [intros H; now elim H|]. intros [_ H]. contradiction.
    + apply Z.eqb_neq in Hs.
      set (s1 := with_cursor _ s).
      rewrite precharRules_inactive, linkRules_inactive
        by (subst s1; cbn [cursor with_cursor]; unfold notLink;
            discriminate).
      rewrite state_advance.
      assert (Hs1 : state (cursor s1) = SCE_MARKDOWN_DEFAULT) by reflexivity.
      assert (NI : isInline (state (cursor (defaultRules doc endPos s1)))
                   = false).
      { destruct (isInline (state (cursor (defaultRules doc endPos s1))))
          eqn:EI; [|reflexivity].
        destruct (defaultRules_opens_inline doc endPos s1 Hs1 EI) as [A C].
        subst s1. cbn [cursor with_cursor] in A, C.
        change (AtTermStart (ForwardN doc 2 (cursor s)) = true) in A.
        change (ch (ForwardN doc 2 (cursor s)) <> SPACE) in C.
        rewrite Em in HM. unfold Match, matchFrom in HM.
        rewrite andb_true_r in HM. apply andb_true_iff in HM.
        destruct HM as [M0 M1]. apply Z.eqb_eq in M0, M1.
        destruct (no_term_start_after_marker doc (cursor s) m Hin Hpos
                    M0 M1 Hm0 Hms) as [T|T];
          [contradiction | rewrite T in A; discriminate A]. }
      destruct (defaultRules_outcome doc endPos s1 Hs1) as [O|[O|O]];
        cbv zeta in O.
      * split; [|right; left; exact O].
        split; [intros _; split; [reflexivity | exact Hs]|].
        intros _. rewrite O. intros E. symmetry in E. contradiction.
      * split; [|right; right; exact O].
        split; [intros _; split; [reflexivity | exact Hs]|].
        intros _. rewrite O. intros E. symmetry in E. contradiction.
      * rewrite O in NI. discriminate NI.
    + rewrite rest_inactive by (rewrite Hst; assumption).
      split; [|left; exact Hst].
      split; [intros H; now elim H|]. intros [H _]. discriminate H.
Qed.

Lemma marked_span_closing_witness :
  state (cursor atClosingStrong) = SCE_MARKDOWN_STRONG1 /\
  currentPos (cursor atClosingStrong) = 3 /\
  state (cursor (loopBody strongDoc 6 atClosingStrong))
  <> SCE_MARKDOWN_STRONG1.
Proof.
  split; [vm_compute; reflexivity|]. split; [vm_compute; reflexivity|].
  apply (proj1 (marked_span_closing strongDoc 6 atClosingStrong
                  SCE_MARKDOWN_STRONG1 (or_introl eq_refl)
                  ltac:(vm_compute; reflexivity)
                  ltac:(vm_compute; reflexivity)
                  ltac:(vm_compute; discriminate))).
  split; vm_compute; [reflexivity | discriminate].
Defined.

(** X7.  Where no term starts, in the middle of a word, no inline span
    opens: from DEFAULT, on a character that is not a backslash and not at a
    term start, an iteration ends in DEFAULT or in LINE_BEGIN. *)
Theorem no_inline_span_mid_word (doc : Document) (endPos : Z) (s : ScanState)
  (Hst : state (cursor s) = SCE_MARKDOWN_DEFAULT)
  (Hesc : ch (cursor s) <> BACKSLASH)
  (Hmid : AtTermStart (cursor s) = false) :
  state (cursor (loopBody doc endPos s)) = SCE_MARKDOWN_DEFAULT \/
  state (cursor (loopBody doc endPos s)) = SCE_MARKDOWN_LINE_BEGIN.
Proof.
  unfold loopBody. apply Z.eqb_neq in Hesc. rewrite Hesc.
  rewrite blockquoteRule_inactive by (rewrite Hst; discriminate).
  assert (R : stateRules doc endPos s = s).
  { unfold stateRules. cbv zeta. rewrite Hst. reflexivity. }
  rewrite R.
  rewrite precharRules_inactive, linkRules_inactive
    by (unfold notLink; rewrite Hst; discriminate).
  rewrite state_advance.
  destruct (defaultRules_outcome doc endPos s Hst) as [O|[O|O]];
    cbv zeta in O; auto.
  destruct (defaultRules_opens_inline doc endPos s Hst O) as [A _].
  rewrite A in Hmid. discriminate Hmid.
Qed.

Lemma no_inline_span_mid_word_witness :
  ch (cursor atMidWord) = chr "*" /\ chNext (cursor atMidWord) = chr "*" /\
  state (cursor (loopBody midWordDoc 7 atMidWord)) = SCE_MARKDOWN_DEFAULT.
Proof.
  split; [vm_compute; reflexivity|]. split; [vm_compute; reflexivity|].
  destruct (no_inline_span_mid_word midWordDoc 7 atMidWord
              ltac:(vm_compute; reflexivity)
              ltac:(vm_compute; discriminate)
              ltac:(vm_compute; reflexivity)) as [H|H]; [exact H|].
  vm_compute in H. discriminate H.
Defined.

(** ** FollowToLineEnd *)

(** X8.  FollowToLineEnd looks over the run of the marker after the cursor,
    which no end offset bounds, then over the spaces and tabs that lie
    before the end offset, and succeeds exactly when what comes next is a
    newline or the end offset.  On success the cursor has moved over the
    run and the blanks, which are closed under the target classification
    with what was open before, and LINE_BEGIN opens; on failure nothing has
    changed. *)
Theorem FollowToLineEnd_postcondition (doc : Document) (c st endPos : Z)
  (sc : StyleContext) (Hc : c <> 0) :
  let r := result (FollowToLineEnd doc c st endPos sc) in
  exists i1 i,
    1 <= i1 <= i /\
    (forall k, 1 <= k < i1 -> GetRelative doc sc k = c) /\
    GetRelative doc sc i1 <> c /\
    (forall k, i1 <= k < i ->
       IsASpaceOrTab (GetRelative doc sc k) = true
       /\ currentPos sc + k < endPos) /\
    IsASpaceOrTab (GetRelative doc sc i) && (currentPos sc + i <? endPos)
    = false /\
    fst r = IsNewline (GetRelative doc sc i) || (currentPos sc + i =? endPos)
    /\
    snd r = (if fst r
             then SetState SCE_MARKDOWN_LINE_BEGIN
                    (ChangeState st (ForwardN doc i sc))
             else sc).
Proof.
  cbv zeta.
  set (i1 := result (skipRun doc (loopFuel doc endPos sc) c sc)).
  set (i := result (skipBlanks doc (loopFuel doc endPos sc) endPos sc i1)).
  exists i1, i.
  assert (R1 : 1 <= i1 /\ forall k, 1 <= k < i1 -> GetRelative doc sc k = c).
  { apply (whileR_invariant
             (fun j => 1 <= j /\ forall k, 1 <= k < j ->
                                   GetRelative doc sc k = c)
             (fun _ => True)
             (fun j => x <- GetRelativeR doc sc j ;; ret (x =? c)) Z.succ).
    - intros j _. rewrite reads_bind. repeat constructor.
    - intros j [Hj Hk] E.
      rewrite result_bind, result_ret, result_GetRelativeR in E.
      apply Z.eqb_eq in E. split; [lia|]. intros k Hk'.
      destruct (Z.eq_dec k j) as [->|N]; [exact E | apply Hk; lia].
    - split; [lia|]. intros k Hk. lia. }
  destruct R1 as [R1 R1'].
  assert (R2 : i1 <= i /\
               forall k, i1 <= k < i ->
                 IsASpaceOrTab (GetRelative doc sc k) = true
                 /\ currentPos sc + k < endPos).
  { apply (whileR_invariant
             (fun j => i1 <= j /\ forall k, i1 <= k < j ->
                         IsASpaceOrTab (GetRelative doc sc k) = true
                         /\ currentPos sc + k < endPos)
             (fun _ => True)
             (fun j => x <- GetRelativeR doc sc j ;;
                       ret (IsASpaceOrTab x && (currentPos sc + j <? endPos)))
             Z.succ).
    - intros j _. rewrite reads_bind. repeat constructor.
    - intros j [Hj Hk] E.
      rewrite result_bind, result_ret, result_GetRelativeR in E.
      apply andb_true_iff in E. destruct E as [E1 E2].
      apply Z.ltb_lt in E2. split; [lia|]. intros k Hk'.
      destruct (Z.eq_dec k j) as [->|N]; [split; assumption | apply Hk; lia].
    - split; [lia|]. intros k Hk. lia. }
  destruct R2 as [R2 R2'].
  split; [lia|]. split; [exact R1'|].
  split; [apply skipRun_leaves; exact Hc|].
  split; [exact R2'|].
  split; [apply skipBlanks_leaves|].
  unfold FollowToLineEnd. cbv zeta. rewrite !result_bind.
  fold i1. fold i. rewrite result_GetRelativeR.
  destruct (IsNewline (GetRelative doc sc i) || (currentPos sc + i =? endPos));
    rewrite result_ret; split; reflexivity.
Qed.

Lemma FollowToLineEnd_postcondition_witness :
  chr "=" <> 0 /\ ch atUnderline = chr "=" /\ currentPos atUnderline = 2 /\
  fst (result (FollowToLineEnd underlineDoc (chr "=") SCE_MARKDOWN_HEADER1 5
                 atUnderline)) = true /\
  exists i, 1 <= i /\
    snd (result (FollowToLineEnd underlineDoc (chr "=") SCE_MARKDOWN_HEADER1 5
                   atUnderline))
    = SetState SCE_MARKDOWN_LINE_BEGIN
        (ChangeState SCE_MARKDOWN_HEADER1 (ForwardN underlineDoc i atUnderline)).
Proof.
  split; [vm_compute; discriminate|].
  split; [vm_compute; reflexivity|]. split; [vm_compute; reflexivity|].
  assert (E : fst (result (FollowToLineEnd underlineDoc (chr "=")
                             SCE_MARKDOWN_HEADER1 5 atUnderline)) = true)
    by (vm_compute; reflexivity).
  split; [exact E|].
  destruct (FollowToLineEnd_postcondition underlineDoc (chr "=")
              SCE_MARKDOWN_HEADER1 5 atUnderline
              ltac:(vm_compute; discriminate))
    as (i1 & i & Hi & _ & _ & _ & _ & _ & H).
  exists i. split; [lia|]. rewrite H, E. reflexivity.
Defined.

(** ** The backward predicates against the characters before the cursor *)

Lemma skipn_view (k : nat) (B : list Z) :
  (skipn k B = [] /\ (List.length B <= k)%nat /\ nth k B 0 = 0) \/
  (exists x t, skipn k B = x :: t /\ nth k B 0 = x /\ skipn (S k) B = t
               /\ (k < List.length B)%nat).
Proof.
  revert k. induction B as [|b B IH]; intros k.
  - left. rewrite skipn_nil. destruct k; cbn; repeat split; lia.
  - destruct k as [|k].
    + right. exists b, B. cbn. repeat split. lia.
    + destruct (IH k) as [(H1 & H2 & H3) | (x & t & H1 & H2 & H3 & H4)].
      * left. cbn [skipn nth List.length]. repeat split; auto. lia.
      * right. exists x, t. cbn [nth List.length].
        change (skipn (S k) (b :: B)) with (skipn k B).
        change (skipn (S (S k)) (b :: B)) with (skipn (S k) B).
        repeat split; auto. lia.
Qed.

Lemma toNewline_head (l : list Z) :
  toNewline l = [] \/
  exists z u, toNewline l = z :: u /\ IsNewline z = true.
Proof.
  induction l as [|x t IH]; cbn [toNewline]; [left; reflexivity|].
  destruct (IsNewline x) eqn:E; [|exact IH].
  right. exists x, t. split; [reflexivity | exact E].
Qed.

Section Backward.

Variable doc : Document.
Variable sc : StyleContext.
Hypothesis Hpos : 0 <= currentPos sc <= Length doc.

Lemma before_length :
  List.length (before doc sc) = Z.to_nat (currentPos sc).
Proof.
  unfold before. rewrite length_rev, length_firstn.
  unfold Length in Hpos. lia.
Qed.

Lemma GetRelative_before (i : Z) (k : nat) :
  i = -1 - Z.of_nat k -> GetRelative doc sc i = nth k (before doc sc) 0.
Proof.
  intros ->. unfold GetRelative, SafeGetCharAt.
  destruct (Nat.lt_ge_cases k (Z.to_nat (currentPos sc))) as [L|L].
  - replace (currentPos sc + (-1 - Z.of_nat k) <? 0) with false
      by (symmetry; apply Z.ltb_ge; lia).
    replace (Length doc <=? currentPos sc + (-1 - Z.of_nat k)) with false
      by (symmetry; apply Z.leb_gt; lia).
    cbn [orb]. unfold before.
    rewrite rev_nth by (rewrite length_firstn; unfold Length in Hpos; lia).
    rewrite length_firstn, nth_firstn.
    replace (Init.Nat.min (Z.to_nat (currentPos sc)) (List.length doc))
      with (Z.to_nat (currentPos sc)) by (unfold Length in Hpos; lia).
    replace (Z.to_nat (currentPos sc) - S k <? Z.to_nat (currentPos sc))%nat
      with true by (symmetry; apply Nat.ltb_lt; lia).
    f_equal. lia.
  - replace (currentPos sc + (-1 - Z.of_nat k) <? 0) with true
      by (symmetry; apply Z.ltb_lt; lia).
    cbn [orb]. symmetry. apply nth_overflow. rewrite before_length. lia.
Qed.

Lemma in_range_before (i : Z) (k : nat) :
  i = -1 - Z.of_nat k ->
  (0 <=? i + currentPos sc) = (k <? List.length (before doc sc))%nat.
Proof.
  intros ->. rewrite before_length.
  destruct (Nat.ltb_spec k (Z.to_nat (currentPos sc)));
    [apply Z.leb_le | apply Z.leb_gt]; lia.
Qed.

(** The first loop stops on the first newline before the cursor. *)
Lemma backToNewline_list :
  forall l k fuel i,
  skipn k (before doc sc) = l -> (List.length l < fuel)%nat ->
  i = -1 - Z.of_nat k ->
  exists k1,
    result (whileR fuel
              (fun i => if 0 <=? i + currentPos sc
                        then x <- GetRelativeR doc sc i ;;
                             ret (negb (IsNewline x))
                        else ret false)
              Z.pred i) = -1 - Z.of_nat k1 /\
    skipn k1 (before doc sc) = toNewline l.
Proof.
  induction l as [|x t IH]; intros k fuel i Hl Hf Hi;
    (destruct fuel as [|n]; [cbn in Hf; lia|]);
    cbn [whileR]; rewrite result_bind;
    rewrite (in_range_before i k Hi);
    destruct (skipn_view k (before doc sc))
      as [(S1 & S2 & S3) | (x' & t' & S1 & S2 & S3 & S4)];
    try (rewrite Hl in S1; discriminate S1).
  - replace (k <? List.length (before doc sc))%nat with false
      by (symmetry; apply Nat.ltb_ge; exact S2).
    rewrite !result_ret. exists k. split; [exact Hi | exact Hl].
  - rewrite Hl in S1. injection S1 as <- <-.
    replace (k <? List.length (before doc sc))%nat with true
      by (symmetry; apply Nat.ltb_lt; exact S4).
    rewrite result_bind, result_ret, result_GetRelativeR.
    rewrite (GetRelative_before i k Hi), S2.
    cbn [toNewline]. destruct (IsNewline x); cbn [negb].
    + rewrite result_ret. exists k. split; [exact Hi | exact Hl].
    + apply (IH (S k) n (Z.pred i)); [exact S3 | cbn in Hf; lia | lia].
Qed.

(** The second loop of HasPrevLineContent looks for content backward to the
    next newline. *)
Lemma prevLineScan_list :
  forall l k fuel i,
  skipn k (before doc sc) = l -> (List.length l < fuel)%nat ->
  i = -1 - Z.of_nat k ->
  result (prevLineScan doc fuel sc i) = lineHasContent l.
Proof.
  induction l as [|x t IH]; intros k fuel i Hl Hf Hi;
    (destruct fuel as [|n]; [cbn in Hf; lia|]);
    cbn [prevLineScan lineHasContent];
    rewrite (in_range_before i k Hi);
    destruct (skipn_view k (before doc sc))
      as [(S1 & S2 & S3) | (x' & t' & S1 & S2 & S3 & S4)];
    try (rewrite Hl in S1; discriminate S1).
  - replace (k <? List.length (before doc sc))%nat with false
      by (symmetry; apply Nat.ltb_ge; exact S2).
    reflexivity.
  - rewrite Hl in S1. injection S1 as <- <-.
    replace (k <? List.length (before doc sc))%nat with true
      by (symmetry; apply Nat.ltb_lt; exact S4).
    rewrite result_bind, result_GetRelativeR.
    rewrite (GetRelative_before i k Hi), S2.
    destruct (IsNewline x); [reflexivity|].
    rewrite result_bind, result_GetRelativeR.
    rewrite (GetRelative_before i k Hi), S2.
    destruct (negb (IsASpaceOrTab x)); [reflexivity|].
    apply (IH (S k) n (i - 1)); [exact S3 | cbn in Hf; lia | lia].
Qed.

Lemma loopFuel_before : (List.length (before doc sc) < loopFuel doc 0 sc)%nat.
Proof. rewrite before_length. unfold loopFuel. lia. Qed.

Lemma HasPrevLineContent_list :
  result (HasPrevLineContent doc sc) = prevLineContentSpec doc sc.
Proof.
  unfold HasPrevLineContent, prevLineContentSpec, beforeLineEnd, backToNewline.
  cbv zeta. rewrite result_bind.
  destruct (backToNewline_list (before doc sc) 0 (loopFuel doc 0 sc) (-1)
              eq_refl loopFuel_before eq_refl) as (k1 & E1 & E2).
  rewrite E1, <- E2.
  rewrite !result_bind, !result_GetRelativeR.
  rewrite (GetRelative_before (-1 - Z.of_nat k1) k1 eq_refl).
  rewrite (GetRelative_before (-1 - Z.of_nat k1 - 1) (S k1)) by lia.
  destruct (skipn_view k1 (before doc sc))
    as [(S1 & S2 & S3) | (x & t & S1 & S2 & S3 & S4)].
  - rewrite S1, S3.
    rewrite (nth_overflow (before doc sc)) by lia.
    change ((0 =? CR) && (0 =? LF)) with false. cbv iota.
    apply (prevLineScan_list [] (S k1));
      [|unfold loopFuel; cbn [List.length]; lia | lia].
    destruct (skipn_view (S k1) (before doc sc))
      as [(T1 & _) | (y & r & _ & _ & _ & T4)]; [exact T1 | lia].
  - rewrite S1, S2.
    destruct (skipn_view (S k1) (before doc sc))
      as [(T1 & T2 & T3) | (y & r & T1 & T2 & T3 & T4)].
    + rewrite T1 in S3. subst t. rewrite T3.
      change (0 =? CR) with false. cbn [andb].
      apply (prevLineScan_list [] (S k1));
        [exact T1 | unfold loopFuel; cbn [List.length]; lia | lia].
    + rewrite T1 in S3. subst t. rewrite T2.
      pose proof loopFuel_before as F.
      assert (Lr : (List.length r <= List.length (before doc sc))%nat).
      { rewrite <- T3, length_skipn. lia. }
      assert (Lt : (List.length (y :: r) <= List.length (before doc sc))%nat).
      { rewrite <- T1, length_skipn. lia. }
      destruct ((y =? CR) && (x =? LF)).
      * apply (prevLineScan_list r (S (S k1))); [exact T3 | lia | lia].
      * apply (prevLineScan_list (y :: r) (S k1)); [exact T1 | lia | lia].
Qed.

Lemma IsPrevLineEmpty_list :
  result (IsPrevLineEmpty doc sc) = prevLineEmptySpec doc sc.
Proof.
  unfold IsPrevLineEmpty, prevLineEmptySpec, beforeLineEnd, backToNewline.
  cbv zeta. rewrite result_bind.
  destruct (backToNewline_list (before doc sc) 0 (loopFuel doc 0 sc) (-1)
              eq_refl loopFuel_before eq_refl) as (k1 & E1 & E2).
  rewrite E1, <- E2.
  rewrite !result_bind, !result_GetRelativeR, result_ret.
  rewrite (GetRelative_before (-1 - Z.of_nat k1) k1 eq_refl).
  rewrite (GetRelative_before (-1 - Z.of_nat k1 - 1) (S k1)) by lia.
  pose proof before_length as BL.
  destruct (skipn_view k1 (before doc sc))
    as [(S1 & S2 & S3) | (x & t & S1 & S2 & S3 & S4)].
  - rewrite S1, S3.
    rewrite (nth_overflow (before doc sc) (n := S k1)) by lia.
    change ((0 =? CR) && (0 =? LF)) with false.
    change ((0 =? CR) || (0 =? LF)) with false. cbv iota.
    rewrite (GetRelative_before (-1 - Z.of_nat k1) k1 eq_refl), S3.
    cbn [IsNewline orb].
    apply Z.leb_le. lia.
  - rewrite S1, S2.
    assert (Nx : IsNewline x = true).
    { destruct (toNewline_head (before doc sc)) as [E|[z [u [E N]]]];
        rewrite <- E2, S1 in E; [discriminate E|].
      injection E as -> _. exact N. }
    assert (Ex : (x =? CR) || (x =? LF) = true).
    { unfold IsNewline in Nx. rewrite orb_comm. exact Nx. }
    destruct (skipn_view (S k1) (before doc sc))
      as [(T1 & T2 & T3) | (y & r & T1 & T2 & T3 & T4)].
    + rewrite T1 in S3. subst t. rewrite T3.
      change (0 =? CR) with false. cbn [andb]. rewrite Ex.
      rewrite (GetRelative_before (-1 - Z.of_nat k1 - 1) (S k1)) by lia.
      rewrite T3. cbn [IsNewline orb]. apply Z.leb_le. lia.
    + rewrite T1 in S3. subst t. rewrite T2.
      destruct ((y =? CR) && (x =? LF)).
      * rewrite (GetRelative_before (-1 - Z.of_nat k1 - 2) (S (S k1))) by lia.
        destruct (skipn_view (S (S k1)) (before doc sc))
          as [(U1 & U2 & U3) | (z & u & U1 & U2 & U3 & U4)].
        -- rewrite U1 in T3. subst r. rewrite U3. cbn [IsNewline orb].
           apply Z.leb_le. lia.
        -- rewrite U1 in T3. subst r. rewrite U2. f_equal.
           pose proof (length_skipn (S (S (S k1))) (before doc sc)) as LS.
           rewrite U3 in LS.
           destruct u as [|u0 u]; cbn [List.length] in LS;
             [apply Z.leb_le | apply Z.leb_gt]; lia.
      * rewrite Ex.
        rewrite (GetRelative_before (-1 - Z.of_nat k1 - 1) (S k1)) by lia.
        rewrite T2. f_equal.
        pose proof (length_skipn (S (S k1)) (before doc sc)) as LS.
        rewrite T3 in LS.
        destruct r as [|r0 r]; cbn [List.length] in LS;
          [apply Z.leb_le | apply Z.leb_gt]; lia.
Qed.

End Backward.

(** X9.  With the cursor in the document, HasPrevLineContent answers
    whether the previous line, the characters between the last line end
    before the cursor and the line end before that one, holds a character
    other than a space or a tab; it answers no when no line end precedes
    the cursor. *)
Theorem HasPrevLineContent_refines (doc : Document) (sc : StyleContext)
  (Hpos : 0 <= currentPos sc <= Length doc) :
  result (HasPrevLineContent doc sc) = prevLineContentSpec doc sc /\
  (toNewline (before doc sc) = [] ->
   result (HasPrevLineContent doc sc) = false).
Proof.
  split; [apply HasPrevLineContent_list; exact Hpos|].
  intros H. rewrite (HasPrevLineContent_list doc sc Hpos).
  unfold prevLineContentSpec, beforeLineEnd. rewrite H. reflexivity.
Qed.

Lemma HasPrevLineContent_refines_witness :
  0 <= currentPos onSecondLine <= Length shortFirstLine /\
  before shortFirstLine onSecondLine = [LF; chr "a"] /\
  result (HasPrevLineContent shortFirstLine onSecondLine) = true.
Proof.
  split; [vm_compute; split; discriminate|].
  split; [vm_compute; reflexivity|].
  rewrite (proj1 (HasPrevLineContent_refines shortFirstLine onSecondLine
                    ltac:(vm_compute; split; discriminate))).
  vm_compute. reflexivity.
Defined.

(** X10.  With the cursor in the document, IsPrevLineEmpty answers yes when
    no line end precedes the cursor, when nothing precedes the end of the
    previous line, and otherwise when the character before that line end is
    a newline or is the first character of the document: a previous line of
    one character that starts the document counts as empty. *)
Theorem IsPrevLineEmpty_refines (doc : Document) (sc : StyleContext)
  (Hpos : 0 <= currentPos sc <= Length doc) :
  result (IsPrevLineEmpty doc sc) = prevLineEmptySpec doc sc /\
  (forall z, beforeLineEnd (before doc sc) = [z] ->
             result (IsPrevLineEmpty doc sc) = true).
Proof.
  split; [apply IsPrevLineEmpty_list; exact Hpos|].
  intros z H. rewrite (IsPrevLineEmpty_list doc sc Hpos).
  unfold prevLineEmptySpec. rewrite H. apply orb_true_r.
Qed.

Lemma IsPrevLineEmpty_refines_witness :
  0 <= currentPos onSecondLine <= Length shortFirstLine /\
  beforeLineEnd (before shortFirstLine onSecondLine) = [chr "a"] /\
  result (IsPrevLineEmpty shortFirstLine onSecondLine) = true.
Proof.
  split; [vm_compute; split; discriminate|].
  split; [vm_compute; reflexivity|].
  apply (proj2 (IsPrevLineEmpty_refines shortFirstLine onSecondLine
                  ltac:(vm_compute; split; discriminate)) (chr "a")).
  vm_compute. reflexivity.
Defined.

(** ** Where a scan starts *)

(** In a sorted table an entry is the last of those at or before it. *)
Lemma sorted_filter_count (l : list Z) :
  StronglySorted Z.lt l ->
  forall k, (k < List.length l)%nat ->
    List.length (filter (fun s => s <=? nth k l 0) l) = S k.
Proof.
  induction 1 as [|a t St IH Fa]; intros k Hk; [cbn in Hk; lia|].
  destruct k as [|k]; cbn [nth filter].
  - rewrite Z.leb_refl. cbn [List.length]. f_equal.
    clear IH Hk St. induction Fa as [|b u Hb Fu IHu]; [reflexivity|].
    cbn [filter]. replace (b <=? a) with false
      by (symmetry; apply Z.leb_gt; lia).
    exact IHu.
  - cbn [List.length] in Hk.
    assert (Hn : a < nth k t 0).
    { rewrite Forall_forall in Fa. apply Fa, nth_In. lia. }
    replace (a <=? nth k t 0) with true by (symmetry; apply Z.leb_le; lia).
    cbn [List.length]. f_equal. apply IH. lia.
Qed.

(** The line of a line start is that line. *)
Lemma GetLine_LineStart (doc : Document) (line : Z) :
  0 <= line < Lines doc -> GetLine doc (LineStart doc line) = line.
Proof.
  intros H. unfold LineStart.
  replace (line <? 0) with false by (symmetry; apply Z.ltb_ge; lia).
  replace (Lines doc <=? line) with false by (symmetry; apply Z.leb_gt; lia).
  unfold GetLine. unfold Lines in H.
  rewrite (sorted_filter_count (lineStarts doc))
    by (try apply lineStarts_sorted; lia).
  lia.
Qed.

Lemma LineStart_is_line_start (doc : Document) (line : Z) :
  line < Lines doc ->
  LineStart doc (GetLine doc (LineStart doc line)) = LineStart doc line.
Proof.
  intros H. destruct (Z.lt_ge_cases line 0) as [L|L].
  - assert (E : LineStart doc line = 0).
    { unfold LineStart. apply Z.ltb_lt in L. rewrite L. reflexivity. }
    rewrite E.
    assert (E0 : LineStart doc 0 = 0) by reflexivity.
    rewrite <- E0 at 1. rewrite GetLine_LineStart; [exact E0|].
    unfold Lines, lineStarts. cbn [List.length]. lia.
  - rewrite GetLine_LineStart by lia. reflexivity.
Qed.

Lemma GetLine_bound (doc : Document) (pos : Z) : GetLine doc pos < Lines doc.
Proof.
  unfold GetLine, Lines.
  pose proof (filter_length_le (fun s => s <=? pos) (lineStarts doc)) as H.
  unfold lineStarts in *. cbn [List.length] in *. lia.
Qed.

(** X11.  Every scan starts at the start of a line: whatever offset the
    caller asks for, zero or beyond, the cursor of the first iteration is at
    a line start, at or before that offset, with the line-start flag set,
    the per-call locals reset and no previous character. *)
Theorem scan_starts_at_line_start (doc : Document) (styles : Styles)
  (startPos length initStyle : Z) (Hpos : 0 <= startPos) :
  let s := initialScan doc styles startPos length initStyle in
  atLineStart (cursor s) = true /\
  LineStart doc (GetLine doc (currentPos (cursor s))) = currentPos (cursor s)
  /\ 0 <= currentPos (cursor s) <= startPos /\
  sc_endPos (cursor s) - (if startPos + length =? Length doc then 1 else 0)
  = startPos + length /\
  chPrev (cursor s) = 0 /\ precharCount s = 0 /\ freezeCursor s = false.
Proof.
  cbv zeta. unfold initialScan, newStyleContext.
  cbn [cursor atLineStart currentPos sc_endPos chPrev precharCount
       freezeCursor].
  assert (E : LineStart doc (GetLine doc (resumePos doc startPos))
              = resumePos doc startPos).
  { unfold resumePos. destruct (0 <? startPos) eqn:P.
    - apply LineStart_is_line_start.
      pose proof (GetLine_bound doc startPos). lia.
    - assert (startPos = 0) by (apply Z.ltb_ge in P; lia). subst startPos.
      assert (L : 0 < Lines doc)
        by (unfold Lines, lineStarts; cbn [List.length]; lia).
      exact (LineStart_is_line_start doc 0 L). }
  rewrite E, Z.eqb_refl.
  pose proof (resumePos_bounds doc startPos Hpos) as B.
  replace (resumePos doc startPos
           + (length + (startPos - resumePos doc startPos)))
    with (startPos + length) by lia.
  repeat split; try lia.
  destruct (startPos + length =? Length doc); lia.
Qed.

Lemma scan_starts_at_line_start_witness :
  0 <= 6 /\
  currentPos (cursor (initialScan splitDoc (freshStyles splitDoc) 6 2
                        SCE_MARKDOWN_DEFAULT)) = 1 /\
  atLineStart (cursor (initialScan splitDoc (freshStyles splitDoc) 6 2
                         SCE_MARKDOWN_DEFAULT)) = true.
Proof.
  split; [vm_compute; discriminate|]. split; [vm_compute; reflexivity|].
  apply (scan_starts_at_line_start splitDoc (freshStyles splitDoc) 6 2
           SCE_MARKDOWN_DEFAULT).
  vm_compute. discriminate.
Defined.

(** ** The classifications of the spans *)

Lemma styler_Forward (doc : Document) (sc : StyleContext) :
  styler (Forward doc sc) = styler sc.
Proof.
  unfold Forward. destruct (currentPos sc <? sc_endPos sc); reflexivity.
Qed.

Lemma ColourTo_spans (pos a : Z) (st : Styler) (Q : Span -> Prop) :
  Q (pos, a) -> Forall Q (spans st) -> Forall Q (spans (ColourTo pos a st)).
Proof.
  intros Ha H. unfold ColourTo.
  destruct (pos =? startSeg st - 1); [exact H|].
  destruct (pos <? startSeg st); [exact H|].
  cbn [spans]. apply Forall_app_intro; [exact H|]. repeat constructor.
  exact Ha.
Qed.

Lemma isTarget_plain (x : Z) : isTarget x = true -> plainStyle x.
Proof.
  intros H. split; [apply isTarget_enumerated | apply isTarget_not_LINK];
    exact H.
Qed.

Lemma plainSpans_SetState (x : Z) (sc : StyleContext) :
  isTarget x = true -> plainSpans sc -> plainSpans (SetState x sc).
Proof.
  intros Hx [H1 H2]. split; [apply isTarget_plain, Hx|].
  unfold SetState. cbn [styler set_state set_styler].
  apply ColourTo_spans; [exact H1 | exact H2].
Qed.

(** X12.  From an initial style and stored styles of the enumerated set,
    every span that a call hands back carries a classification of the
    enumerated set, and none carries LINK. *)
Theorem returned_spans_are_plain (fuel : nat) (doc : Document)
  (styles : Styles) (startPos length initStyle : Z) (r : ScanResult)
  (Hinit : In initStyle classifications)
  (Hstored : Forall (fun x => In x classifications) styles)
  (Hret : ColorizeMarkdownDoc fuel doc styles startPos length initStyle
          = Some r) :
  Forall (fun sp : Span =>
            In (snd sp) classifications /\ snd sp <> SCE_MARKDOWN_LINK)
         (scanSpans r).
Proof.
  unfold ColorizeMarkdownDoc in Hret.
  destruct (scanLoop _ _ _ _) as [s|] eqn:EL; [|discriminate].
  injection Hret as <-. cbn [scanSpans].
  assert (I : plainSpans (cursor s)).
  { refine (keeps_scanLoop doc (startPos + length) plainSpans _ _ _ fuel
              _ s _ EL).
    - intros sc [H1 H2]. split.
      + rewrite state_Forward. exact H1.
      + rewrite styler_Forward. exact H2.
    - apply plainSpans_SetState.
    - intros x sc Hx [_ H2]. split; [apply isTarget_plain, Hx | exact H2].
    - split; [|constructor]. split.
      + apply resumeStyle_enumerated; assumption.
      + apply resumeStyle_not_LINK. }
  destruct I as [H1 H2]. unfold Complete. cbn [styler set_styler].
  apply ColourTo_spans; [exact H1 | exact H2].
Qed.

Lemma returned_spans_are_plain_witness :
  In SCE_MARKDOWN_DEFAULT classifications /\
  Forall (fun sp : Span =>
            In (snd sp) classifications /\ snd sp <> SCE_MARKDOWN_LINK)
         [ (0, SCE_MARKDOWN_LINE_BEGIN); (1, SCE_MARKDOWN_BLOCKQUOTE);
           (3, SCE_MARKDOWN_HEADER1); (4, SCE_MARKDOWN_LINE_BEGIN) ].
Proof.
  assert (H1 : In SCE_MARKDOWN_DEFAULT classifications)
    by (vm_compute; tauto).
  split; [exact H1|].
  apply (returned_spans_are_plain 20 quoteDocTight (freshStyles quoteDocTight)
           0 5 SCE_MARKDOWN_DEFAULT
           (mkResult 0 [ (0, SCE_MARKDOWN_LINE_BEGIN);
                         (1, SCE_MARKDOWN_BLOCKQUOTE);
                         (3, SCE_MARKDOWN_HEADER1);
                         (4, SCE_MARKDOWN_LINE_BEGIN) ]) H1).
  - unfold freshStyles. apply Forall_forall. intros x Hx.
    apply in_map_iff in Hx. destruct Hx as [y [<- _]]. exact H1.
  - vm_compute. reflexivity.
Defined.

(** ** IsUnderlinedHeader *)

Lemma firstLineScan_invariant (doc : Document) (endPos : Z)
  (sc : StyleContext) :
  forall fuel i has,
  let r := result (firstLineScan doc fuel endPos sc i has) in
  i <= fst r /\
  (forall k, i <= k < fst r ->
     IsNewline (GetRelative doc sc k) = false /\ currentPos sc + k < endPos)
  /\
  (snd r = true ->
   has = true \/
   exists k, i <= k < fst r /\ IsASpaceOrTab (GetRelative doc sc k) = false).
Proof.
  induction fuel as [|n IH]; intros i has; cbn [firstLineScan]; cbv zeta.
  - rewrite result_ret. cbn [fst snd].
    split; [lia|]. split; [intros k Hk; lia | auto].
  - destruct (currentPos sc + i <? endPos) eqn:E.
    + apply Z.ltb_lt in E. rewrite result_bind, result_GetRelativeR.
      destruct (IsNewline (GetRelative doc sc i)) eqn:N; cbn [negb].
      * rewrite result_ret. cbn [fst snd].
        split; [lia|]. split; [intros k Hk; lia | auto].
      * specialize (IH (i + 1)
                      (if negb (IsASpaceOrTab (GetRelative doc sc i))
                       then true else has)).
        cbv zeta in IH. destruct IH as (I1 & I2 & I3).
        split; [lia|]. split.
        -- intros k Hk. destruct (Z.eq_dec k i) as [->|D];
             [split; assumption | apply I2; lia].
        -- intros Hs. destruct (I3 Hs) as [H|[k [Hk Hb]]].
           ++ destruct (IsASpaceOrTab (GetRelative doc sc i)) eqn:B;
                cbn [negb] in H; [left; exact H|].
              right. exists i. split; [lia | exact B].
           ++ right. exists k. split; [lia | exact Hb].
    + rewrite result_ret. cbn [fst snd].
      split; [lia|]. split; [intros k Hk; lia | auto].
Qed.

(** X13.  IsUnderlinedHeader answers yes only if the line under the cursor
    has a character other than a space or a tab before the end offset, ends
    in a newline, and the line after it starts with the marker and goes on
    with markers, spaces and tabs up to a newline or the end offset; in
    particular it answers no when the cursor is at or past the end offset
    and on a line that is blank. *)
Theorem IsUnderlinedHeader_only_if (doc : Document) (hdrCh endPos : Z)
  (sc : StyleContext)
  (Hyes : result (IsUnderlinedHeader doc hdrCh endPos sc) = true) :
  currentPos sc < endPos /\
  exists i j e,
    (forall k, 0 <= k < i ->
       IsNewline (GetRelative doc sc k) = false
       /\ currentPos sc + k < endPos) /\
    (exists k, 0 <= k < i /\ IsASpaceOrTab (GetRelative doc sc k) = false) /\
    IsNewline (GetRelative doc sc i) = true /\
    (j = i + 1 \/ j = i + 2) /\
    GetRelative doc sc j = hdrCh /\
    j <= e /\
    (forall k, j <= k < e ->
       GetRelative doc sc k = hdrCh
       \/ IsASpaceOrTab (GetRelative doc sc k) = true) /\
    (IsNewline (GetRelative doc sc e) = true \/ currentPos sc + e = endPos).
Proof.
  unfold IsUnderlinedHeader in Hyes. cbv zeta in Hyes.
  rewrite result_bind in Hyes.
  pose proof (firstLineScan_invariant doc endPos sc (loopFuel doc endPos sc)
                0 false) as F. cbv zeta in F.
  set (r := result (firstLineScan doc (loopFuel doc endPos sc) endPos sc
                      0 false)) in *.
  destruct F as (F1 & F2 & F3).
  rewrite result_bind, result_GetRelativeR in Hyes.
  destruct (snd r) eqn:Hs; cbn [negb orb] in Hyes;
    [|rewrite result_ret in Hyes; discriminate Hyes].
  destruct (IsNewline (GetRelative doc sc (fst r))) eqn:N; cbn [negb] in Hyes;
    [|rewrite result_ret in Hyes; discriminate Hyes].
  rewrite result_bind, result_GetRelativeR in Hyes.
  set (j := fst r + (if (GetRelative doc sc (fst r) =? CR)
                        && (GetRelative doc sc (fst r + 1) =? LF)
                     then 2 else 1)) in *.
  rewrite result_bind, result_GetRelativeR in Hyes.
  destruct (GetRelative doc sc j =? hdrCh) eqn:Ej; cbn [negb] in Hyes;
    [|rewrite result_ret in Hyes; discriminate Hyes].
  apply Z.eqb_eq in Ej.
  rewrite result_bind in Hyes.
  set (e1 := result (underlineRun doc (loopFuel doc endPos sc) hdrCh endPos
                       sc j)) in *.
  rewrite result_bind in Hyes.
  set (e := result (underlineBlanks doc (loopFuel doc endPos sc) endPos sc
                      e1)) in *.
  rewrite result_bind, result_GetRelativeR, result_ret in Hyes.
  assert (R1 : j <= e1 /\
               forall k, j <= k < e1 ->
                 GetRelative doc sc k = hdrCh
                 \/ IsASpaceOrTab (GetRelative doc sc k) = true).
  { apply (whileR_invariant
             (fun x => j <= x /\ forall k, j <= k < x ->
                         GetRelative doc sc k = hdrCh
                         \/ IsASpaceOrTab (GetRelative doc sc k) = true)
             (fun _ => True)
             (fun i => if currentPos sc + i <? endPos
                       then z <- GetRelativeR doc sc i ;; ret (z =? hdrCh)
                       else ret false) Z.succ).
    - intros x _. destruct (currentPos sc + x <? endPos);
        [rewrite reads_bind|]; repeat constructor.
    - intros x [Hx Hk]. destruct (currentPos sc + x <? endPos);
        [|rewrite result_ret; discriminate].
      rewrite result_bind, result_ret, result_GetRelativeR. intros E.
      apply Z.eqb_eq in E. split; [lia|]. intros k Hk'.
      destruct (Z.eq_dec k x) as [->|D]; [left; exact E | apply Hk; lia].
    - split; [lia|]. intros k Hk. lia. }
  destruct R1 as [R1 R1'].
  assert (R2 : e1 <= e /\
               forall k, j <= k < e ->
                 GetRelative doc sc k = hdrCh
                 \/ IsASpaceOrTab (GetRelative doc sc k) = true).
  { apply (whileR_invariant
             (fun x => e1 <= x /\ forall k, j <= k < x ->
                         GetRelative doc sc k = hdrCh
                         \/ IsASpaceOrTab (GetRelative doc sc k) = true)
             (fun _ => True)
             (fun i => if currentPos sc + i <? endPos
                       then z <- GetRelativeR doc sc i ;;
                            ret (IsASpaceOrTab z)
                       else ret false) Z.succ).
    - intros x _. destruct (currentPos sc + x <? endPos);
        [rewrite reads_bind|]; repeat constructor.
    - intros x [Hx Hk]. destruct (currentPos sc + x <? endPos);
        [|rewrite result_ret; discriminate].
      rewrite result_bind, result_ret, result_GetRelativeR. intros E.
      split; [lia|]. intros k Hk'.
      destruct (Z.eq_dec k x) as [->|D]; [right; exact E | apply Hk; lia].
    - split; [lia | exact R1']. }
  destruct R2 as [R2 R2'].
  destruct (F3 eq_refl) as [H|[k [Hk Hb]]]; [discriminate H|].
  split; [destruct (F2 k Hk) as [_ L]; lia|].
  exists (fst r), j, e.
  split; [exact F2|]. split; [exists k; split; assumption|].
  split; [exact N|].
  split; [subst j; destruct (_ && _); [right | left]; reflexivity|].
  split; [exact Ej|]. split; [lia|]. split; [exact R2'|].
  apply orb_true_iff in Hyes. destruct Hyes as [H|H];
    [left; exact H | right; apply Z.eqb_eq; exact H].
Qed.

Lemma IsUnderlinedHeader_only_if_witness :
  result (IsUnderlinedHeader titleDoc (chr "=") 6
            (newStyleContext titleDoc 0 6 SCE_MARKDOWN_DEFAULT)) = true /\
  currentPos (newStyleContext titleDoc 0 6 SCE_MARKDOWN_DEFAULT) < 6.
Proof.
  assert (E : result (IsUnderlinedHeader titleDoc (chr "=") 6
                        (newStyleContext titleDoc 0 6 SCE_MARKDOWN_DEFAULT))
              = true) by (vm_compute; reflexivity).
  split; [exact E|].
  apply (IsUnderlinedHeader_only_if titleDoc (chr "=") 6
           (newStyleContext titleDoc 0 6 SCE_MARKDOWN_DEFAULT) E).
Defined.

(** * LexSearchResult.cxx *)

(** ** ColouriseSearchResultLine *)

Lemma to_size_t_small (K : Constants) (z : Z) :
  0 <= z < 2 ^ size_t_bits K -> to_size_t K z = z.
Proof. intros H. unfold to_size_t. apply Z.mod_small. exact H. Qed.

Lemma extends_refl (styles : list Z) (lo hi : Z) (st : Styler) :
  extends styles lo hi st st.
Proof. exists []. split; [symmetry; apply app_nil_r | constructor]. Qed.

Lemma ColourTo_extends (styles : list Z) (from lo hi pos a : Z)
  (st0 st : Styler) :
  tiles from (spans st) (startSeg st) ->
  extends styles lo hi st0 st ->
  lo <= startSeg st -> In a styles -> pos <= hi ->
  tiles from (spans (ColourTo pos a st)) (startSeg (ColourTo pos a st)) /\
  extends styles lo hi st0 (ColourTo pos a st) /\
  startSeg (ColourTo pos a st) = Z.max (startSeg st) (pos + 1).
Proof.
  intros T [l [El Fl]] Hlo Ha Hhi. unfold ColourTo.
  destruct (pos =? startSeg st - 1) eqn:E1; cbn [startSeg spans].
  - apply Z.eqb_eq in E1. replace (pos + 1) with (startSeg st) by lia.
    split; [exact T|]. split; [exists l; split; assumption | lia].
  - apply Z.eqb_neq in E1. destruct (pos <? startSeg st) eqn:E2.
    + apply Z.ltb_lt in E2.
      split; [exact T|]. split; [exists l; split; assumption | lia].
    + apply Z.ltb_ge in E2. cbn [startSeg spans].
      split; [eapply tiles_snoc; [exact T | exact E2]|].
      split; [|lia].
      exists (l ++ [(pos, a)]). split.
      * rewrite El. symmetry. apply app_assoc.
      * apply Forall_app_intro; [exact Fl|]. repeat constructor;
          cbn [fst snd]; [exact Ha | lia | exact Hhi].
Qed.

Lemma findColon_from (rest : list Z) :
  forall currentPos p,
  findColon rest currentPos = Some p ->
  currentPos <= p /\
  nth_error rest (Z.to_nat (p - currentPos)) = Some (chr ":").
Proof.
  induction rest as [|c t IH]; intros currentPos p H; cbn [findColon] in H;
    [discriminate|].
  destruct (c =? chr ":") eqn:E.
  - injection H as <-. apply Z.eqb_eq in E. rewrite Z.sub_diag.
    split; [lia | cbn; rewrite E; reflexivity].
  - destruct (IH _ _ H) as [H1 H2]. split; [lia|].
    replace (Z.to_nat (p - currentPos))
      with (S (Z.to_nat (p - (currentPos + 1)))) by lia.
    exact H2.
Qed.

Lemma lineStyles_DEFAULT (K : Constants) :
  In (SCE_SEARCHRESULT_DEFAULT K) (lineStyles K).
Proof. cbn; tauto. Qed.

Lemma lineStyles_LINE_NUMBER (K : Constants) :
  In (SCE_SEARCHRESULT_LINE_NUMBER K) (lineStyles K).
Proof. cbn; tauto. Qed.

Lemma lineStyles_WORD2SEARCH (K : Constants) :
  In (SCE_SEARCHRESULT_WORD2SEARCH K) (lineStyles K).
Proof. cbn; tauto. Qed.

(** X14.  On a header line, and on a result line whose next colon from
    index 4 on lies inside the line, ColouriseSearchResultLine returns, and
    the spans it closes continue the tiling up to the end of the line: they
    end between the open segment and the end of the line, the last one at
    the end of the line, and carry one of the five classifications of the
    panel. *)
Theorem line_spans_tile (K : Constants) (mi : SearchResultMarking)
  (lineBuffer : list Z) (startLine endPos from : Z) (st : Styler)
  (Hpos : 0 <= startLine /\ endPos < 2 ^ size_t_bits K)
  (Htiles : tiles from (spans st) (startSeg st))
  (Hseg : startSeg st <= startLine)
  (Hline : startLine <= endPos)
  (Hshape : headerLine lineBuffer = true \/
            exists p, findColon (skipn 4 lineBuffer) 4 = Some p
                      /\ startLine + p <= endPos) :
  exists st',
    ColouriseSearchResultLine K mi lineBuffer startLine endPos st = Some st'
    /\ tiles from (spans st') (endPos + 1)
    /\ startSeg st' = endPos + 1
    /\ extends (lineStyles K) (startSeg st) endPos st st'.
Proof.
  unfold ColouriseSearchResultLine.
  assert (Head : forall a, In a (lineStyles K) ->
            exists st', Some (ColourTo endPos a st) = Some st'
              /\ tiles from (spans st') (endPos + 1)
              /\ startSeg st' = endPos + 1
              /\ extends (lineStyles K) (startSeg st) endPos st st').
  { intros a Ha. exists (ColourTo endPos a st). split; [reflexivity|].
    destruct (ColourTo_extends (lineStyles K) from (startSeg st) endPos
                endPos a st st Htiles (extends_refl _ _ _ _)
                (Z.le_refl _) Ha (Z.le_refl _)) as (T & E & S).
    assert (S' : startSeg (ColourTo endPos a st) = endPos + 1) by lia.
    rewrite S' in T. auto. }
  destruct lineBuffer as [|c0 rest].
  { destruct Hshape as [H|[p [H _]]]; [discriminate H|].
    cbn in H. discriminate H. }
  destruct (c0 =? chr " ") eqn:E0; [apply Head; cbn; tauto|].
  destruct (c0 =? chr "S") eqn:E1; [apply Head; cbn; tauto|].
  destruct Hshape as [H|[p [Hp Hin]]];
    [cbn [headerLine] in H; rewrite E0, E1 in H; discriminate H|].
  cbv zeta. change (Z.to_nat 4) with 4%nat. rewrite Hp.
  destruct (findColon_from _ _ _ Hp) as [Hp4 _].
  rewrite (to_size_t_small K (startLine + 4)) by lia.
  rewrite (to_size_t_small K (startLine + p - 1)) by lia.
  set (D := SCE_SEARCHRESULT_DEFAULT K).
  set (st1 := ColourTo (startLine + 4) D st).
  destruct (ColourTo_extends (lineStyles K) from (startSeg st) endPos
              (startLine + 4) D st st Htiles (extends_refl _ _ _ _)
              (Z.le_refl _) (lineStyles_DEFAULT K) ltac:(lia))
    as (T1 & X1 & S1). fold st1 in T1, X1, S1.
  set (st2 := ColourTo (startLine + p - 1) (SCE_SEARCHRESULT_LINE_NUMBER K)
                st1).
  destruct (ColourTo_extends (lineStyles K) from (startSeg st) endPos
              (startLine + p - 1) (SCE_SEARCHRESULT_LINE_NUMBER K) st st1
              T1 X1 ltac:(lia) (lineStyles_LINE_NUMBER K) ltac:(lia))
    as (T2 & X2 & S2). fold st2 in T2, X2, S2.
  set (ms := to_size_t K (startLine + _start mi - 1)).
  set (me := to_size_t K (startLine + _end mi - 1)).
  assert (Fin : forall a s, In a (lineStyles K) ->
            tiles from (spans s) (startSeg s) ->
            extends (lineStyles K) (startSeg st) endPos st s ->
            startSeg st <= startSeg s <= endPos + 1 ->
            exists st', Some (ColourTo endPos a s) = Some st'
              /\ tiles from (spans st') (endPos + 1)
              /\ startSeg st' = endPos + 1
              /\ extends (lineStyles K) (startSeg st) endPos st st').
  { intros a s Ha Ts Xs Ss. exists (ColourTo endPos a s).
    split; [reflexivity|].
    destruct (ColourTo_extends (lineStyles K) from (startSeg st) endPos
                endPos a st s Ts Xs ltac:(lia) Ha (Z.le_refl _))
      as (T & E & S).
    assert (S' : startSeg (ColourTo endPos a s) = endPos + 1) by lia.
    rewrite S' in T. auto. }
  destruct (ms <=? endPos) eqn:Ems.
  - apply Z.leb_le in Ems.
    set (st3 := ColourTo ms D st2).
    destruct (ColourTo_extends (lineStyles K) from (startSeg st) endPos
                ms D st st2 T2 X2 ltac:(lia) (lineStyles_DEFAULT K) Ems)
      as (T3 & X3 & S3). fold st3 in T3, X3, S3.
    destruct (me <=? endPos) eqn:Eme.
    + apply Z.leb_le in Eme.
      destruct (ColourTo_extends (lineStyles K) from (startSeg st) endPos
                  me (SCE_SEARCHRESULT_WORD2SEARCH K) st st3 T3 X3
                  ltac:(lia) (lineStyles_WORD2SEARCH K) Eme)
        as (T4 & X4 & S4).
      apply Fin; [apply lineStyles_DEFAULT | exact T4 | exact X4 | lia].
    + apply Fin; [apply lineStyles_WORD2SEARCH | exact T3 | exact X3 | lia].
  - apply Fin; [apply lineStyles_DEFAULT | exact T2 | exact X2 | lia].
Qed.

Lemma line_spans_tile_witness :
  exists st',
    ColouriseSearchResultLine sampleConstants resultMarking resultLine 0 16
      (mkStyler 0 []) = Some st'
    /\ tiles 0 (spans st') (16 + 1)
    /\ startSeg st' = 16 + 1
    /\ extends (lineStyles sampleConstants) (startSeg (mkStyler 0 [])) 16
         (mkStyler 0 []) st'.
Proof.
  apply (line_spans_tile sampleConstants resultMarking resultLine 0 16 0
           (mkStyler 0 [])).
  - split; [lia | vm_compute; reflexivity].
  - reflexivity.
  - cbn [startSeg]. lia.
  - lia.
  - right. exists 8. split; [vm_compute; reflexivity | lia].
Defined.




Lemma ColourTo_last (pos a e a0 : Z) (l : list Span) :
  e <= pos ->
  exists l' a',
    ColourTo pos a (mkStyler (e + 1) (l ++ [(e, a0)]))
    = mkStyler (pos + 1) (l' ++ [(pos, a')]).
Proof.
  intros H. unfold ColourTo. cbn [startSeg spans].
  destruct (pos =? e + 1 - 1) eqn:E1.
  - apply Z.eqb_eq in E1. exists l, a0.
    replace pos with e by lia. reflexivity.
  - apply Z.eqb_neq in E1.
    destruct (pos <? e + 1) eqn:E2; [apply Z.ltb_lt in E2; lia|].
    exists (l ++ [(e, a0)]), a. reflexivity.
Qed.

Lemma ColourTo_adds (pos a : Z) (st : Styler) :
  startSeg st <= pos ->
  ColourTo pos a st = mkStyler (pos + 1) (spans st ++ [(pos, a)]).
Proof.
  intros H. unfold ColourTo.
  destruct (pos =? startSeg st - 1) eqn:E1; [apply Z.eqb_eq in E1; lia|].
  destruct (pos <? startSeg st) eqn:E2; [apply Z.ltb_lt in E2; lia|].
  reflexivity.
Qed.

(** X16.  On a result line whose marking lies after the colon of the line
    number and inside the line, the offsets [_start] to [_end - 1] of the
    line form one span, classified WORD2SEARCH; what is left of the line
    after it, if anything, is one span classified DEFAULT. *)
Theorem match_is_one_span (K : Constants) (mi : SearchResultMarking)
  (lineBuffer : list Z) (startLine endPos p : Z) (st : Styler)
  (Hpos : 0 <= startLine /\ endPos < 2 ^ size_t_bits K)
  (Hseg : startSeg st <= startLine)
  (Hline : headerLine lineBuffer = false)
  (Hcolon : findColon (skipn 4 lineBuffer) 4 = Some p)
  (Hafter : p < _start mi)
  (Hmatch : _start mi < _end mi)
  (Hin : startLine + _end mi - 1 <= endPos) :
  exists st' l a,
    ColouriseSearchResultLine K mi lineBuffer startLine endPos st = Some st'
    /\ spans st'
       = l ++ [ (startLine + _start mi - 1, a);
                (startLine + _end mi - 1, SCE_SEARCHRESULT_WORD2SEARCH K) ]
           ++ (if startLine + _end mi - 1 =? endPos then []
               else [ (endPos, SCE_SEARCHRESULT_DEFAULT K) ]).
Proof.
  unfold ColouriseSearchResultLine.
  destruct lineBuffer as [|c0 rest]; [cbn in Hcolon; discriminate Hcolon|].
  cbn [headerLine] in Hline. apply orb_false_iff in Hline.
  destruct Hline as [E0 E1]. rewrite E0, E1.
  cbv zeta. change (Z.to_nat 4) with 4%nat. rewrite Hcolon.
  destruct (findColon_from _ _ _ Hcolon) as [Hp4 _].
  rewrite (to_size_t_small K (startLine + 4)) by lia.
  rewrite (to_size_t_small K (startLine + p - 1)) by lia.
  rewrite (to_size_t_small K (startLine + _start mi - 1)) by lia.
  rewrite (to_size_t_small K (startLine + _end mi - 1)) by lia.
  set (ms := startLine + _start mi - 1).
  set (me := startLine + _end mi - 1).
  rewrite (ColourTo_adds (startLine + 4)) by lia.
  assert (S2 : exists l2 a2 e2,
            ColourTo (startLine + p - 1) (SCE_SEARCHRESULT_LINE_NUMBER K)
              (mkStyler (startLine + 4 + 1)
                 (spans st
                  ++ [(startLine + 4, SCE_SEARCHRESULT_DEFAULT K)]))
            = mkStyler (e2 + 1) (l2 ++ [(e2, a2)]) /\ e2 <= ms).
  { destruct (Z.eq_dec p 4) as [->|Hp].
    - exists (spans st), (SCE_SEARCHRESULT_DEFAULT K), (startLine + 4).
      split; [|unfold ms; lia].
      unfold ColourTo. cbn [startSeg spans].
      replace (startLine + 4 - 1 =? startLine + 4 + 1 - 1) with false
        by (symmetry; apply Z.eqb_neq; lia).
      replace (startLine + 4 - 1 <? startLine + 4 + 1) with true
        by (symmetry; apply Z.ltb_lt; lia).
      reflexivity.
    - destruct (ColourTo_last (startLine + p - 1)
                  (SCE_SEARCHRESULT_LINE_NUMBER K) (startLine + 4)
                  (SCE_SEARCHRESULT_DEFAULT K) (spans st) ltac:(lia))
        as (l2 & a2 & E).
      exists l2, a2, (startLine + p - 1).
      split; [|unfold ms; lia].
      replace (startLine + p - 1 + 1) with (startLine + p) in * by lia.
      replace (startLine + p - 1 + 1) with (startLine + p) by lia.
      exact E. }
  destruct S2 as (l2 & a2 & e2 & -> & He2).
  assert (Ems : (ms <=? endPos) = true)
    by (apply Z.leb_le; unfold ms; lia).
  assert (Eme : (me <=? endPos) = true) by (apply Z.leb_le; exact Hin).
  rewrite Ems, Eme. cbv beta iota zeta.
  destruct (ColourTo_last ms (SCE_SEARCHRESULT_DEFAULT K) e2 a2 l2 He2)
    as (l3 & a3 & E3).
  unfold Span in E3. rewrite E3.
  rewrite (ColourTo_adds me) by (cbn [startSeg]; unfold ms, me; lia).
  cbn [spans].
  exists (ColourTo endPos (SCE_SEARCHRESULT_DEFAULT K)
            (mkStyler (me + 1)
               ((l3 ++ [(ms, a3)])
                ++ [(me, SCE_SEARCHRESULT_WORD2SEARCH K)]))), l3, a3.
  split; [reflexivity|].
  unfold ColourTo. cbn [startSeg spans].
  replace (endPos =? me + 1 - 1) with (me =? endPos)
    by (rewrite Z.eqb_sym; f_equal; lia).
  destruct (me =? endPos) eqn:E; cbn [spans].
  - rewrite <- app_assoc. reflexivity.
  - apply Z.eqb_neq in E.
    destruct (endPos <? me + 1) eqn:E2; [apply Z.ltb_lt in E2; lia|].
    cbn [spans]. rewrite <- !app_assoc. reflexivity.
Qed.

Lemma match_is_one_span_witness :
  exists st' l a,
    ColouriseSearchResultLine sampleConstants resultMarking resultLine 0 16
      (mkStyler 0 []) = Some st'
    /\ spans st'
       = l ++ [ (0 + _start resultMarking - 1, a);
                (0 + _end resultMarking - 1,
                 SCE_SEARCHRESULT_WORD2SEARCH sampleConstants) ]
           ++ (if 0 + _end resultMarking - 1 =? 16 then []
               else [ (16, SCE_SEARCHRESULT_DEFAULT sampleConstants) ]).
Proof.
  apply (match_is_one_span sampleConstants resultMarking resultLine 0 16 8
           (mkStyler 0 [])).
  - split; [lia | vm_compute; reflexivity].
  - cbn [startSeg]. lia.
  - vm_compute. reflexivity.
  - vm_compute. reflexivity.
  - cbn. lia.
  - cbn. lia.
  - cbn. lia.
Defined.

(** ** FoldSearchResultDoc *)

Lemma lineEnds_nonneg (charAt : Z -> Z) (n : nat) :
  forall i, 0 <= lineEnds charAt n i.
Proof.
  induction n as [|n IH]; intros i; cbn [lineEnds]; [lia|].
  specialize (IH (i + 1)). destruct (foldLineEnd charAt i); lia.
Qed.

Lemma lineLevels_closed (K : Constants) (headerPoint : Z) (white : bool) :
  headerPoint = 0 \/ headerPoint = fileHeaderLevel K
  \/ headerPoint = searchHeaderLevel K ->
  In (let lev := if headerPoint =? 0 then resultLevel K
                 else SC_FOLDLEVELHEADERFLAG K + headerPoint in
      if white then Z.lor lev (SC_FOLDLEVELWHITEFLAG K) else lev)
     (lineLevels K).
Proof.
  intros H. cbv zeta. unfold lineLevels. cbn [map app].
  destruct (headerPoint =? 0) eqn:E.
  - destruct white; cbn [In]; tauto.
  - apply Z.eqb_neq in E. destruct H as [H|[H|H]]; [contradiction| |];
      subst headerPoint; destruct white; cbn [In]; tauto.
Qed.

Lemma foldLoop_levels (K : Constants) (charAt : Z -> Z) (styles : Styles)
  (foldCompact : bool) (n : nat) :
  forall i headerPoint visibleChars lineCurrent levels,
  headerPoint = 0 \/ headerPoint = fileHeaderLevel K
  \/ headerPoint = searchHeaderLevel K ->
  let r := foldLoop K charAt styles foldCompact n i (charAt i)
             (StyleAt styles i) headerPoint visibleChars lineCurrent
             levels in
  fst r = lineCurrent + lineEnds charAt n i /\
  (forall l, l < lineCurrent \/ fst r <= l -> snd r l = levels l) /\
  (forall l, lineCurrent <= l < fst r -> In (snd r l) (lineLevels K)).
Proof.
  induction n as [|n IH]; intros i hp vc lc levels Hhp; cbv zeta.
  - cbn [foldLoop lineEnds fst snd].
    split; [lia|]. split; [reflexivity | intros l Hl; lia].
  - cbn [foldLoop lineEnds]. cbv zeta.
    set (hp1 := if StyleAt styles i =? SCE_SEARCHRESULT_FILE_HEADER K
                then fileHeaderLevel K
                else if StyleAt styles i =? SCE_SEARCHRESULT_SEARCH_HEADER K
                     then searchHeaderLevel K else hp).
    assert (Hhp1 : hp1 = 0 \/ hp1 = fileHeaderLevel K
                   \/ hp1 = searchHeaderLevel K).
    { unfold hp1. destruct (_ =? SCE_SEARCHRESULT_FILE_HEADER K); [tauto|].
      destruct (_ =? SCE_SEARCHRESULT_SEARCH_HEADER K); [tauto|].
      exact Hhp. }
    pose proof (lineLevels_closed K hp1 ((vc =? 0) && foldCompact) Hhp1)
      as Hlev. cbv zeta in Hlev.
    set (lev := if (vc =? 0) && foldCompact
                then Z.lor (if hp1 =? 0 then resultLevel K
                            else SC_FOLDLEVELHEADERFLAG K + hp1)
                       (SC_FOLDLEVELWHITEFLAG K)
                else if hp1 =? 0 then resultLevel K
                     else SC_FOLDLEVELHEADERFLAG K + hp1) in *.
    change ((charAt i =? LF)
            || (charAt i =? CR) && negb (charAt (i + 1) =? LF))
      with (foldLineEnd charAt i).
    pose proof (lineEnds_nonneg charAt n (i + 1)) as Hn.
    destruct (foldLineEnd charAt i).
    + set (levels1 := if lev =? levels lc then levels
                      else SetLevel lc lev levels).
      assert (L1 : levels1 lc = lev).
      { unfold levels1. destruct (lev =? levels lc) eqn:E.
        - apply Z.eqb_eq in E. symmetry. exact E.
        - unfold SetLevel. rewrite Z.eqb_refl. reflexivity. }
      assert (L2 : forall l, l <> lc -> levels1 l = levels l).
      { intros l Hl. unfold levels1. destruct (lev =? levels lc);
          [reflexivity|].
        unfold SetLevel. destruct (l =? lc) eqn:E;
          [apply Z.eqb_eq in E; contradiction | reflexivity]. }
      destruct (IH (i + 1) 0
                  (if isspacechar (charAt i) then 0 else 0 + 1)
                  (lc + 1) levels1 (or_introl eq_refl))
        as (I1 & I2 & I3).
      split; [lia|]. split.
      * intros l Hl. rewrite I2 by lia. apply L2. lia.
      * intros l Hl. destruct (Z.eq_dec l lc) as [->|Hne].
        -- rewrite I2 by lia. rewrite L1. exact Hlev.
        -- apply I3. lia.
    + destruct (IH (i + 1) hp1
                  (if isspacechar (charAt i) then vc else vc + 1)
                  lc levels Hhp1)
        as (I1 & I2 & I3).
      split; [lia|]. split; [exact I2 | exact I3].
Qed.

(** X17.  FoldSearchResultDoc counts a line for every LF and every CR that
    no LF follows in the range; it leaves the level of every line outside
    those it counted and the one it stops on as it was, gives each line it
    counted the level of a result line, of a file header or of a search
    header, with or without the white flag, and gives the line it stops on
    the base level. *)
Theorem fold_levels_frame (K : Constants) (charAt : Z -> Z)
  (doc : Document) (styles : Styles) (foldCompact : bool)
  (startPos length : Z) (levels : Z -> Z) :
  let first := GetLine doc startPos in
  let last :=
    first + lineEnds charAt
              (Z.to_nat (to_size_t K (startPos + length) - startPos))
              startPos in
  let levels' :=
    FoldSearchResultDoc K charAt doc styles foldCompact startPos length
      levels in
  first <= last /\
  levels' last = SC_FOLDLEVELBASE K /\
  (forall l, l < first \/ last < l -> levels' l = levels l) /\
  (forall l, first <= l < last -> In (levels' l) (lineLevels K)).
Proof.
  cbv zeta. unfold FoldSearchResultDoc. cbv zeta.
  set (n := Z.to_nat (to_size_t K (startPos + length) - startPos)).
  pose proof (foldLoop_levels K charAt styles foldCompact n startPos 0 0
                (GetLine doc startPos) levels (or_introl eq_refl)) as H.
  cbv zeta in H.
  destruct (foldLoop K charAt styles foldCompact n startPos
              (charAt startPos) (StyleAt styles startPos) 0 0
              (GetLine doc startPos) levels) as [lc lv].
  cbn [fst snd] in H. destruct H as (H1 & H2 & H3).
  pose proof (lineEnds_nonneg charAt n startPos) as Hn.
  rewrite <- H1.
  split; [lia|]. split; [|split].
  - unfold SetLevel. rewrite Z.eqb_refl. reflexivity.
  - intros l Hl. unfold SetLevel.
    destruct (l =? lc) eqn:E; [apply Z.eqb_eq in E; lia|].
    apply H2. lia.
  - intros l Hl. unfold SetLevel.
    destruct (l =? lc) eqn:E; [apply Z.eqb_eq in E; lia|].
    apply H3. lia.
Qed.

Lemma foldLoop_line (K : Constants) (charAt : Z -> Z) (styles : Styles)
  (foldCompact : bool) (a : Z) (n : nat) :
  forall i headerPoint visibleChars lineCurrent levels,
  headerPoint = 0 \/ headerPoint = headerPointOf K a ->
  0 <= visibleChars ->
  (forall j, i <= j < i + Z.of_nat n -> foldLineEnd charAt j = false) ->
  foldLineEnd charAt (i + Z.of_nat n) = true ->
  (forall j, i <= j <= i + Z.of_nat n -> StyleAt styles j = a) ->
  let r := foldLoop K charAt styles foldCompact (S n) i (charAt i)
             (StyleAt styles i) headerPoint visibleChars lineCurrent
             levels in
  fst r = lineCurrent + 1 /\
  snd r lineCurrent
  = levelOf K (headerPointOf K a)
      ((visibleChars =? 0) && blankRun charAt n i && foldCompact).
Proof.
  induction n as [|n IH]; intros i hp vc lc levels Hhp Hvc Hline Hend Hst;
    cbv zeta.
  - rewrite Z.add_0_r in Hend.
    cbn [foldLoop blankRun]. cbv zeta.
    change ((charAt i =? LF)
            || (charAt i =? CR) && negb (charAt (i + 1) =? LF))
      with (foldLineEnd charAt i).
    rewrite Hend. cbn [fst snd]. split; [reflexivity|].
    rewrite (Hst i) by lia. rewrite andb_true_r.
    assert (E : (if a =? SCE_SEARCHRESULT_FILE_HEADER K
                 then fileHeaderLevel K
                 else if a =? SCE_SEARCHRESULT_SEARCH_HEADER K
                      then searchHeaderLevel K else hp)
                = headerPointOf K a).
    { unfold headerPointOf.
      destruct (a =? SCE_SEARCHRESULT_FILE_HEADER K) eqn:E1; [reflexivity|].
      destruct (a =? SCE_SEARCHRESULT_SEARCH_HEADER K) eqn:E2;
        [reflexivity|].
      destruct Hhp as [->| ->]; [reflexivity|].
      unfold headerPointOf. rewrite E1, E2. reflexivity. }
    rewrite E. fold (levelOf K (headerPointOf K a) ((vc =? 0) && foldCompact)).
    destruct (levelOf K (headerPointOf K a) ((vc =? 0) && foldCompact)
              =? levels lc) eqn:EL.
    + apply Z.eqb_eq in EL. symmetry. exact EL.
    + unfold SetLevel. rewrite Z.eqb_refl. reflexivity.
  - remember (S n) as m eqn:Em. cbn [foldLoop]. cbv zeta.
    change ((charAt i =? LF)
            || (charAt i =? CR) && negb (charAt (i + 1) =? LF))
      with (foldLineEnd charAt i).
    rewrite (Hline i) by lia.
    subst m. cbn [blankRun].
    set (hp1 := if StyleAt styles i =? SCE_SEARCHRESULT_FILE_HEADER K
                then fileHeaderLevel K
                else if StyleAt styles i =? SCE_SEARCHRESULT_SEARCH_HEADER K
                     then searchHeaderLevel K else hp).
    assert (Hhp1 : hp1 = 0 \/ hp1 = headerPointOf K a).
    { unfold hp1. rewrite (Hst i) by lia. unfold headerPointOf.
      destruct (a =? SCE_SEARCHRESULT_FILE_HEADER K) eqn:E1; [tauto|].
      destruct (a =? SCE_SEARCHRESULT_SEARCH_HEADER K) eqn:E2; [tauto|].
      destruct Hhp as [->|H]; [tauto|].
      unfold headerPointOf in H. rewrite E1, E2 in H. tauto. }
    set (vc1 := if isspacechar (charAt i) then vc else vc + 1).
    assert (Hvc1 : 0 <= vc1) by (unfold vc1; destruct (isspacechar _); lia).
    destruct (IH (i + 1) hp1 vc1 lc levels Hhp1 Hvc1) as [I1 I2].
    + intros j Hj. apply Hline. lia.
    + replace (i + 1 + Z.of_nat n) with (i + Z.of_nat (S n)) by lia.
      exact Hend.
    + intros j Hj. apply Hst. lia.
    + split; [exact I1|]. rewrite I2. f_equal. f_equal.
      unfold vc1. destruct (isspacechar (charAt i)).
      * rewrite andb_true_l. reflexivity.
      * replace (vc + 1 =? 0) with false
          by (symmetry; apply Z.eqb_neq; lia).
        cbn [andb]. rewrite andb_false_r. reflexivity.
Qed.

(** X18.  Run on one line whose characters all carry the classification
    [a], the line ending at its last character and nowhere before,
    FoldSearchResultDoc gives the line the level that [a] stands for (file
    header, search header, or result line for any other classification),
    with the white flag exactly when fold.compact is set and all the
    characters before the last are white space, and gives the next line the
    base level. *)
Theorem fold_level_of_line (K : Constants) (charAt : Z -> Z)
  (doc : Document) (styles : Styles) (foldCompact : bool)
  (startPos length a : Z) (levels : Z -> Z)
  (Hpos : 0 <= startPos /\ 0 < length
          /\ startPos + length < 2 ^ size_t_bits K)
  (Hline : forall j, startPos <= j < startPos + length - 1 ->
                     foldLineEnd charAt j = false)
  (Hend : foldLineEnd charAt (startPos + length - 1) = true)
  (Hstyle : forall j, startPos <= j < startPos + length ->
                      StyleAt styles j = a) :
  let levels' :=
    FoldSearchResultDoc K charAt doc styles foldCompact startPos length
      levels in
  levels' (GetLine doc startPos)
  = levelOf K (headerPointOf K a)
      (blankRun charAt (Z.to_nat (length - 1)) startPos && foldCompact)
  /\ levels' (GetLine doc startPos + 1) = SC_FOLDLEVELBASE K.
Proof.
  cbv zeta. unfold FoldSearchResultDoc. cbv zeta.
  rewrite (to_size_t_small K (startPos + length)) by lia.
  replace (Z.to_nat (startPos + length - startPos))
    with (S (Z.to_nat (length - 1))) by lia.
  pose proof (foldLoop_line K charAt styles foldCompact a
                (Z.to_nat (length - 1)) startPos 0 0 (GetLine doc startPos)
                levels (or_introl eq_refl) (Z.le_refl 0)) as H.
  cbv zeta in H.
  destruct (foldLoop K charAt styles foldCompact (S (Z.to_nat (length - 1)))
              startPos (charAt startPos) (StyleAt styles startPos) 0 0
              (GetLine doc startPos) levels) as [lc lv].
  cbn [fst snd] in H. destruct H as [H1 H2].
  - intros j Hj. apply Hline. lia.
  - replace (startPos + Z.of_nat (Z.to_nat (length - 1)))
      with (startPos + length - 1) by lia.
    exact Hend.
  - intros j Hj. apply Hstyle. lia.
  - subst lc. unfold SetLevel. rewrite Z.eqb_refl.
    split; [|reflexivity].
    replace (GetLine doc startPos =? GetLine doc startPos + 1) with false
      by (symmetry; apply Z.eqb_neq; lia).
    rewrite H2. rewrite Z.eqb_refl, andb_true_l. reflexivity.
Qed.

Lemma fold_level_of_line_witness :
  FoldSearchResultDoc sampleConstants fileHeaderChars fileHeaderDoc
    fileHeaderStyles true 0 6 (fun _ => 0) (GetLine fileHeaderDoc 0)
  = 8192 + 1026
  /\ FoldSearchResultDoc sampleConstants fileHeaderChars fileHeaderDoc
       fileHeaderStyles true 0 6 (fun _ => 0) (GetLine fileHeaderDoc 0 + 1)
     = 1024.
Proof.
  assert (R : forall j, 0 <= j < 0 + 6 ->
                j = 0 \/ j = 1 \/ j = 2 \/ j = 3 \/ j = 4 \/ j = 5)
    by (intros j Hj; lia).
  apply (fold_level_of_line sampleConstants fileHeaderChars fileHeaderDoc
           fileHeaderStyles true 0 6
           (SCE_SEARCHRESULT_FILE_HEADER sampleConstants) (fun _ => 0)).
  - split; [lia|]. split; [lia | vm_compute; reflexivity].
  - intros j Hj. destruct (R j ltac:(lia)) as [->|[->|[->|[->|[->| ->]]]]];
      try reflexivity; lia.
  - vm_compute. reflexivity.
  - intros j Hj. destruct (R j Hj) as [->|[->|[->|[->|[->| ->]]]]];
      reflexivity.
Defined.

(** ** Headers that start with number signs *)

Lemma stateRules_LINE_BEGIN (doc : Document) (endPos : Z) (s : ScanState) :
  state (cursor s) = SCE_MARKDOWN_LINE_BEGIN ->
  stateRules doc endPos s = lineBeginRules doc endPos s.
Proof. intros H. unfold stateRules. cbv zeta. rewrite H. reflexivity. Qed.

Lemma lineBeginRules_hashes (doc : Document) (endPos : Z) (s : ScanState) :
  ch (cursor s) = chr "#" ->
  lineBeginRules doc endPos s
  = with_cursor (SetState (headerOfLevel (leadingHashes doc (cursor s)))
                   (cursor s)) s
  /\ isHeader (headerOfLevel (leadingHashes doc (cursor s))) = true.
Proof.
  intros H. unfold lineBeginRules, leadingHashes. cbv zeta.
  set (h := chr "#") in *.
  change (bytes "######") with [h; h; h; h; h; h].
  change (bytes "#####") with [h; h; h; h; h].
  change (bytes "####") with [h; h; h; h].
  change (bytes "###") with [h; h; h].
  change (bytes "##") with [h; h].
  change (bytes "#") with [h].
  cbn [Match matchFrom runOf]. rewrite H, Z.eqb_refl.
  rewrite !(Z.eqb_sym h (GetRelative _ _ _)).
  change (2 + 1) with 3. change (3 + 1) with 4. change (4 + 1) with 5.
  cbn [andb].
  destruct (chNext (cursor s) =? h); cbn [andb];
    [|split; reflexivity].
  destruct (GetRelative doc (cursor s) 2 =? h); cbn [andb];
    [|split; reflexivity].
  destruct (GetRelative doc (cursor s) 3 =? h); cbn [andb];
    [|split; reflexivity].
  destruct (GetRelative doc (cursor s) 4 =? h); cbn [andb];
    [|split; reflexivity].
  destruct (GetRelative doc (cursor s) 5 =? h); cbn [andb];
    split; reflexivity.
Qed.

(** X19.  In LINE_BEGIN on a number sign, with the cursor not frozen, an
    iteration opens the header whose level is the number of number signs at
    the cursor, six at most, and moves one character forward. *)
Theorem hashes_open_header (doc : Document) (endPos : Z) (s : ScanState)
  (Hst : state (cursor s) = SCE_MARKDOWN_LINE_BEGIN)
  (Hch : ch (cursor s) = chr "#")
  (Hfr : freezeCursor s = false) :
  cursor (loopBody doc endPos s)
  = Forward doc (SetState (headerOfLevel (leadingHashes doc (cursor s)))
                   (cursor s))
  /\ isHeader (state (cursor (loopBody doc endPos s))) = true.
Proof.
  destruct (lineBeginRules_hashes doc endPos s Hch) as [R Hh].
  destruct (isHeader_cases _ Hh) as (N1 & N2 & N3 & N4 & N5 & N6 & N7).
  assert (E : cursor (loopBody doc endPos s)
              = Forward doc
                  (SetState (headerOfLevel (leadingHashes doc (cursor s)))
                     (cursor s))).
  { unfold loopBody. rewrite Hch.
    change (chr "#" =? BACKSLASH) with false. cbv iota.
    rewrite blockquoteRule_inactive by (rewrite Hst; discriminate).
    rewrite stateRules_LINE_BEGIN by exact Hst. rewrite R.
    rewrite rest_is_advance
      by (cbn [cursor with_cursor]; rewrite state_SetState; assumption).
    apply advance_unfrozen. exact Hfr. }
  split; [exact E|].
  rewrite E, state_Forward, state_SetState. exact Hh.
Qed.

Lemma hashes_open_header_witness :
  cursor (loopBody levelThreeDoc 6 atHashes)
  = Forward levelThreeDoc
      (SetState (headerOfLevel (leadingHashes levelThreeDoc
                                  (cursor atHashes)))
         (cursor atHashes))
  /\ isHeader (state (cursor (loopBody levelThreeDoc 6 atHashes))) = true.
Proof.
  apply (hashes_open_header levelThreeDoc 6 atHashes);
    vm_compute; reflexivity.
Defined.

(** ** The cursor held at a line start, and the indented code block *)







(** ** ColouriseSearchResultDoc *)

Lemma store_app (pre rest : list Z) (x v : Z) :
  store (pre ++ x :: rest) (List.length pre) v = Some (pre ++ v :: rest).
Proof.
  induction pre as [|y t IH]; cbn [store app List.length]; [reflexivity|].
  rewrite IH. reflexivity.
Qed.

Section OneLine.

Variable K : Constants.
Variable charAt : Z -> Z.
Variable chDefault : Z.
Variable doc : Document.
Variable markings : Z -> SearchResultMarking.
Variables startLine e : Z.
Variable st : Styler.

Hypothesis Hend : AtEOL charAt chDefault doc e = true.

Lemma lineLoop_line (m : nat) :
  forall (pre rest : list Z) (fuel : nat) (i : Z),
  i + Z.of_nat m = e ->
  (forall j, i <= j < e -> AtEOL charAt chDefault doc j = false) ->
  (m + 2 <= List.length rest)%nat ->
  Z.of_nat (List.length pre + List.length rest) < 2 ^ size_t_bits K ->
  (m + 1 < fuel)%nat ->
  lineLoop K charAt chDefault doc markings (e + 1) fuel i
           (Z.of_nat (List.length pre)) startLine (pre ++ rest) st
  = match ColouriseSearchResultLine K (markings (GetLine doc startLine))
            (pre ++ readRun charAt i (S m) ++ 0 :: skipn (m + 2) rest)
            startLine e st with
    | None => None
    | Some st' =>
        Some (0, e + 1,
              pre ++ readRun charAt i (S m) ++ 0 :: skipn (m + 2) rest, st')
    end.
Proof.
  induction m as [|m IH]; intros pre rest fuel i Hi Hline Hrest Hsize Hfuel.
  - assert (i = e) by lia. subst i.
    destruct rest as [|x [|y rest]]; cbn [List.length] in Hrest; try lia.
    destruct fuel as [|[|f]]; try lia.
    cbn [lineLoop]. replace (e <? e + 1) with true
      by (symmetry; apply Z.ltb_lt; lia).
    rewrite Nat2Z.id, store_app. cbv zeta. rewrite Hend. cbn [orb].
    replace (Z.to_nat (Z.of_nat (List.length pre) + 1))
      with (List.length (pre ++ [charAt e]))
      by (rewrite length_app; cbn [List.length]; lia).
    replace (pre ++ charAt e :: y :: rest)
      with ((pre ++ [charAt e]) ++ y :: rest)
      by (rewrite <- app_assoc; reflexivity).
    rewrite store_app. rewrite <- app_assoc.
    cbn [readRun skipn app Nat.add].
    destruct (ColouriseSearchResultLine K (markings (GetLine doc startLine))
                (pre ++ charAt e :: 0 :: rest) startLine e st) as [st'|];
      [|reflexivity].
    cbn [skipLine]. rewrite Hend.
    replace (e + 1 <? e + 1) with false
      by (symmetry; apply Z.ltb_ge; lia).
    reflexivity.
  - destruct rest as [|x rest]; cbn [List.length] in Hrest; try lia.
    destruct fuel as [|f]; try lia.
    cbn [lineLoop]. replace (i <? e + 1) with true
      by (symmetry; apply Z.ltb_lt; lia).
    rewrite Nat2Z.id, store_app. cbv zeta.
    rewrite (Hline i) by lia. cbn [orb].
    assert (L : Z.of_nat (List.length (pre ++ charAt i :: rest))
                = Z.of_nat (List.length pre + List.length (x :: rest))).
    { rewrite length_app. cbn [List.length]. reflexivity. }
    rewrite L. cbn [List.length] in *.
    rewrite to_size_t_small by lia.
    replace (Z.of_nat (List.length pre + S (List.length rest)) - 1
             <=? Z.of_nat (List.length pre) + 1) with false
      by (symmetry; apply Z.leb_gt; lia).
    replace (pre ++ charAt i :: rest) with ((pre ++ [charAt i]) ++ rest)
      by (rewrite <- app_assoc; reflexivity).
    replace (Z.of_nat (List.length pre) + 1)
      with (Z.of_nat (List.length (pre ++ [charAt i])))
      by (rewrite length_app; cbn [List.length]; lia).
    rewrite IH.
    + rewrite <- !app_assoc. reflexivity.
    + lia.
    + intros j Hj. apply Hline. lia.
    + lia.
    + rewrite length_app. cbn [List.length]. lia.
    + lia.
Qed.

End OneLine.

(** X22.  Run on one line that ends at its last character and nowhere
    before and that is shorter than the line buffer, with enough iterations
    allowed, ColouriseSearchResultDoc does what one call of
    ColouriseSearchResultLine does on that line, from the start of the line
    to its last character, with the marking of the line of the start and a
    buffer that holds the characters of the line, a 0, and behind it what
    the buffer held before. *)
Theorem doc_hands_over_line (K : Constants) (charAt : Z -> Z)
  (chDefault : Z) (doc : Document) (markings : Z -> SearchResultMarking)
  (fuel : nat) (lineBuffer : list Z) (startPos length : Z)
  (Hpos : 0 <= startPos /\ 0 < length
          /\ startPos + length < 2 ^ size_t_bits K)
  (Hbuf : length < Z.of_nat (List.length lineBuffer) < 2 ^ size_t_bits K)
  (Hline : forall j, startPos <= j < startPos + length - 1 ->
                     AtEOL charAt chDefault doc j = false)
  (Hend : AtEOL charAt chDefault doc (startPos + length - 1) = true)
  (Hfuel : (Z.to_nat length < fuel)%nat) :
  ColouriseSearchResultDoc K charAt chDefault doc (Some markings) fuel
    lineBuffer startPos length
  = ColouriseSearchResultLine K (markings (GetLine doc startPos))
      (readRun charAt startPos (Z.to_nat length)
       ++ 0 :: skipn (Z.to_nat length + 1) lineBuffer)
      startPos (startPos + length - 1) (mkStyler startPos []).
Proof.
  unfold ColouriseSearchResultDoc. cbv zeta.
  rewrite to_size_t_small by lia.
  pose proof (lineLoop_line K charAt chDefault doc markings startPos
                (startPos + length - 1) (mkStyler startPos []) Hend
                (Z.to_nat (length - 1)) [] lineBuffer fuel startPos) as H.
  cbn [app List.length] in H. change (Z.of_nat 0) with 0 in H.
  replace (startPos + length - 1 + 1) with (startPos + length) in H by lia.
  replace (S (Z.to_nat (length - 1))) with (Z.to_nat length) in H by lia.
  replace (Z.to_nat (length - 1) + 2)%nat with (Z.to_nat length + 1)%nat
    in H by lia.
  rewrite H.
  - destruct (ColouriseSearchResultLine K (markings (GetLine doc startPos))
                _ startPos (startPos + length - 1) (mkStyler startPos []));
      reflexivity.
  - lia.
  - intros j Hj. apply Hline. lia.
  - lia.
  - cbn [Nat.add]. lia.
  - lia.
Qed.

Lemma doc_hands_over_line_witness :
  ColouriseSearchResultDoc sampleConstants fileHeaderChars SPACE
    fileHeaderDoc (Some (fun _ => resultMarking)) 7 (repeat 0 8%nat) 0 6
  = ColouriseSearchResultLine sampleConstants resultMarking
      (readRun fileHeaderChars 0 (Z.to_nat 6)
       ++ 0 :: skipn (Z.to_nat 6 + 1) (repeat 0 8%nat))
      0 (0 + 6 - 1) (mkStyler 0 []).
Proof.
  assert (R : forall j, 0 <= j < 0 + 6 - 1 ->
                j = 0 \/ j = 1 \/ j = 2 \/ j = 3 \/ j = 4)
    by (intros j Hj; lia).
  apply (doc_hands_over_line sampleConstants fileHeaderChars SPACE
           fileHeaderDoc (fun _ => resultMarking) 7 (repeat 0 8%nat) 0 6).
  - split; [lia|]. split; [lia | vm_compute; reflexivity].
  - split; vm_compute; reflexivity.
  - intros j Hj. destruct (R j Hj) as [->|[->|[->|[->| ->]]]];
      reflexivity.
  - vm_compute. reflexivity.
  - vm_compute. lia.
Defined.

Lemma skipLine_finds (charAt : Z -> Z) (chDefault : Z) (doc : Document)
  (e : Z) (fuel : nat) :
  forall i,
  i <= e ->
  (forall j, i <= j < e -> AtEOL charAt chDefault doc j = false) ->
  AtEOL charAt chDefault doc e = true ->
  (Z.to_nat (e - i) < fuel)%nat ->
  skipLine charAt chDefault doc fuel i = Some e.
Proof.
  induction fuel as [|f IH]; intros i Hi Hline Hend Hfuel; [lia|].
  cbn [skipLine]. destruct (Z.eq_dec i e) as [->|Hne].
  - rewrite Hend. reflexivity.
  - rewrite (Hline i) by lia. apply IH; try assumption; try lia.
    intros j Hj. apply Hline. lia.
Qed.

(** X23.  When the line buffer fills before the line ends, the characters
    read so far are handed to ColouriseSearchResultLine as a line that ends
    at the current offset [i], the rest of the line up to its end [e] is
    skipped, and the loop goes on after [e] with an empty buffer and with
    the start of the line set to [i + 1], which is inside the line that was
    cut and before the start of the next line. *)
Theorem cut_line_shifts_next_start (K : Constants) (charAt : Z -> Z)
  (chDefault : Z) (doc : Document) (markings : Z -> SearchResultMarking)
  (upto : Z) (fuel : nat) (i startLine e x y : Z) (pre : list Z)
  (st : Styler)
  (Hin : i < upto)
  (Hsize : Z.of_nat (List.length pre) + 2 < 2 ^ size_t_bits K)
  (Hline : forall j, i <= j < e -> AtEOL charAt chDefault doc j = false)
  (Hlong : i < e)
  (Hend : AtEOL charAt chDefault doc e = true)
  (Hfuel : (Z.to_nat (e - i) <= fuel)%nat) :
  lineLoop K charAt chDefault doc markings upto (S fuel) i
           (Z.of_nat (List.length pre)) startLine (pre ++ [x; y]) st
  = match ColouriseSearchResultLine K (markings (GetLine doc startLine))
            (pre ++ [charAt i; 0]) startLine i st with
    | None => None
    | Some st' =>
        lineLoop K charAt chDefault doc markings upto fuel (e + 1) 0
                 (i + 1) (pre ++ [charAt i; 0]) st'
    end
  /\ i + 1 < e + 1.
Proof.
  split; [|lia].
  cbn [lineLoop]. apply Z.ltb_lt in Hin. rewrite Hin.
  rewrite Nat2Z.id, store_app. cbv zeta.
  rewrite (Hline i) by lia. cbn [orb].
  assert (L : Z.of_nat (List.length (pre ++ [charAt i; y]))
              = Z.of_nat (List.length pre) + 2)
    by (rewrite length_app; cbn [List.length]; lia).
  rewrite L. rewrite to_size_t_small by lia.
  replace (Z.of_nat (List.length pre) + 2 - 1
           <=? Z.of_nat (List.length pre) + 1) with true
    by (symmetry; apply Z.leb_le; lia).
  replace (Z.to_nat (Z.of_nat (List.length pre) + 1))
    with (List.length (pre ++ [charAt i]))
    by (rewrite length_app; cbn [List.length]; lia).
  replace (pre ++ [charAt i; y]) with ((pre ++ [charAt i]) ++ [y])
    by (rewrite <- app_assoc; reflexivity).
  rewrite store_app. rewrite <- app_assoc. cbn [app].
  destruct (ColouriseSearchResultLine K (markings (GetLine doc startLine))
              (pre ++ [charAt i; 0]) startLine i st) as [st'|];
    [|reflexivity].
  rewrite (skipLine_finds charAt chDefault doc e (S fuel) i)
    by (try assumption; lia).
  reflexivity.
Qed.

Lemma cut_line_shifts_next_start_witness :
  ColouriseSearchResultLine sampleConstants resultMarking
    ([SPACE; SPACE] ++ [cutLineChars 2; 0]) 0 2 (mkStyler 0 [])
  = Some (mkStyler 3 [(2, SCE_SEARCHRESULT_FILE_HEADER sampleConstants)]) /\
  lineLoop sampleConstants cutLineChars SPACE cutLineDoc
    (fun _ => resultMarking) 10 (S 10) 2
    (Z.of_nat (List.length [SPACE; SPACE])) 0
    ([SPACE; SPACE] ++ [0; 0]) (mkStyler 0 [])
  = lineLoop sampleConstants cutLineChars SPACE cutLineDoc
      (fun _ => resultMarking) 10 10 (6 + 1) 0 (2 + 1)
      ([SPACE; SPACE] ++ [cutLineChars 2; 0])
      (mkStyler 3 [(2, SCE_SEARCHRESULT_FILE_HEADER sampleConstants)]) /\
  lineLoop sampleConstants cutLineChars SPACE cutLineDoc
    (fun _ => resultMarking) 10 10 (6 + 1) 0 (2 + 1)
    ([SPACE; SPACE] ++ [cutLineChars 2; 0])
    (mkStyler 3 [(2, SCE_SEARCHRESULT_FILE_HEADER sampleConstants)])
  = Some (0, 10, [chr "S"; chr "x"; LF; 0],
          mkStyler 10
            [ (2, SCE_SEARCHRESULT_FILE_HEADER sampleConstants);
              (9, SCE_SEARCHRESULT_SEARCH_HEADER sampleConstants) ]) /\
  2 + 1 < 6 + 1.
Proof.
  assert (R : forall j, 2 <= j < 6 -> j = 2 \/ j = 3 \/ j = 4 \/ j = 5)
    by (intros j Hj; lia).
  assert (E : ColouriseSearchResultLine sampleConstants resultMarking
                ([SPACE; SPACE] ++ [cutLineChars 2; 0]) 0 2 (mkStyler 0 [])
              = Some (mkStyler 3
                        [(2, SCE_SEARCHRESULT_FILE_HEADER sampleConstants)]))
    by (vm_compute; reflexivity).
  destruct (cut_line_shifts_next_start sampleConstants cutLineChars SPACE
              cutLineDoc (fun _ => resultMarking) 10 10 2 0 6 0 0
              [SPACE; SPACE] (mkStyler 0 [])) as [H1 H2].
  - lia.
  - vm_compute. reflexivity.
  - intros j Hj. destruct (R j Hj) as [->|[->|[->| ->]]]; reflexivity.
  - lia.
  - vm_compute. reflexivity.
  - vm_compute. lia.
  - cbv beta in H1. rewrite E in H1.
    split; [exact E|]. split; [exact H1|].
    split; [vm_compute; reflexivity | exact H2].
Defined.
